(** * NCP policy client: trust-policy resolution engine

    A shallow embedding of [nandaPolicy.PolicyManager] (discovery, policy
    matching, trust cache, endpoint resolution) and the properties of its
    specification.

    The program is Python: its data are the values that [json.loads]
    produces, its dictionaries are looked up by string keys, and any
    subscript, attribute access or comparison may raise.  The embedding keeps
    that: values are [pyval], fallible code returns [result], the code that
    touches the cache file threads a [world]. *)

From Stdlib Require Import ZArith QArith String Ascii List Bool Lia.
From stdpp Require Import base list strings pretty.

Local Open Scope Z_scope.

(** ** Values *)

(** A Python [float], by the value it denotes.  Floats are only compared and
    stored by this program, never computed with, so the exact (rational)
    value of a finite float is all that matters. *)
Inductive pyfloat :=
| FNan
| FInf (negative : bool)
| FFin (q : Q).

Unset Elimination Schemes.

(** What [json.loads] yields.  A [str] is the string of its UTF-8 bytes;
    a [dict] is the list of its bindings in insertion order and is read by
    [dict_lookup], which takes the first binding of a key. *)
Inductive pyval :=
| PNone
| PBool (b : bool)
| PInt (z : Z)
| PFloat (f : pyfloat)
| PStr (s : string)
| PList (l : list pyval)
| PDict (d : list (string * pyval)).

Set Elimination Schemes.

Definition pyval_ind (P : pyval -> Prop)
    (HNone : P PNone)
    (HBool : forall b, P (PBool b))
    (HInt : forall z, P (PInt z))
    (HFloat : forall f, P (PFloat f))
    (HStr : forall s, P (PStr s))
    (HList : forall l, Forall P l -> P (PList l))
    (HDict : forall d, Forall (fun kv => P (snd kv)) d -> P (PDict d)) :
  forall v, P v :=
  fix go (v : pyval) : P v :=
    match v with
    | PNone => HNone
    | PBool b => HBool b
    | PInt z => HInt z
    | PFloat f => HFloat f
    | PStr s => HStr s
    | PList l =>
        HList l ((fix all (l : list pyval) : Forall P l :=
                    match l with
                    | [] => @Stdlib.Lists.List.Forall_nil _ P
                    | x :: r =>
                        @Stdlib.Lists.List.Forall_cons _ P x r (go x) (all r)
                    end) l)
    | PDict d =>
        HDict d ((fix all (d : list (string * pyval)) :
                    Forall (fun kv => P (snd kv)) d :=
                    match d with
                    | [] => @Stdlib.Lists.List.Forall_nil _ _
                    | kv :: r =>
                        @Stdlib.Lists.List.Forall_cons _ _ kv r
                          (go (snd kv)) (all r)
                    end) d)
    end.

(** ** Exceptions and results *)

Inductive exn :=
| KeyError (key : string)
| TypeError
| AttributeError
| ValueError
| JSONDecodeError
| FileNotFoundError
| IsADirectoryError
| PermissionError
| UnicodeDecodeError
| OSError
| RecursionError.

Inductive result (A : Type) :=
| Ok (a : A)
| Raise (e : exn).

Arguments Ok {A} a.
Arguments Raise {A} e.

Definition bind {A B} (c : result A) (k : A -> result B) : result B :=
  match c with
  | Ok a => k a
  | Raise e => Raise e
  end.

Declare Scope py_scope.
Delimit Scope py_scope with py.
Notation "x <- c ;; k" := (bind c (fun x => k))
  (at level 100, c at next level, right associativity) : py_scope.
Local Open Scope py_scope.

(** ** Dictionaries *)

Fixpoint dict_lookup (k : string) (d : list (string * pyval)) : option pyval :=
  match d with
  | [] => None
  | (k', v) :: r => if String.eqb k k' then Some v else dict_lookup k r
  end.

(** [d[k] = v]: the binding of an existing key is replaced where it is, a
    new key is added at the end. *)
Fixpoint dict_set (k : string) (v : pyval) (d : list (string * pyval))
  : list (string * pyval) :=
  match d with
  | [] => [(k, v)]
  | (k', v') :: r =>
      if String.eqb k k' then (k', v) :: r else (k', v') :: dict_set k v r
  end.

(** [o[k]] for a string key. *)
Definition py_getitem (o : pyval) (k : string) : result pyval :=
  match o with
  | PDict d =>
      match dict_lookup k d with
      | Some v => Ok v
      | None => Raise (KeyError k)
      end
  | _ => Raise TypeError
  end.

(** [o.get(k, default)]: only a dictionary has the method. *)
Definition py_get (o : pyval) (k : string) (default : pyval) : result pyval :=
  match o with
  | PDict d =>
      match dict_lookup k d with
      | Some v => Ok v
      | None => Ok default
      end
  | _ => Raise AttributeError
  end.

(** ** Truth value, iteration *)

Definition float_is_zero (f : pyfloat) : bool :=
  match f with
  | FFin q => Qeq_bool q 0
  | _ => false
  end.

Definition truthy (v : pyval) : bool :=
  match v with
  | PNone => false
  | PBool b => b
  | PInt z => negb (z =? 0)
  | PFloat f => negb (float_is_zero f)
  | PStr s => negb (String.eqb s "")
  | PList l => match l with [] => false | _ => true end
  | PDict d => match d with [] => false | _ => true end
  end.

Fixpoint chars (s : string) : list pyval :=
  match s with
  | EmptyString => []
  | String c r => PStr (String c EmptyString) :: chars r
  end.

(** [for x in v]: the elements of a list, the keys of a dictionary, the
    characters of a string (here one per byte; every use below raises on the
    first of them whatever it is). *)
Definition py_iter (v : pyval) : result (list pyval) :=
  match v with
  | PList l => Ok l
  | PDict d => Ok (map (fun kv => PStr (fst kv)) d)
  | PStr s => Ok (chars s)
  | _ => Raise TypeError
  end.

(** ** Comparison *)

(** [bool] is a subclass of [int]; both compare with floats by value. *)
Definition as_number (v : pyval) : option pyfloat :=
  match v with
  | PBool b => Some (FFin (if b then 1 else 0)%Q)
  | PInt z => Some (FFin (inject_Z z))
  | PFloat f => Some f
  | _ => None
  end.

Definition float_ge (a b : pyfloat) : bool :=
  match a, b with
  | FNan, _ | _, FNan => false
  | FInf na, FInf nb => negb na || nb
  | FInf na, FFin _ => negb na
  | FFin _, FInf nb => nb
  | FFin p, FFin q => Qle_bool q p
  end.

(** Same object, or equal: the decoder hands out one [nan] object, so inside
    containers [nan] matches itself. *)
Definition float_same (a b : pyfloat) : bool :=
  match a, b with
  | FNan, FNan => true
  | FInf na, FInf nb => Bool.eqb na nb
  | FFin p, FFin q => Qeq_bool p q
  | _, _ => false
  end.

Definition is_nan (v : pyval) : bool :=
  match v with
  | PFloat FNan => true
  | _ => false
  end.

Definition is_some {A} (o : option A) : bool :=
  match o with
  | Some _ => true
  | None => false
  end.

Definition mem_string (k : string) (l : list string) : bool :=
  existsb (String.eqb k) l.

(** Element-wise comparison of two lists of the same length. *)
Definition all2 (f : pyval -> pyval -> bool)
  : list pyval -> list pyval -> bool :=
  fix all (la lb : list pyval) {struct la} : bool :=
    match la, lb with
    | [] , [] => true
    | x :: xs, y :: ys => f x y && all xs ys
    | _, _ => false
    end.

(** Every key of [da] that is not shadowed by an earlier binding (those in
    [seen]) is bound in [db] to a matching value. *)
Definition bindings_match (f : pyval -> pyval -> bool)
    (db : list (string * pyval))
  : list string -> list (string * pyval) -> bool :=
  fix all (seen : list string) (da : list (string * pyval)) {struct da}
    : bool :=
    match da with
    | [] => true
    | (k, v) :: r =>
        (if mem_string k seen then true
         else match dict_lookup k db with
              | Some w => f v w
              | None => false
              end) && all (k :: seen) r
    end.

Definition keys_bound (da db : list (string * pyval)) : bool :=
  forallb (fun kv => is_some (dict_lookup (fst kv) da)) db.

(** [a is b or a == b], the test that containers apply to their elements.
    Dictionaries are equal when they bind the same keys to matching values,
    in any order. *)
Fixpoint py_equiv (a b : pyval) {struct a} : bool :=
  match a, b with
  | PNone, PNone => true
  | PStr s, PStr t => String.eqb s t
  | PList la, PList lb => all2 py_equiv la lb
  | PDict da, PDict db => keys_bound da db && bindings_match py_equiv db [] da
  | _, _ =>
      match as_number a, as_number b with
      | Some x, Some y => float_same x y
      | _, _ => false
      end
  end.

(** [a == b]: as [py_equiv], except that a float [nan] is equal to nothing,
    itself included. *)
Definition py_eq (a b : pyval) : bool :=
  if is_nan a || is_nan b then false else py_equiv a b.

Definition string_ge (a b : string) : bool := String.leb b a.

(** Lists compare at the first position where they differ, or by length. *)
Definition lexicographic_ge (ge : pyval -> pyval -> result bool)
  : list pyval -> list pyval -> result bool :=
  fix lex (la lb : list pyval) {struct la} : result bool :=
    match la, lb with
    | [], [] => Ok true
    | [], _ :: _ => Ok false
    | _ :: _, [] => Ok true
    | x :: xs, y :: ys => if py_equiv x y then lex xs ys else ge x y
    end.

(** [a >= b].  Numbers by value, strings by code point (the order of their
    UTF-8 bytes), lists lexicographically; anything else is a [TypeError]. *)
Fixpoint py_ge (a b : pyval) {struct a} : result bool :=
  match a, b with
  | PStr s, PStr t => Ok (string_ge s t)
  | PList la, PList lb => lexicographic_ge py_ge la lb
  | _, _ =>
      match as_number a, as_number b with
      | Some x, Some y => Ok (float_ge x y)
      | _, _ => Raise TypeError
      end
  end.

Fixpoint is_prefix (p s : string) : bool :=
  match p, s with
  | EmptyString, _ => true
  | String a p', String b s' => Ascii.eqb a b && is_prefix p' s'
  | String _ _, EmptyString => false
  end.

(** [p in s] on strings: [p] occurs in [s]. *)
Fixpoint is_substring (p s : string) : bool :=
  is_prefix p s ||
  match s with
  | EmptyString => false
  | String _ s' => is_substring p s'
  end.

Definition hashable (v : pyval) : bool :=
  match v with
  | PList _ | PDict _ => false
  | _ => true
  end.

(** [x in c]. *)
Definition py_in (x c : pyval) : result bool :=
  match c with
  | PList l => Ok (existsb (py_equiv x) l)
  | PDict d =>
      if hashable x
      then Ok (match x with
               | PStr k => is_some (dict_lookup k d)
               | _ => false
               end)
      else Raise TypeError
  | PStr s =>
      match x with
      | PStr p => Ok (is_substring p s)
      | _ => Raise TypeError
      end
  | _ => Raise TypeError
  end.

Definition py_and (a b : result bool) : result bool :=
  x <- a ;; if x then b else Ok false.

(** ** The cache file and the registry *)

(** The file at [CACHE_FILE], by what opening and reading it does. *)
Inductive file_state :=
| Absent        (* no such path *)
| Directory     (* the path is a directory: [open] raises *)
| Denied        (* the process may not open it *)
| Undecodable   (* bytes that are not text in the default encoding *)
| Malformed     (* text that [json.load] rejects, such as an empty file
                    and the beginning of a document *)
| Holds (v : pyval).   (* text that [json.load] decodes to [v] *)

(** The cache file and what writing to it does.  [open(path, 'w')] may be
    refused for a file that can be read (a file, or a directory, that may
    not be written).  [json.dump] may raise after the file has been opened:
    the file system fails (the device is full), or the encoder gives up on
    the document (an integer of more than 4300 digits, nesting deeper than
    the recursion limit allows).  The second is given per document. *)
Record world := {
  cache_file : file_state;
  writes : nat;        (* how many times the file has been opened for writing *)
  read_only : bool;    (* [open(path, 'w')] raises [PermissionError] *)
  dump_error : pyval -> option exn   (* what [json.dump] raises, if it does *)
}.

(** Every document can be dumped; the file takes every write. *)
Definition dumps (w : world) : Prop := forall data, dump_error w data = None.

Definition takes_writes (w : world) : Prop := read_only w = false /\ dumps w.

Definition io (A : Type) : Type := world -> result A * world.

Definition ioret {A} (a : A) : io A := fun w => (Ok a, w).

Definition lift {A} (c : result A) : io A := fun w => (c, w).

Definition iobind {A B} (c : io A) (k : A -> io B) : io B :=
  fun w =>
    match c w with
    | (Ok a, w') => k a w'
    | (Raise e, w') => (Raise e, w')
    end.

Notation "x <~ c ;; k" := (iobind c (fun x => k))
  (at level 100, c at next level, right associativity) : py_scope.

(** The text of a response, by what [json.loads] makes of it.  It raises
    [JSONDecodeError]; or it decodes the text to a value; or the text is JSON
    that the decoder gives up on with another exception: an integer of more
    than 4300 digits ([ValueError], of which [JSONDecodeError] is a
    subclass, not the other way round), nesting deeper than the interpreter's
    recursion limit ([RecursionError]). *)
Inductive text :=
| NotJson (raw : string)
| Json (v : pyval)
| Overlong (raw : string)
| TooDeep (raw : string).

(** What [requests.get] followed by [raise_for_status] does: it raises a
    [RequestException] (no connection, time-out, status that is not 2xx), or
    the response has a text. *)
Inductive reply :=
| RequestException (message : string)
| Response (t : text).

Definition network : Type := string -> reply.

Definition json_loads (t : text) : result pyval :=
  match t with
  | NotJson _ => Raise JSONDecodeError
  | Json v => Ok v
  | Overlong _ => Raise ValueError
  | TooDeep _ => Raise RecursionError
  end.

(** [try: c except json.JSONDecodeError: handler]. *)
Definition except_JSONDecodeError {A} (c : result A) (handler : result A)
  : result A :=
  match c with
  | Raise JSONDecodeError => handler
  | _ => c
  end.

(** ** Time *)

(** A naive [datetime]: microseconds on the local time line.  The clock is
    far enough from [datetime.min] for [now - timedelta(hours=72)] to
    exist. *)
Definition datetime : Type := Z.

Definition timedelta_hours (h : Z) : Z := h * 3600 * 1000000.

(** ** Strings *)

Fixpoint has_char (c : ascii) (chars : string) : bool :=
  match chars with
  | EmptyString => false
  | String c' r => Ascii.eqb c c' || has_char c r
  end.

(** [s.rstrip(chars)]. *)
Fixpoint rstrip (chars : string) (s : string) : string :=
  match s with
  | EmptyString => EmptyString
  | String c r =>
      match rstrip chars r with
      | EmptyString =>
          if has_char c chars then EmptyString else String c EmptyString
      | r' => String c r'
      end
  end.

(** [sep.join(l)]. *)
Fixpoint join (sep : string) (l : list string) : string :=
  match l with
  | [] => ""
  | [x] => x
  | x :: r => x +:+ sep +:+ join sep r
  end.

(** ** PolicyManager *)

Record PolicyManager := {
  policies : pyval;
  registry_response_data : pyval;
  policy_metrics : pyval
}.

Definition empty_cache : pyval := PDict [("cached_mcp", PList [])].

(** The discovery filters, the same literal in three methods. *)
Definition default_criteria : list (string * pyval) :=
  [("limit", PInt 3); ("q", PStr "recipe"); ("tags", PStr "nutrition");
   ("type", PStr "tool"); ("verified", PStr "true")].

(** [os.path.exists(CACHE_FILE)] *)
Definition path_exists (f : file_state) : bool :=
  match f with
  | Absent => false
  | _ => true
  end.

(** [_load_json] (l. 45-53): [open(path, 'r')], then [json.load]. *)
Definition _load_json (f : file_state) : result pyval :=
  match f with
  | Absent => Raise FileNotFoundError
  | Directory => Raise IsADirectoryError
  | Denied => Raise PermissionError
  | Undecodable => Raise UnicodeDecodeError
  | Malformed => Raise JSONDecodeError
  | Holds v => Ok v
  end.

(** [open(path, 'w')] on the cache file.  It raises and the file is as it
    was, or the file is there and empty. *)
Definition open_for_writing : io unit :=
  fun w =>
    match cache_file w with
    | Directory => (Raise IsADirectoryError, w)
    | Denied => (Raise PermissionError, w)
    | _ =>
        if read_only w then (Raise PermissionError, w)
        else (Ok tt, {| cache_file := Malformed;
                        writes := S (writes w);
                        read_only := read_only w;
                        dump_error := dump_error w |})
    end.

(** [json.dump(data, f, indent=4)] on the opened file, and the closing of
    the file.  When it raises, what the file holds is not a whole document.
    Otherwise what is written reads back as the same value: the data are
    values that came from JSON. *)
Definition json_dump (data : pyval) : io unit :=
  fun w =>
    match dump_error w data with
    | Some e => (Raise e, w)
    | None => (Ok tt, {| cache_file := Holds data;
                         writes := writes w;
                         read_only := read_only w;
                         dump_error := dump_error w |})
    end.

(** [_save_json] (l. 55-63): [with open(path, 'w') as f: json.dump(...)].
    The write is not atomic: the file is emptied before the document is
    written. *)
Definition _save_json (data : pyval) : io unit :=
  _ <~ open_for_writing ;;
  json_dump data.

(** [get_url_response] (l. 65-77).  The text returned for a failed request
    starts with the letter E, so it is not JSON. *)
Definition get_url_response (net : network) (url : string) : text :=
  match net url with
  | Response t => t
  | RequestException e => NotJson ("Error fetching the URL: " +:+ e)
  end.

Section Runtime.

(** The library calls whose results the program only passes on:
    [datetime.strptime(s, "%d.%m.%Y %H:%M:%S")] ([None] when it raises
    [ValueError]), [t.strftime("%d.%m.%Y %H:%M:%S")], and the text that an
    f-string puts for a value. *)
Variable strptime : string -> option datetime.
Variable strftime : datetime -> string.
Variable py_str : pyval -> string.

Definition py_strptime (v : pyval) : result datetime :=
  match v with
  | PStr s =>
      match strptime s with
      | Some t => Ok t
      | None => Raise ValueError
      end
  | _ => Raise TypeError
  end.

(** [build_url] (l. 79-89) *)
Definition build_url (base : string) (criteria : list (string * pyval))
  : string :=
  rstrip "?" base +:+ "?" +:+
  join "&" (map (fun kv => fst kv +:+ "=" +:+ py_str (snd kv)) criteria).

(** [_discover_registry] (l. 91-113).  [rstrip] is a method of strings. *)
Definition _discover_registry (policies : pyval) (net : network)
  : result (pyval * pyval) :=
  endpoint <- py_getitem policies "registry_discovery_end_point" ;;
  mcp_server_link <-
    match endpoint with
    | PStr base => Ok (build_url base default_criteria)
    | _ => Raise AttributeError
    end ;;
  let response := get_url_response net mcp_server_link in
  data <- except_JSONDecodeError (json_loads response) (Ok (PDict [])) ;;
  metrics <- py_getitem policies "qualifiers_metrics" ;;
  Ok (data, metrics).

(** [", ".join(v)]: the elements must be strings. *)
Definition joinable (v : pyval) : result unit :=
  l <- py_iter v ;;
  if forallb (fun x => match x with PStr _ => true | _ => false end) l
  then Ok tt else Raise TypeError.

Fixpoint show_metrics (ms : list pyval) : result unit :=
  match ms with
  | [] => Ok tt
  | metric :: r =>
      _ <- py_getitem metric "name" ;;
      _ <- py_getitem metric "value" ;;
      _ <- py_getitem metric "need" ;;
      show_metrics r
  end.

(** [_show_protocol_directory] (l. 115-150).  The console output is not
    modelled; the subscripts it evaluates are. *)
Definition _show_protocol_directory (p : pyval) : result unit :=
  _ <- py_getitem p "protocol_cluster" ;;
  _ <- py_getitem p "protocol_level" ;;
  _ <- py_getitem p "policy_cluster" ;;
  _ <- py_getitem p "mcp_registry" ;;
  _ <- py_getitem p "registry_discovery_end_point" ;;
  _ <- py_getitem p "cache_mcp_servers_policy" ;;
  tags <- py_getitem p "policy_tags" ;;
  _ <- joinable tags ;;
  metrics <- py_getitem p "qualifiers_metrics" ;;
  ms <- py_iter metrics ;;
  show_metrics ms.

(** [__init__] (l. 23-43), from the decoded policy document on.  The second
    request, of [_show_protocol_response], is only printed. *)
Definition PolicyManager_init (policy_doc : pyval) (net : network)
  : result PolicyManager :=
  _ <- _show_protocol_directory policy_doc ;;
  dm <- _discover_registry policy_doc net ;;
  Ok {| policies := policy_doc;
        registry_response_data := fst dm;
        policy_metrics := snd dm |}.

(** [{m['name']: m for m in policy_metrics}].  A later metric of the same
    name takes the place of the earlier one.  A name that is not a string is
    a key that no lookup below asks for; it is left out, unless it cannot be
    hashed. *)
Fixpoint metrics_by_name (ms : list pyval) (vp : list (string * pyval))
  : result (list (string * pyval)) :=
  match ms with
  | [] => Ok vp
  | m :: r =>
      name <- py_getitem m "name" ;;
      match name with
      | PStr s => metrics_by_name r (dict_set s m vp)
      | PList _ | PDict _ => Raise TypeError
      | _ => metrics_by_name r vp
      end
  end.

Definition policy_lookup (pm : PolicyManager)
  : result (list (string * pyval)) :=
  ms <- py_iter (policy_metrics pm) ;;
  metrics_by_name ms [].

(** [vp[name]['value']]. *)
Definition qualifier_value (vp : list (string * pyval)) (name : string)
  : result pyval :=
  m <- py_getitem (PDict vp) name ;;
  py_getitem m "value".

(** The condition that both [match_policy_and_get_url] and
    [_item_passes_policy] evaluate on an item: four tests joined by [and],
    each reading the item before the policy. *)
Definition meets_qualifiers (vp : list (string * pyval)) (item : pyval)
  : result bool :=
  py_and (a <- py_getitem item "verified" ;;
          q <- qualifier_value vp "verified" ;;
          Ok (py_eq a q))
 (py_and (a <- py_getitem item "provider" ;;
          q <- qualifier_value vp "provider" ;;
          py_in a q)
 (py_and (a <- py_getitem item "relevance_score" ;;
          q <- qualifier_value vp "relevance_score" ;;
          py_ge a q)
         (a <- py_getitem item "uptime" ;;
          q <- qualifier_value vp "uptime" ;;
          py_ge a q))).

(** The loop of [match_policy_and_get_url]. *)
Fixpoint first_match (vp : list (string * pyval)) (items : list pyval)
  : result pyval :=
  match items with
  | [] => Ok PNone
  | item :: r =>
      c <- meets_qualifiers vp item ;;
      if c then Ok item else first_match vp r
  end.

(** [match_policy_and_get_url] (l. 172-189) *)
Definition match_policy_and_get_url (pm : PolicyManager) : result pyval :=
  vp <- policy_lookup pm ;;
  data <- py_get (registry_response_data pm) "data" (PList []) ;;
  items <- py_iter data ;;
  first_match vp items.

(** [_item_passes_policy] (l. 191-204) *)
Definition _item_passes_policy (pm : PolicyManager) (item : pyval)
  : result bool :=
  vp <- policy_lookup pm ;;
  meets_qualifiers vp item.

(** [load_cache] (l. 206-217) *)
Definition load_cache : io pyval :=
  fun w =>
    if negb (path_exists (cache_file w)) then (Ok empty_cache, w)
    else (except_JSONDecodeError (_load_json (cache_file w)) (Ok empty_cache),
          w).

(** [save_cache] (l. 219-223) *)
Definition save_cache (cache : pyval) : io unit := _save_json cache.

(** [next((e for e in entries if e.get("data_item", {}).get("id") ==
    item["id"]), None)]. *)
Fixpoint find_existing (item : pyval) (entries : list pyval)
  : result (option pyval) :=
  match entries with
  | [] => Ok None
  | e :: r =>
      data_item <- py_get e "data_item" (PDict []) ;;
      i <- py_get data_item "id" PNone ;;
      j <- py_getitem item "id" ;;
      if py_eq i j then Ok (Some e) else find_existing item r
  end.

(** [l.index(x)]: the first position whose element is [x] or equals it. *)
Fixpoint list_index (x : pyval) (l : list pyval) : option nat :=
  match l with
  | [] => None
  | y :: r => if py_equiv y x then Some 0%nat else S <$> list_index x r
  end.

(** The dictionary [entry] of [update_cache]. *)
Definition new_entry (item criteria endpoint : pyval) (now : datetime)
  : pyval :=
  PDict [("mcp_endpoint", endpoint);
         ("met_protocol_criteria", PBool true);
         ("last_cached", PStr (strftime now));
         ("criteria", criteria);
         ("data_item", item)].

(** [cache["cached_mcp"][cache["cached_mcp"].index(existing)] = entry] *)
Definition replace_entry (cache existing entry : pyval) : result pyval :=
  cached <- py_getitem cache "cached_mcp" ;;
  match cache, cached with
  | PDict d, PList l =>
      match list_index existing l with
      | Some idx =>
          Ok (PDict (dict_set "cached_mcp" (PList (<[idx:=entry]> l)) d))
      | None => Raise ValueError
      end
  | _, PStr _ => Raise TypeError
  | _, _ => Raise AttributeError
  end.

(** [cache.setdefault("cached_mcp", []).append(entry)] *)
Definition append_entry (cache entry : pyval) : result pyval :=
  match cache with
  | PDict d =>
      match dict_lookup "cached_mcp" d with
      | Some (PList l) =>
          Ok (PDict (dict_set "cached_mcp" (PList (l ++ [entry])) d))
      | Some _ => Raise AttributeError
      | None => Ok (PDict (dict_set "cached_mcp" (PList [entry]) d))
      end
  | _ => Raise AttributeError
  end.

(** [update_cache] (l. 225-267).  [now] is what [datetime.now()] returns. *)
Definition update_cache (item criteria : pyval) (now : datetime) : io unit :=
  endpoint <~ lift (py_getitem item "url") ;;
  cache <~ load_cache ;;
  let cutoff := now - timedelta_hours 72 in
  entries <~ lift (cached <- py_get cache "cached_mcp" (PList []) ;;
                   py_iter cached) ;;
  existing <~ lift (find_existing item entries) ;;
  fresh <~ lift (match existing with
                 | Some e =>
                     if truthy e then
                       last_cached <- py_getitem e "last_cached" ;;
                       last <- py_strptime last_cached ;;
                       Ok (last >? cutoff)
                     else Ok false
                 | None => Ok false
                 end) ;;
  if fresh : bool then ioret tt
  else
    let entry := new_entry item criteria endpoint now in
    cache' <~ lift (match existing with
                    | Some e =>
                        if truthy e then replace_entry cache e entry
                        else append_entry cache entry
                    | None => append_entry cache entry
                    end) ;;
    save_cache cache'.

(** The loop of [load_cached_endpoint]. *)
Fixpoint first_flagged (entries : list pyval) : result pyval :=
  match entries with
  | [] => Ok PNone
  | e :: r =>
      flag <- py_get e "met_protocol_criteria" PNone ;;
      if truthy flag then py_getitem e "mcp_endpoint" else first_flagged r
  end.

(** [load_cached_endpoint] (l. 269-279) *)
Definition load_cached_endpoint : io pyval :=
  cache <~ load_cache ;;
  lift (cached <- py_get cache "cached_mcp" (PList []) ;;
        entries <- py_iter cached ;;
        first_flagged entries).

(** The loop of the cache-fallback phase.  The subscripts of the printed
    dictionary are evaluated before the [return]. *)
Fixpoint first_passing (pm : PolicyManager) (entries : list pyval)
  : result pyval :=
  match entries with
  | [] => Ok PNone
  | entry :: r =>
      item <- py_get entry "data_item" PNone ;;
      ok <- (if truthy item then _item_passes_policy pm item else Ok false) ;;
      if ok : bool then
        _ <- py_getitem item "name" ;;
        _ <- py_getitem entry "mcp_endpoint" ;;
        _ <- py_getitem item "relevance_score" ;;
        _ <- py_getitem item "uptime" ;;
        py_getitem entry "mcp_endpoint"
      else first_passing pm r
  end.

(** [get_verifiable_mcp_endpoint] (l. 281-343) *)
Definition get_verifiable_mcp_endpoint (pm : PolicyManager) (now : datetime)
  : io pyval :=
  let criteria := PDict default_criteria in
  live_item <~ lift (match_policy_and_get_url pm) ;;
  if truthy live_item then
    _ <~ lift (_ <- py_getitem live_item "name" ;;
               _ <- py_getitem live_item "url" ;;
               _ <- py_getitem live_item "relevance_score" ;;
               py_getitem live_item "uptime") ;;
    enabled <~ lift (py_get (policies pm) "cache_mcp_servers_policy" PNone) ;;
    _ <~ (if truthy enabled then update_cache live_item criteria now
          else ioret tt) ;;
    lift (py_getitem live_item "url")
  else
    cache <~ load_cache ;;
    lift (cached <- py_get cache "cached_mcp" (PList []) ;;
          entries <- py_iter cached ;;
          first_passing pm entries).

(** [PolicyManager()] and then [get_verifiable_mcp_endpoint()], the way
    [MCPClient.connect_to_sse_server] (enforce_nanda.py, l. 63-64) resolves
    the endpoint. *)
Definition resolve (policy_doc : pyval) (net : network) (now : datetime)
  : io pyval :=
  pm <~ lift (PolicyManager_init policy_doc net) ;;
  get_verifiable_mcp_endpoint pm now.

End Runtime.

(** ** A reference runtime

    An instance of the three library calls, to run the definitions on
    concrete inputs.  Time is counted from 1970-01-01 00:00:00; digits and
    white space are ASCII. *)
Module Reference.

Definition days_from_civil (y m d : Z) : Z :=
  let y' := if m <=? 2 then y - 1 else y in
  let era := y' / 400 in
  let yoe := y' - era * 400 in
  let doy := (153 * (if m >? 2 then m - 3 else m + 9) + 2) / 5 + d - 1 in
  let doe := yoe * 365 + yoe / 4 - yoe / 100 + doy in
  era * 146097 + doe - 719468.

Definition civil_from_days (z : Z) : Z * Z * Z :=
  let z := z + 719468 in
  let era := z / 146097 in
  let doe := z - era * 146097 in
  let yoe := (doe - doe / 1460 + doe / 36524 - doe / 146096) / 365 in
  let doy := doe - (365 * yoe + yoe / 4 - yoe / 100) in
  let mp := (5 * doy + 2) / 153 in
  let d := doy - (153 * mp + 2) / 5 + 1 in
  let m := if mp <? 10 then mp + 3 else mp - 9 in
  (if m <=? 2 then yoe + era * 400 + 1 else yoe + era * 400, m, d).

Definition is_leap (y : Z) : bool :=
  ((y mod 4 =? 0) && negb (y mod 100 =? 0)) || (y mod 400 =? 0).

Definition days_in_month (y m : Z) : Z :=
  if m =? 2 then (if is_leap y then 29 else 28)
  else if (m =? 4) || (m =? 6) || (m =? 9) || (m =? 11) then 30
  else 31.

Definition pad (width : nat) (n : Z) : string :=
  let s := pretty n in
  String.string_of_list_ascii
    (repeat "0"%char (width - String.length s)) +:+ s.

Definition strftime (t : datetime) : string :=
  let secs := t / 1000000 in
  let '(y, m, d) := civil_from_days (secs / 86400) in
  let sod := secs mod 86400 in
  pad 2 d +:+ "." +:+ pad 2 m +:+ "." +:+ pad 4 y +:+ " " +:+
  pad 2 (sod / 3600) +:+ ":" +:+ pad 2 (sod mod 3600 / 60) +:+ ":" +:+
  pad 2 (sod mod 60).

Definition digit (c : ascii) : option Z :=
  Z.of_nat <$> Ascii.is_nat c.

(** The ways to read one or two digits at the head of [s], two digits
    first, with what follows them. *)
Definition number (two one : Z -> bool) (s : string) : list (Z * string) :=
  match s with
  | String a r =>
      match digit a with
      | Some x =>
          (match r with
           | String b r' =>
               match digit b with
               | Some y => if two (10 * x + y) then [(10 * x + y, r')] else []
               | None => []
               end
           | EmptyString => []
           end) ++ (if one x then [(x, r)] else [])
      | None => []
      end
  | EmptyString => []
  end.

Definition literal (c : ascii) (s : string) : list string :=
  match s with
  | String a r => if Ascii.eqb a c then [r] else []
  | EmptyString => []
  end.

Definition year (s : string) : list (Z * string) :=
  match s with
  | String a (String b (String c (String d r))) =>
      match digit a, digit b, digit c, digit d with
      | Some w, Some x, Some y, Some z =>
          [(1000 * w + 100 * x + 10 * y + z, r)]
      | _, _, _, _ => []
      end
  | _ => []
  end.

(** One or more white-space characters, the longest run first. *)
Fixpoint spaces (s : string) : list string :=
  match s with
  | String a r => if Ascii.is_space a then spaces r ++ [r] else []
  | EmptyString => []
  end.

(** %d : 3[0-1] | [1-2]\d | 0[1-9] | [1-9] | space [1-9] *)
Definition day (s : string) : list (Z * string) :=
  number (fun n => (1 <=? n) && (n <=? 31)) (fun n => 1 <=? n) s ++
  match s with
  | String " " r => number (fun _ => false) (fun n => 1 <=? n) r
  | _ => []
  end.

Definition fields (s : string) : list (Z * Z * Z * Z * Z * Z * string) :=
  '(d, s) ← day s;
  s ← literal "." s;
  '(m, s) ← number (fun n => (1 <=? n) && (n <=? 12)) (fun n => 1 <=? n) s;
  s ← literal "." s;
  '(y, s) ← year s;
  s ← spaces s;
  '(H, s) ← number (fun n => n <=? 23) (fun _ => true) s;
  s ← literal ":" s;
  '(M, s) ← number (fun n => n <=? 59) (fun _ => true) s;
  s ← literal ":" s;
  '(sec, s) ← number (fun n => n <=? 61) (fun _ => true) s;
  [(d, m, y, H, M, sec, s)].

Definition strptime (s : string) : option datetime :=
  match fields s with
  | (d, m, y, H, M, sec, EmptyString) :: _ =>
      if (1 <=? y) && (d <=? days_in_month y m) && (sec <=? 59)
      then Some ((days_from_civil y m d * 86400 + H * 3600 + M * 60 + sec)
                 * 1000000)
      else None
  | _ => None
  end.

(** The text of a value in an f-string, for the values that the criteria of
    this program hold; nothing below depends on the other cases. *)
Definition py_str (v : pyval) : string :=
  match v with
  | PNone => "None"
  | PBool b => if b then "True" else "False"
  | PInt z => pretty z
  | PStr s => s
  | PFloat FNan => "nan"
  | PFloat (FInf negative) => if negative then "-inf" else "inf"
  | _ => ""
  end.

End Reference.

(** * The data model of the specification *)

Definition field (k : string) (v : pyval) : option pyval :=
  match v with
  | PDict d => dict_lookup k d
  | _ => None
  end.

Definition has (k : string) (p : pyval -> bool) (v : pyval) : bool :=
  match field k v with
  | Some x => p x
  | None => false
  end.

Definition is_str (v : pyval) : bool :=
  match v with PStr _ => true | _ => false end.

Definition is_bool (v : pyval) : bool :=
  match v with PBool _ => true | _ => false end.

Definition is_dict (v : pyval) : bool :=
  match v with PDict _ => true | _ => false end.

Definition is_number (v : pyval) : bool :=
  match v with PInt _ | PFloat _ => true | _ => false end.

Definition any_value (v : pyval) : bool := true.

(** The fields of an item that the qualifiers are compared with. *)
Definition comparable_item (item : pyval) : bool :=
  has "verified" any_value item && has "provider" is_str item &&
  has "relevance_score" is_number item && has "uptime" is_number item.

(** RegistryItem *)
Definition wf_item (item : pyval) : bool :=
  has "id" is_str item && has "name" is_str item && has "url" is_str item &&
  comparable_item item.

(** CacheEntry *)
Definition wf_entry (e : pyval) : bool :=
  has "mcp_endpoint" is_str e && has "met_protocol_criteria" is_bool e &&
  has "last_cached" is_str e && has "criteria" is_dict e &&
  has "data_item" wf_item e.

Definition is_entries (v : pyval) : bool :=
  match v with PList l => forallb wf_entry l | _ => false end.

(** Cache: [{"cached_mcp": [CacheEntry, ...]}] *)
Definition wf_cache (cache : pyval) : bool := has "cached_mcp" is_entries cache.

Definition entries_of (cache : pyval) : list pyval :=
  match field "cached_mcp" cache with
  | Some (PList l) => l
  | _ => []
  end.

(** Qualifier *)
Definition wf_qualifier (m : pyval) : bool :=
  has "name" is_str m && has "value" any_value m.

Definition named (name : string) (m : pyval) : bool :=
  match field "name" m with
  | Some (PStr s) => String.eqb s name
  | _ => false
  end.

(** [qualifier(name).value]: the value of the metric of that name, the last
    one if the policy document repeats the name. *)
Definition qualifier (metrics : pyval) (name : string) : option pyval :=
  match metrics with
  | PList ms => m ← last (List.filter (named name) ms); field "value" m
  | _ => None
  end.

Definition is_allow_list (v : pyval) : bool :=
  match v with PList l => forallb is_str l | PStr _ => true | _ => false end.

(** The qualifiers of a policy: a list of Qualifier that has the four
    required names, with an allow-list (or string) of providers and numeric
    thresholds. *)
Definition wf_metrics (metrics : pyval) : bool :=
  match metrics with
  | PList ms =>
      forallb wf_qualifier ms &&
      is_some (qualifier metrics "verified") &&
      from_option is_allow_list false (qualifier metrics "provider") &&
      from_option is_number false (qualifier metrics "relevance_score") &&
      from_option is_number false (qualifier metrics "uptime")
  | _ => false
  end.

Definition is_container (v : pyval) : bool :=
  match v with PList _ | PDict _ | PStr _ => true | _ => false end.

Definition is_numeric (v : pyval) : bool := is_some (as_number v).

(** Qualifier values with which the four tests can be made on any item that
    has the compared fields: a value for "verified", something to look the
    provider up in, numbers for the two thresholds. *)
Definition testable (metrics : pyval) : bool :=
  is_some (qualifier metrics "verified") &&
  from_option is_container false (qualifier metrics "provider") &&
  from_option is_numeric false (qualifier metrics "relevance_score") &&
  from_option is_numeric false (qualifier metrics "uptime").

(** The four tests of a qualifier set on an item.  A test that cannot be
    made (a missing field, values that do not compare) does not hold. *)
Definition test (op : pyval -> pyval -> result bool) (name : string)
    (metrics item : pyval) : bool :=
  match field name item, qualifier metrics name with
  | Some a, Some q =>
      match op a q with
      | Ok b => b
      | Raise _ => false
      end
  | _, _ => false
  end.

Definition verified_holds : pyval -> pyval -> bool :=
  test (fun a q => Ok (py_eq a q)) "verified".

Definition provider_holds : pyval -> pyval -> bool :=
  test py_in "provider".

Definition relevance_holds : pyval -> pyval -> bool :=
  test py_ge "relevance_score".

Definition uptime_holds : pyval -> pyval -> bool :=
  test py_ge "uptime".

Definition qualifies (metrics item : pyval) : bool :=
  verified_holds metrics item && provider_holds metrics item &&
  relevance_holds metrics item && uptime_holds metrics item.

(** The identity of an item and of a cache entry: [id], [data_item.id]. *)
Definition item_id (item : pyval) : option string :=
  match field "id" item with
  | Some (PStr s) => Some s
  | _ => None
  end.

Definition entry_id (e : pyval) : option string :=
  item ← field "data_item" e; item_id item.

Definition has_id (i : string) (e : pyval) : bool :=
  match entry_id e with
  | Some s => String.eqb s i
  | None => false
  end.

(** The cache invariant: at most one entry per item id. *)
Definition unique_ids (cache : pyval) : Prop :=
  NoDup (entry_id <$> entries_of cache).

Definition count_id (i : string) (cache : pyval) : nat :=
  length (List.filter (has_id i) (entries_of cache)).

(** One test of [meets_qualifiers]. *)
Definition clause (op : pyval -> pyval -> result bool) (name : string)
    (vp : list (string * pyval)) (item : pyval) : result bool :=
  a <- py_getitem item name ;;
  q <- qualifier_value vp name ;;
  op a q.


(** A cache entry whose item passes the current qualifiers; an entry with
    the stored flag set; the endpoint it records. *)
Definition entry_qualifies (metrics e : pyval) : bool :=
  match field "data_item" e with
  | Some item => qualifies metrics item
  | None => false
  end.

Definition flagged (e : pyval) : bool :=
  match field "met_protocol_criteria" e with
  | Some flag => truthy flag
  | None => false
  end.

Definition endpoint_of (e : pyval) : pyval :=
  from_option id PNone (field "mcp_endpoint" e).

(** ** What an upsert leaves in the cache *)

Definition last_cached_of (e : pyval) : string :=
  match field "last_cached" e with
  | Some (PStr s) => s
  | _ => ""
  end.

Definition url_of (item : pyval) : pyval :=
  from_option id PNone (field "url" item).

(** The cache with [l] as its list of entries. *)
Definition with_entries (cache : pyval) (l : list pyval) : pyval :=
  match cache with
  | PDict d => PDict (dict_set "cached_mcp" (PList l) d)
  | _ => cache
  end.

(** The world after the cache file has been rewritten with [cache]. *)
Definition written (w : world) (cache : pyval) : world :=
  {| cache_file := Holds cache;
     writes := S (writes w);
     read_only := read_only w;
     dump_error := dump_error w |}.

(** The world after the cache file has been opened for writing and the
    write has failed: the file holds no document. *)
Definition truncated (w : world) : world :=
  {| cache_file := Malformed;
     writes := S (writes w);
     read_only := read_only w;
     dump_error := dump_error w |}.

(** The first entry of an id, with its position. *)
Definition first_of_id (i : string) (entries : list pyval)
  : option (nat * pyval) :=
  list_find (fun e => has_id i e = true) entries.

(** A series of upserts, each at its own time.  After a call that raises,
    the next call starts from the world that the failed call left. *)
Fixpoint upserts (strptime : string -> option datetime)
    (strftime : datetime -> string)
    (calls : list (pyval * pyval * datetime)) (w : world) : world :=
  match calls with
  | [] => w
  | (item, criteria, now) :: r =>
      upserts strptime strftime r
        (snd (update_cache strptime strftime item criteria now w))
  end.

(** A well-formed call of [update_cache]: a RegistryItem and the criteria
    dictionary of the discovery. *)
Definition wf_call (c : pyval * pyval * datetime) : Prop :=
  wf_item c.1.1 = true /\ is_dict c.1.2 = true.

Definition call_id (c : pyval * pyval * datetime) : option string :=
  item_id c.1.1.

(** The cache file holds a well-formed cache with one entry per id. *)
Definition cache_ok (w : world) (cache : pyval) : Prop :=
  load_cache w = (Ok cache, w) /\ wf_cache cache = true /\ unique_ids cache.

(** ** The request URL as the specification words it *)

Fixpoint remove_char (c : ascii) (s : string) : string :=
  match s with
  | EmptyString => EmptyString
  | String a r =>
      if Ascii.eqb a c then remove_char c r else String a (remove_char c r)
  end.

Definition query (py_str : pyval -> string) (criteria : list (string * pyval))
  : string :=
  join "&" (map (fun kv => fst kv +:+ "=" +:+ py_str (snd kv)) criteria).

(** The base with any contained '?' stripped, a single '?', the pairs. *)
Definition url_any_mark_stripped (py_str : pyval -> string) (base : string)
    (criteria : list (string * pyval)) : string :=
  remove_char "?" base +:+ "?" +:+ query py_str criteria.

Fixpoint marks (n : nat) : string :=
  match n with
  | O => EmptyString
  | S m => String "?" (marks m)
  end.

Fixpoint ends_with (c : ascii) (s : string) : bool :=
  match s with
  | EmptyString => false
  | String a EmptyString => Ascii.eqb a c
  | String _ r => ends_with c r
  end.

(** ** Example data: the scenario of the specification

    The thresholds and scores are floats that are exact in binary. *)
Module Example.

Definition metric (name : string) (value : pyval) : pyval :=
  PDict [("name", PStr name); ("value", value); ("need", PStr "mandatory")].

Definition metrics : pyval :=
  PList [metric "verified" (PBool true);
         metric "provider" (PList [PStr "acme"]);
         metric "relevance_score" (PFloat (FFin (3 # 4)));
         metric "uptime" (PFloat (FFin (7 # 8)))].

Definition item (id provider : string) (relevance uptime : Q) : pyval :=
  PDict [("id", PStr id); ("name", PStr id);
         ("url", PStr ("https://" +:+ id +:+ ".example/mcp"));
         ("provider", PStr provider); ("verified", PBool true);
         ("relevance_score", PFloat (FFin relevance));
         ("uptime", PFloat (FFin uptime))].

Definition item_a : pyval := item "a" "acme" (7 # 8) (15 # 16).
Definition item_b : pyval := item "b" "other" (63 # 64) (63 # 64).
Definition item_c : pyval := item "c" "acme" (1 # 2) (63 # 64).

Definition policy_doc : pyval :=
  PDict [("protocol_cluster", PStr "AXONVERTEX");
         ("protocol_level", PStr "L1");
         ("policy_cluster", PStr "nutrition");
         ("mcp_registry", PStr "https://registry.example");
         ("registry_discovery_end_point",
          PStr "https://registry.example/discover?");
         ("cache_mcp_servers_policy", PBool true);
         ("policy_tags", PList [PStr "nutrition"]);
         ("qualifiers_metrics", metrics)].

(** A manager whose discovery returned [data]. *)
Definition manager (data : pyval) : PolicyManager :=
  {| policies := policy_doc;
     registry_response_data := data;
     policy_metrics := metrics |}.

Definition live : PolicyManager :=
  manager (PDict [("data", PList [item_b; item_a])]).

Definition offline : PolicyManager := manager (PDict []).

Definition entry (it : pyval) (last_cached : string) : pyval :=
  PDict [("mcp_endpoint", url_of it);
         ("met_protocol_criteria", PBool true);
         ("last_cached", PStr last_cached);
         ("criteria", PDict default_criteria);
         ("data_item", it)].

Definition holding (entries : list pyval) : world :=
  {| cache_file := Holds (PDict [("cached_mcp", PList entries)]);
     writes := 0;
     read_only := false;
     dump_error := fun _ => None |}.

(** 2026-11-03 10:01:00 and a quarter of a second. *)
Definition now : datetime := 1793700060250000.

Definition two_cached : world :=
  holding [entry item_c "02.11.2026 08:00:00";
           entry item_a "03.11.2026 09:00:00"].

Definition stale_trust : world :=
  holding [entry item_c "02.11.2026 08:00:00"].

Definition one_cached : world :=
  holding [entry item_a "03.11.2026 09:00:00"].

Definition unreadable_stamp : world :=
  holding [entry item_a "yesterday"].

Definition nothing_cached : world :=
  {| cache_file := Absent;
     writes := 0;
     read_only := false;
     dump_error := fun _ => None |}.

Definition answering (body : pyval) : network :=
  fun _ => Response (Json body).

Definition unreachable : network :=
  fun _ => RequestException "connection refused".

Definition three_calls : list (pyval * pyval * datetime) :=
  [(item_a, PDict default_criteria, now);
   (item_a, PDict default_criteria, now + timedelta_hours 1);
   (item_a, PDict default_criteria, now + timedelta_hours 100)].

End Example.

(** The replies of the registry after which the live phase has no
    candidates: a transport failure, a body that is not JSON, a JSON object
    without a "data" key. *)
Definition degrading_reply (r : reply) : bool :=
  match r with
  | RequestException _ => true
  | Response (NotJson _) => true
  | Response (Json (PDict d)) => negb (is_some (dict_lookup "data" d))
  | Response (Json _) => false
  | Response (Overlong _) => false
  | Response (TooDeep _) => false
  end.

(** The replies whose body the JSON decoder gives up on, with an exception
    other than [JSONDecodeError]. *)
Definition decoder_gives_up (r : reply) : bool :=
  match r with
  | Response (Overlong _) | Response (TooDeep _) => true
  | _ => false
  end.

(** ** The caller of the resolution

    [MCPClient.connect_to_sse_server] (enforce_nanda.py, l. 52-113), up to
    the point where the SSE stream is opened. *)

Definition lower_char (c : ascii) : ascii :=
  let n := nat_of_ascii c in
  if (65 <=? n)%nat && (n <=? 90)%nat then ascii_of_nat (n + 32) else c.

(** [s.lower()], on the letters of ASCII.  Python also changes letters
    outside ASCII, to characters outside ASCII but for U+0130 and U+212A,
    which give [i] and [k]; the prefixes tested below have none of these
    characters, so the test is the one of the source. *)
Fixpoint lower (s : string) : string :=
  match s with
  | EmptyString => EmptyString
  | String c r => String (lower_char c) (lower r)
  end.

(** [s.startswith((p1, p2, ...))] *)
Definition startswith (s : string) (prefixes : list string) : bool :=
  existsb (fun p => is_prefix p s) prefixes.

(** What the method does with the endpoint: it returns without a
    connection, it rejects the URL, or it opens the stream at the URL. *)
Inductive connection :=
| NoEndpoint
| InvalidURL (server_url : string)
| Connect (server_url : string).

Definition sse_target (endpoint : pyval) : result connection :=
  if truthy endpoint then
    match endpoint with
    | PStr s =>
        let server_url := rstrip "/" s +:+ "/sse" in
        if negb (startswith (lower server_url) ["http://"; "https://"])
        then Ok (InvalidURL server_url)
        else Ok (Connect server_url)
    | _ => Raise AttributeError
    end
  else Ok NoEndpoint.

Definition connect_to_sse_server
    (strptime : string -> option datetime) (strftime : datetime -> string)
    (py_str : pyval -> string)
    (policy_doc : pyval) (net : network) (now : datetime) : io connection :=
  endpoint <~ resolve strptime strftime py_str policy_doc net now ;;
  lift (sse_target endpoint).

(** ** Runs and counts of a character *)

(** [n] times the character [c]. *)
Fixpoint run (c : ascii) (n : nat) : string :=
  match n with
  | O => EmptyString
  | S m => String c (run c m)
  end.

Fixpoint count_char (c : ascii) (s : string) : nat :=
  match s with
  | EmptyString => 0
  | String a r => (if Ascii.eqb a c then 1 else 0) + count_char c r
  end.

(** ** Entries and policy documents as the code makes and reads them *)


(** The keys of the policy document that the constructor reads. *)
Definition policy_keys : list string :=
  ["protocol_cluster"; "protocol_level"; "policy_cluster"; "mcp_registry";
   "registry_discovery_end_point"; "cache_mcp_servers_policy"; "policy_tags";
   "qualifiers_metrics"].

(** A metric that can be shown. *)
Definition shown_metric (m : pyval) : bool :=
  is_some (field "name" m) && is_some (field "value" m) &&
  is_some (field "need" m).

(** ** Further example data *)
Module Cases.

(** The policy of the example with caching disabled. *)
Definition no_caching : PolicyManager :=
  {| policies :=
       PDict [("cache_mcp_servers_policy", PBool false)];
     registry_response_data :=
       PDict [("data", PList [Example.item_b; Example.item_a])];
     policy_metrics := Example.metrics |}.

(** A cache file that is not text. *)
Definition unreadable : world :=
  {| cache_file := Undecodable;
     writes := 0;
     read_only := false;
     dump_error := fun _ => None |}.



(** Items that lack a field: the name, the id, the "verified" flag. *)
Definition nameless : pyval :=
  PDict [("id", PStr "n"); ("url", PStr "https://n.example/mcp");
         ("provider", PStr "acme"); ("verified", PBool true);
         ("relevance_score", PFloat (FFin (7 # 8)));
         ("uptime", PFloat (FFin (15 # 16)))].

Definition without_id : pyval :=
  PDict [("name", PStr "x"); ("url", PStr "https://x.example/mcp")].

Definition without_verified : pyval :=
  PDict [("id", PStr "v"); ("name", PStr "v");
         ("url", PStr "https://v.example/mcp")].

Definition unverified : pyval := PDict [("verified", PBool false)].

(** A policy without the "uptime" metric, and one that gives the relevance
    threshold twice. *)
Definition three_metrics : list pyval :=
  [Example.metric "verified" (PBool true);
   Example.metric "provider" (PList [PStr "acme"]);
   Example.metric "relevance_score" (PFloat (FFin (3 # 4)))].

Definition no_uptime (items : list pyval) : PolicyManager :=
  {| policies := Example.policy_doc;
     registry_response_data := PDict [("data", PList items)];
     policy_metrics := PList three_metrics |}.

Definition relevance_twice : PolicyManager :=
  {| policies := Example.policy_doc;
     registry_response_data := PDict [("data", PList [Example.item_a])];
     policy_metrics :=
       PList ([Example.metric "verified" (PBool true)] ++
              Example.metric "relevance_score" (PFloat (FFin (1 # 4))) ::
              [Example.metric "provider" (PList [PStr "acme"]);
               Example.metric "relevance_score" (PFloat (FFin (3 # 4)));
               Example.metric "uptime" (PFloat (FFin (7 # 8)))]) |}.

Definition relevance_once : PolicyManager :=
  {| policies := Example.policy_doc;
     registry_response_data := PDict [("data", PList [Example.item_a])];
     policy_metrics :=
       PList ([Example.metric "verified" (PBool true)] ++
              [Example.metric "provider" (PList [PStr "acme"]);
               Example.metric "relevance_score" (PFloat (FFin (3 # 4)));
               Example.metric "uptime" (PFloat (FFin (7 # 8)))]) |}.

(** A registry that answers with a page that is not JSON. *)
Definition garbled : network := fun _ => Response (NotJson "<html>").

(** A registry that answers with an integer of five thousand digits. *)
Definition overlong : network :=
  fun _ => Response (Overlong (String.string_of_list_ascii (repeat "7"%char 5000))).

(** The document in the file of [Example.two_cached]. *)
Definition two_entries : pyval :=
  PDict [("cached_mcp",
          PList [Example.entry Example.item_c "02.11.2026 08:00:00";
                 Example.entry Example.item_a "03.11.2026 09:00:00"])].

End Cases.

(** * Reasoning about results *)

Lemma bind_Ok {A B} (c : result A) (k : A -> result B) b :
  bind c k = Ok b <-> exists a, c = Ok a /\ k a = Ok b.
Proof.
  destruct c as [a|e]; simpl; split.
  - intros H. exists a. auto.
  - intros (a' & Ha & Hk). congruence.
  - discriminate.
  - intros (a' & Ha & _). discriminate.
Qed.

Lemma py_and_Ok a b r :
  py_and a b = Ok r <->
  (a = Ok false /\ r = false) \/ (a = Ok true /\ b = Ok r).
Proof.
  unfold py_and. destruct a as [[|]|e]; simpl; split; intros H.
  - right. auto.
  - destruct H as [[H _]|[_ H]]; congruence.
  - left. split; congruence.
  - destruct H as [[_ H]|[H _]]; congruence.
  - discriminate.
  - destruct H as [[H _]|[H _]]; discriminate.
Qed.

(** * Dictionaries *)

Lemma dict_lookup_set_eq k v d : dict_lookup k (dict_set k v d) = Some v.
Proof.
  induction d as [|[k' v'] r IH]; simpl.
  - by rewrite String.eqb_refl.
  - destruct (String.eqb k k') eqn:E; simpl; rewrite E; auto.
Qed.

Lemma dict_lookup_set_ne k k' v d :
  k <> k' -> dict_lookup k' (dict_set k v d) = dict_lookup k' d.
Proof.
  intros Hne. induction d as [|[k0 v0] r IH]; simpl.
  - destruct (String.eqb k' k) eqn:E; [|done].
    apply String.eqb_eq in E. congruence.
  - destruct (String.eqb k k0) eqn:E; simpl.
    + apply String.eqb_eq in E. subst k0.
      destruct (String.eqb k' k) eqn:E'; [|done].
      apply String.eqb_eq in E'. congruence.
    + by rewrite IH.
Qed.

Lemma dict_lookup_app_fresh k v p r :
  mem_string k (map fst p) = false ->
  dict_lookup k (p ++ (k, v) :: r) = Some v.
Proof.
  induction p as [|[k' v'] p IH]; simpl.
  - by rewrite String.eqb_refl.
  - intros H. apply orb_false_elim in H as [H1 H2].
    rewrite H1. auto.
Qed.

(** * Equality of values is reflexive *)

Lemma float_same_refl f : float_same f f = true.
Proof.
  destruct f as [|n|q]; simpl; [done| by destruct n |].
  apply Qeq_bool_iff. reflexivity.
Qed.

Lemma all2_refl f l : Forall (fun x => f x x = true) l -> all2 f l l = true.
Proof. induction 1; simpl; [done|]. by apply andb_true_intro. Qed.

Lemma keys_bound_refl_aux p d :
  forallb (fun kv => is_some (dict_lookup (fst kv) (p ++ d))) d = true.
Proof.
  revert p. induction d as [|[k v] r IH]; intros p; simpl; [done|].
  apply andb_true_intro. split.
  - clear IH. induction p as [|[k' v'] p IHp]; simpl.
    + by rewrite String.eqb_refl.
    + by destruct (String.eqb k k').
  - specialize (IH (p ++ [(k, v)])). by rewrite <- app_assoc in IH.
Qed.

Lemma mem_string_app k l1 l2 :
  mem_string k (l1 ++ l2) = mem_string k l1 || mem_string k l2.
Proof. unfold mem_string. apply existsb_app. Qed.

Lemma bindings_match_refl_aux f seen p d :
  (forall k, mem_string k seen = mem_string k (map fst p)) ->
  Forall (fun kv => f (snd kv) (snd kv) = true) d ->
  bindings_match f (p ++ d) seen d = true.
Proof.
  intros Hseen Hd. revert seen p Hseen.
  induction Hd as [|[k v] r Hkv Hr IH]; intros seen p Hseen; simpl; [done|].
  apply andb_true_intro. split.
  - destruct (mem_string k seen) eqn:E; [done|].
    rewrite dict_lookup_app_fresh; [done|]. by rewrite <- Hseen.
  - specialize (IH (k :: seen) (p ++ [(k, v)])).
    rewrite <- app_assoc in IH. apply IH.
    intros k0. rewrite map_app, mem_string_app. simpl.
    rewrite <- Hseen. unfold mem_string at 1. simpl.
    rewrite orb_false_r. apply orb_comm.
Qed.

Lemma py_equiv_refl v : py_equiv v v = true.
Proof.
  induction v as [ | b | z | f | s | l IH | d IH ] using pyval_ind; simpl.
  - done.
  - apply Qeq_bool_iff. reflexivity.
  - apply Qeq_bool_iff. reflexivity.
  - apply float_same_refl.
  - apply String.eqb_refl.
  - by apply all2_refl.
  - apply andb_true_intro. split.
    + apply (keys_bound_refl_aux []).
    + by apply (bindings_match_refl_aux py_equiv [] []).
Qed.

(** * The policy lookup *)

Lemma metrics_by_name_lookup ms : forall acc vp name,
  metrics_by_name ms acc = Ok vp ->
  dict_lookup name vp =
    match last (List.filter (named name) ms) with
    | Some m => Some m
    | None => dict_lookup name acc
    end.
Proof.
  induction ms as [|m r IH]; intros acc vp name H; simpl in H.
  - by inversion H.
  - apply bind_Ok in H as (n & Hn & H).
    destruct m as [ | | | | | |d]; try discriminate.
    simpl in Hn. destruct (dict_lookup "name" d) as [n'|] eqn:En; [|done].
    inversion Hn; subst n'; clear Hn.
    simpl. unfold named at 1. simpl. rewrite En.
    destruct n as [ | | | |s| | ]; try discriminate;
      try (by apply IH).
    rewrite (IH _ _ name H).
    destruct (String.eqb s name) eqn:E.
    + apply String.eqb_eq in E. subst s. rewrite last_cons.
      destruct (last _); [done|]. apply dict_lookup_set_eq.
    + destruct (last _); [done|]. apply dict_lookup_set_ne.
      intros ->. by rewrite String.eqb_refl in E.
Qed.

Lemma metrics_by_name_total ms : forall acc,
  forallb wf_qualifier ms = true -> exists vp, metrics_by_name ms acc = Ok vp.
Proof.
  induction ms as [|m r IH]; intros acc H; simpl in *.
  - eauto.
  - apply andb_prop in H as [Hm Hr].
    unfold wf_qualifier in Hm. apply andb_prop in Hm as [Hm _].
    unfold has, field in Hm. destruct m as [ | | | | | |d]; try discriminate.
    simpl. destruct (dict_lookup "name" d) as [[ | | | |s| | ]|]; try discriminate.
    simpl. by apply IH.
Qed.

Lemma qualifier_value_spec pm vp name q :
  policy_lookup pm = Ok vp ->
  qualifier_value vp name = Ok q <-> qualifier (policy_metrics pm) name = Some q.
Proof.
  unfold policy_lookup. intros H. apply bind_Ok in H as (ms & Hms & H).
  pose proof (metrics_by_name_lookup ms [] vp name H) as L. simpl in L.
  assert (Hq : qualifier (policy_metrics pm) name =
               (m ← last (List.filter (named name) ms); field "value" m)).
  { destruct (policy_metrics pm) as [ | | | |s|l|d]; try discriminate.
    - simpl in Hms. inversion Hms; subst ms. clear Hms. simpl.
      destruct s as [|c s]; [done|]. simpl in H. discriminate.
    - simpl in Hms. by inversion Hms.
    - simpl in Hms. inversion Hms; subst ms. clear Hms. simpl.
      destruct d as [|kv d]; [done|]. simpl in H. discriminate. }
  rewrite Hq. unfold qualifier_value. simpl. rewrite L.
  destruct (last (List.filter (named name) ms)) as [m|]; simpl.
  - unfold py_getitem, field. destruct m; try (split; discriminate).
    destruct (dict_lookup "value" d); split; congruence.
  - split; discriminate.
Qed.

Lemma policy_lookup_total pm :
  wf_metrics (policy_metrics pm) = true -> exists vp, policy_lookup pm = Ok vp.
Proof.
  unfold wf_metrics, policy_lookup.
  destruct (policy_metrics pm) as [ | | | | |ms| ]; try discriminate.
  intros H. repeat (apply andb_prop in H as [H _]). simpl.
  by apply metrics_by_name_total.
Qed.

(** * The qualifier tests *)

Lemma py_getitem_field o k v : py_getitem o k = Ok v <-> field k o = Some v.
Proof.
  unfold py_getitem, field. destruct o; try (split; discriminate).
  destruct (dict_lookup k d); split; congruence.
Qed.

Lemma clause_sound op name pm vp item b :
  policy_lookup pm = Ok vp ->
  clause op name vp item = Ok b ->
  test op name (policy_metrics pm) item = b.
Proof.
  intros Hvp H. unfold clause in H.
  apply bind_Ok in H as (a & Ha & H). apply bind_Ok in H as (q & Hq & H).
  apply py_getitem_field in Ha. apply (qualifier_value_spec pm) in Hq; [|done].
  unfold test. by rewrite Ha, Hq, H.
Qed.

Lemma clause_total op name (pa pq : pyval -> bool) pm vp item :
  policy_lookup pm = Ok vp ->
  has name pa item = true ->
  from_option pq false (qualifier (policy_metrics pm) name) = true ->
  (forall a q, pa a = true -> pq q = true -> exists b, op a q = Ok b) ->
  exists b, clause op name vp item = Ok b.
Proof.
  intros Hvp Ha Hq Hop. unfold has in Ha.
  destruct (field name item) as [a|] eqn:Ea; [|done].
  destruct (qualifier (policy_metrics pm) name) as [q|] eqn:Eq; [|done].
  simpl in Hq. destruct (Hop a q Ha Hq) as [b Hb]. exists b.
  apply py_getitem_field in Ea. apply (qualifier_value_spec pm vp) in Eq; [|done].
  unfold clause. by rewrite Ea, Eq.
Qed.

(** What the four tests say on values of the data model. *)

Lemma verified_holds_bool metrics item a q :
  field "verified" item = Some (PBool a) ->
  qualifier metrics "verified" = Some (PBool q) ->
  verified_holds metrics item = Bool.eqb a q.
Proof.
  intros Ha Hq. unfold verified_holds, test. rewrite Ha, Hq.
  by destruct a, q.
Qed.

Lemma provider_holds_allow_list metrics item p l :
  field "provider" item = Some (PStr p) ->
  qualifier metrics "provider" = Some (PList l) ->
  forallb is_str l = true ->
  provider_holds metrics item = true <-> PStr p ∈ l.
Proof.
  intros Ha Hq Hl. unfold provider_holds, test. rewrite Ha, Hq. simpl.
  rewrite existsb_exists. split.
  - intros (x & Hx & Heq). apply list_elem_of_In.
    rewrite forallb_forall in Hl. specialize (Hl x Hx).
    destruct x; try discriminate. simpl in Heq.
    apply String.eqb_eq in Heq. by subst.
  - intros Hin. exists (PStr p). split; [by apply list_elem_of_In|].
    simpl. apply String.eqb_refl.
Qed.

Lemma threshold_holds_floats name metrics item a q :
  field name item = Some (PFloat (FFin a)) ->
  qualifier metrics name = Some (PFloat (FFin q)) ->
  test py_ge name metrics item = true <-> (q <= a)%Q.
Proof.
  intros Ha Hq. unfold test. rewrite Ha, Hq. simpl. apply Qle_bool_iff.
Qed.

Lemma meets_qualifiers_clauses vp item :
  meets_qualifiers vp item =
  py_and (clause (fun a q => Ok (py_eq a q)) "verified" vp item)
 (py_and (clause py_in "provider" vp item)
 (py_and (clause py_ge "relevance_score" vp item)
         (clause py_ge "uptime" vp item))).
Proof. reflexivity. Qed.

Lemma meets_qualifiers_sound pm vp item b :
  policy_lookup pm = Ok vp ->
  meets_qualifiers vp item = Ok b ->
  qualifies (policy_metrics pm) item = b.
Proof.
  intros Hvp H. rewrite meets_qualifiers_clauses in H. unfold qualifies.
  unfold verified_holds, provider_holds, relevance_holds, uptime_holds.
  apply py_and_Ok in H as [[H ->]|[H1 H]].
  { by rewrite (clause_sound _ _ pm vp item false Hvp H). }
  rewrite (clause_sound _ _ pm vp item true Hvp H1). simpl.
  apply py_and_Ok in H as [[H ->]|[H2 H]].
  { by rewrite (clause_sound _ _ pm vp item false Hvp H). }
  rewrite (clause_sound _ _ pm vp item true Hvp H2). simpl.
  apply py_and_Ok in H as [[H ->]|[H3 H]].
  { by rewrite (clause_sound _ _ pm vp item false Hvp H). }
  rewrite (clause_sound _ _ pm vp item true Hvp H3). simpl.
  apply (clause_sound _ _ pm vp item b Hvp H).
Qed.

Lemma py_and_total a b :
  (exists x, a = Ok x) -> (exists y, b = Ok y) -> exists r, py_and a b = Ok r.
Proof. intros [[|] ->] [y ->]; simpl; eauto. Qed.

Lemma py_in_container a q :
  is_str a = true -> is_container q = true -> exists b, py_in a q = Ok b.
Proof.
  destruct a; try discriminate. destruct q; try discriminate; simpl; eauto.
Qed.

Lemma py_ge_numeric a q :
  is_number a = true -> is_numeric q = true -> exists b, py_ge a q = Ok b.
Proof.
  destruct a; try discriminate; destruct q; try discriminate; simpl; eauto.
Qed.

Lemma comparable_item_fields item :
  comparable_item item = true ->
  has "verified" any_value item = true /\
  has "provider" is_str item = true /\
  has "relevance_score" is_number item = true /\
  has "uptime" is_number item = true.
Proof.
  unfold comparable_item. intros H.
  repeat (apply andb_prop in H as [H ?]). auto.
Qed.

Lemma wf_item_fields item :
  wf_item item = true ->
  has "id" is_str item = true /\ has "name" is_str item = true /\
  has "url" is_str item = true /\ comparable_item item = true.
Proof.
  unfold wf_item. intros H.
  repeat (apply andb_prop in H as [H ?]). auto.
Qed.

Lemma wf_item_comparable item :
  wf_item item = true -> comparable_item item = true.
Proof. intros H. by destruct (wf_item_fields item H) as (_ & _ & _ & ?). Qed.

Lemma testable_fields metrics :
  testable metrics = true ->
  is_some (qualifier metrics "verified") = true /\
  from_option is_container false (qualifier metrics "provider") = true /\
  from_option is_numeric false (qualifier metrics "relevance_score") = true /\
  from_option is_numeric false (qualifier metrics "uptime") = true.
Proof.
  unfold testable. intros H. repeat (apply andb_prop in H as [H ?]). auto.
Qed.

Lemma wf_metrics_testable metrics :
  wf_metrics metrics = true -> testable metrics = true.
Proof.
  assert (A : forall o, from_option is_allow_list false o = true ->
                       from_option is_container false o = true).
  { intros [[]|]; try discriminate; reflexivity. }
  assert (B : forall o, from_option is_number false o = true ->
                       from_option is_numeric false o = true).
  { intros [[]|]; try discriminate; reflexivity. }
  unfold wf_metrics.
  destruct metrics as [ | | | | |ms| ]; try discriminate.
  intros H. apply andb_prop in H as [H Hup]. apply andb_prop in H as [H Hrel].
  apply andb_prop in H as [H Hprov]. apply andb_prop in H as [_ Hver].
  unfold testable. by rewrite Hver, (A _ Hprov), (B _ Hrel), (B _ Hup).
Qed.

(** An item that passes shows that the qualifier values can be tested. *)
Lemma qualifies_testable metrics item :
  comparable_item item = true ->
  qualifies metrics item = true -> testable metrics = true.
Proof.
  intros Hc Hq.
  destruct (comparable_item_fields item Hc) as (_ & Iprov & Irel & Iup).
  unfold qualifies in Hq.
  apply andb_prop in Hq as [Hq Hup]. apply andb_prop in Hq as [Hq Hrel].
  apply andb_prop in Hq as [Hver Hprov].
  unfold verified_holds, provider_holds, relevance_holds, uptime_holds, test
    in *.
  unfold has in *.
  assert (T1 : is_some (qualifier metrics "verified") = true).
  { destruct (field "verified" item); [|discriminate].
    by destruct (qualifier metrics "verified"). }
  assert (T2 : from_option is_container false (qualifier metrics "provider")
               = true).
  { destruct (field "provider" item) as [a|]; [|discriminate].
    destruct (qualifier metrics "provider") as [q|]; [|discriminate].
    destruct a; try discriminate. by destruct q. }
  assert (T3 : from_option is_numeric false
                 (qualifier metrics "relevance_score") = true).
  { destruct (field "relevance_score" item) as [a|]; [|discriminate].
    destruct (qualifier metrics "relevance_score") as [q|]; [|discriminate].
    destruct a; try discriminate; by destruct q. }
  assert (T4 : from_option is_numeric false (qualifier metrics "uptime")
               = true).
  { destruct (field "uptime" item) as [a|]; [|discriminate].
    destruct (qualifier metrics "uptime") as [q|]; [|discriminate].
    destruct a; try discriminate; by destruct q. }
  unfold testable. by rewrite T1, T2, T3, T4.
Qed.

Lemma meets_qualifiers_total pm vp item :
  policy_lookup pm = Ok vp ->
  testable (policy_metrics pm) = true ->
  comparable_item item = true ->
  exists b, meets_qualifiers vp item = Ok b.
Proof.
  intros Hvp Hm Hi. rewrite meets_qualifiers_clauses.
  destruct (testable_fields _ Hm) as (Hver & Hprov & Hrel & Hup).
  destruct (comparable_item_fields item Hi) as (Iver & Iprov & Irel & Iup).
  repeat apply py_and_total.
  - apply (clause_total _ _ any_value any_value pm); eauto.
  - apply (clause_total _ _ is_str is_container pm);
      auto using py_in_container.
  - apply (clause_total _ _ is_number is_numeric pm);
      auto using py_ge_numeric.
  - apply (clause_total _ _ is_number is_numeric pm);
      auto using py_ge_numeric.
Qed.

Lemma meets_qualifiers_testable pm vp item :
  policy_lookup pm = Ok vp ->
  testable (policy_metrics pm) = true ->
  comparable_item item = true ->
  meets_qualifiers vp item = Ok (qualifies (policy_metrics pm) item).
Proof.
  intros Hvp Hm Hi.
  destruct (meets_qualifiers_total pm vp item) as [b Hb]; auto.
  by rewrite Hb, (meets_qualifiers_sound pm vp item b).
Qed.

Lemma meets_qualifiers_wf pm vp item :
  policy_lookup pm = Ok vp ->
  wf_metrics (policy_metrics pm) = true ->
  comparable_item item = true ->
  meets_qualifiers vp item = Ok (qualifies (policy_metrics pm) item).
Proof.
  intros Hvp Hm Hi. apply meets_qualifiers_testable; auto.
  by apply wf_metrics_testable.
Qed.

Lemma item_passes_policy_testable pm vp item :
  policy_lookup pm = Ok vp ->
  testable (policy_metrics pm) = true ->
  comparable_item item = true ->
  _item_passes_policy pm item = Ok (qualifies (policy_metrics pm) item).
Proof.
  intros Hvp Hm Hi. unfold _item_passes_policy. rewrite Hvp. simpl.
  by apply meets_qualifiers_testable.
Qed.

Lemma item_passes_policy_sound pm item b :
  _item_passes_policy pm item = Ok b ->
  qualifies (policy_metrics pm) item = b.
Proof.
  unfold _item_passes_policy. intros H. apply bind_Ok in H as (vp & Hvp & H).
  by apply (meets_qualifiers_sound pm vp).
Qed.

(** * First match *)

Lemma find_first {A} (p : A -> bool) (l : list A) i x :
  l !! i = Some x -> p x = true ->
  (forall j y, (j < i)%nat -> l !! j = Some y -> p y = false) ->
  List.find p l = Some x.
Proof.
  revert i. induction l as [|a l IH]; intros i Hi Hx Hbefore; [done|].
  destruct i as [|i]; simpl in *.
  - inversion Hi; subst a. by rewrite Hx.
  - rewrite (Hbefore 0%nat a); [|lia|done].
    apply (IH i); auto. intros j y Hj Hy. apply (Hbefore (S j)); [lia|done].
Qed.

Lemma find_nothing {A} (p : A -> bool) (l : list A) :
  (forall x, x ∈ l -> p x = false) -> List.find p l = None.
Proof.
  induction l as [|a l IH]; intros H; [done|]. simpl.
  rewrite (H a); [|by left]. apply IH. intros x Hx. apply H. by right.
Qed.

Lemma first_match_wf pm vp items :
  policy_lookup pm = Ok vp ->
  wf_metrics (policy_metrics pm) = true ->
  forallb comparable_item items = true ->
  first_match vp items =
  Ok (from_option id PNone (List.find (qualifies (policy_metrics pm)) items)).
Proof.
  intros Hvp Hm. induction items as [|item r IH]; intros Hw; [done|].
  simpl in Hw. apply andb_prop in Hw as [Hi Hr]. simpl.
  rewrite (meets_qualifiers_wf pm vp item Hvp Hm Hi). simpl.
  destruct (qualifies (policy_metrics pm) item); [done|]. by apply IH.
Qed.

(** * Resolution: the live phase *)

Lemma match_policy_wf pm items :
  wf_metrics (policy_metrics pm) = true ->
  py_get (registry_response_data pm) "data" (PList []) = Ok (PList items) ->
  forallb comparable_item items = true ->
  match_policy_and_get_url pm =
  Ok (from_option id PNone (List.find (qualifies (policy_metrics pm)) items)).
Proof.
  intros Hm Hd Hi. destruct (policy_lookup_total pm Hm) as [vp Hvp].
  unfold match_policy_and_get_url. rewrite Hvp, Hd. simpl.
  by apply first_match_wf.
Qed.

Lemma comparable_item_not_None item :
  comparable_item item = true -> item <> PNone.
Proof. by intros H ->. Qed.

Lemma forallb_elem_of {A} (p : A -> bool) (l : list A) x :
  forallb p l = true -> x ∈ l -> p x = true.
Proof.
  intros H Hx. apply list_elem_of_In in Hx.
  rewrite forallb_forall in H. by apply H.
Qed.

(** C2.  On registry items and qualifiers of the data model,
    [match_policy_and_get_url] returns the first item, in the order of the
    response, for which the four tests hold together (the verified flag
    equals the qualifier's value, the provider is in the qualifier's value,
    relevance score and uptime are at least the qualifier's values); it
    returns [None] when no item passes all four; and an item that fails any
    one of the four is never the one returned. *)
Theorem match_policy_first_qualifying
    (pm : PolicyManager) (items : list pyval) :
  wf_metrics (policy_metrics pm) = true ->
  py_get (registry_response_data pm) "data" (PList []) = Ok (PList items) ->
  forallb comparable_item items = true ->
  (forall i item,
      items !! i = Some item ->
      qualifies (policy_metrics pm) item = true ->
      (forall j other, (j < i)%nat -> items !! j = Some other ->
                       qualifies (policy_metrics pm) other = false) ->
      match_policy_and_get_url pm = Ok item) /\
  ((forall item, item ∈ items -> qualifies (policy_metrics pm) item = false) ->
      match_policy_and_get_url pm = Ok PNone) /\
  (forall item,
      item ∈ items ->
      verified_holds (policy_metrics pm) item = false \/
      provider_holds (policy_metrics pm) item = false \/
      relevance_holds (policy_metrics pm) item = false \/
      uptime_holds (policy_metrics pm) item = false ->
      match_policy_and_get_url pm <> Ok item).
Proof.
  intros Hm Hd Hi. rewrite (match_policy_wf pm items Hm Hd Hi).
  split; [|split].
  - intros i item Hi' Hq Hb. by rewrite (find_first _ _ i item Hi' Hq Hb).
  - intros Hnone. by rewrite find_nothing.
  - intros item Hin Hfail Hret.
    assert (Hq : qualifies (policy_metrics pm) item = false).
    { unfold qualifies.
      destruct Hfail as [-> | [-> | [-> | ->]]];
        rewrite ?andb_false_r; reflexivity. }
    destruct (List.find _ items) as [x|] eqn:E; simpl in Hret.
    + inversion Hret; subst x. apply find_some in E as [_ E]. congruence.
    + inversion Hret as [Hn].
      apply (comparable_item_not_None item); [|done].
      by apply (forallb_elem_of _ items).
Qed.

(** * Resolution: the cache-fallback phase *)

Lemma has_field k p v :
  has k p v = true ->
  exists x, field k v = Some x /\ p x = true /\ py_getitem v k = Ok x /\
            forall default, py_get v k default = Ok x.
Proof.
  unfold has, field, py_getitem, py_get. destruct v; try discriminate.
  destruct (dict_lookup k d) as [x|]; [|discriminate]. eauto 6.
Qed.

Lemma wf_entry_item e :
  wf_entry e = true ->
  exists item, field "data_item" e = Some item /\ wf_item item = true.
Proof.
  unfold wf_entry. intros H. apply andb_prop in H as [_ H].
  destruct (has_field _ _ _ H) as (item & Hf & Hwf & _). eauto.
Qed.

Lemma wf_item_truthy item : wf_item item = true -> truthy item = true.
Proof.
  intros H. destruct (wf_item_fields item H) as (Hid & _). clear H.
  rename Hid into H. unfold has, field in H.
  destruct item; try discriminate. by destruct d.
Qed.

Lemma falsy_no_field k v : truthy v = false -> field k v = None.
Proof. destruct v; try done. by destruct d. Qed.

Lemma falsy_not_qualifies metrics item :
  truthy item = false -> qualifies metrics item = false.
Proof.
  intros H. unfold qualifies, verified_holds, test.
  by rewrite (falsy_no_field "verified" item H).
Qed.

Lemma first_passing_testable pm vp entries :
  policy_lookup pm = Ok vp ->
  testable (policy_metrics pm) = true ->
  forallb wf_entry entries = true ->
  first_passing pm entries =
  Ok (from_option endpoint_of PNone
        (List.find (entry_qualifies (policy_metrics pm)) entries)).
Proof.
  intros Hvp Hm. induction entries as [|e r IH]; intros Hw; [done|].
  simpl in Hw. apply andb_prop in Hw as [He Hr]. simpl.
  unfold wf_entry in He.
  apply andb_prop in He as [He Hitem]. repeat (apply andb_prop in He as [He _]).
  destruct (has_field _ _ _ He) as (u & Hu & _ & Hgu & _).
  destruct (has_field _ _ _ Hitem) as (item & Hf & Hwf & _ & Hget).
  rewrite Hget. simpl. rewrite (wf_item_truthy item Hwf).
  destruct (wf_item_fields item Hwf) as (_ & Hname & _ & Hcomp).
  destruct (comparable_item_fields item Hcomp) as (_ & _ & Hrel & Hup).
  rewrite (item_passes_policy_testable pm vp item Hvp Hm Hcomp). simpl.
  unfold entry_qualifies at 1. rewrite Hf.
  destruct (qualifies (policy_metrics pm) item); [|by apply IH].
  destruct (has_field _ _ _ Hname) as (? & _ & _ & -> & _).
  destruct (has_field _ _ _ Hrel) as (? & _ & _ & -> & _).
  destruct (has_field _ _ _ Hup) as (? & _ & _ & -> & _).
  rewrite Hgu. simpl. unfold endpoint_of. by rewrite Hu.
Qed.

Lemma first_passing_wf pm entries :
  wf_metrics (policy_metrics pm) = true ->
  forallb wf_entry entries = true ->
  first_passing pm entries =
  Ok (from_option endpoint_of PNone
        (List.find (entry_qualifies (policy_metrics pm)) entries)).
Proof.
  intros Hm Hw. destruct (policy_lookup_total pm Hm) as [vp Hvp].
  apply (first_passing_testable pm vp); auto. by apply wf_metrics_testable.
Qed.

Lemma py_get_field o k v :
  py_get o k PNone = Ok v -> v <> PNone -> field k o = Some v.
Proof.
  unfold py_get, field. destruct o; try discriminate.
  destruct (dict_lookup k d); intros H; inversion H; congruence.
Qed.

Lemma first_passing_inv pm entries r :
  first_passing pm entries = Ok r -> r <> PNone ->
  exists i e item,
    entries !! i = Some e /\
    field "data_item" e = Some item /\
    _item_passes_policy pm item = Ok true /\
    field "mcp_endpoint" e = Some r /\
    forall j e', (j < i)%nat -> entries !! j = Some e' ->
                 entry_qualifies (policy_metrics pm) e' = false.
Proof.
  intros H Hr. induction entries as [|e rest IH]; simpl in H.
  { inversion H. congruence. }
  apply bind_Ok in H as (item & Hitem & H).
  apply bind_Ok in H as (ok & Hok & H).
  destruct ok.
  - destruct (truthy item) eqn:Et; [|discriminate].
    assert (Hf : field "data_item" e = Some item).
    { apply py_get_field; [done|]. intros ->. discriminate. }
    apply bind_Ok in H as (? & _ & H). apply bind_Ok in H as (? & _ & H).
    apply bind_Ok in H as (? & _ & H). apply bind_Ok in H as (? & _ & H).
    apply py_getitem_field in H.
    exists 0%nat, e, item. repeat split; auto. intros; lia.
  - destruct (IH H) as (i & e1 & item1 & Hi & Hf & Hp & He & Hb).
    exists (S i), e1, item1. repeat split; auto.
    intros [|j] e' Hj He'; [|apply (Hb j); [lia|done]].
    simpl in He'. inversion He'; subst e'. unfold entry_qualifies.
    destruct (field "data_item" e) as [item'|] eqn:Ef; [|done].
    assert (item' = item) as ->.
    { unfold py_get, field in *. destruct e; try discriminate.
      rewrite Ef in Hitem. by inversion Hitem. }
    destruct (truthy item) eqn:Et.
    + by apply item_passes_policy_sound.
    + by apply falsy_not_qualifies.
Qed.

Lemma first_passing_strs pm (l : list pyval) r :
  Forall (fun x => is_str x = true) l ->
  first_passing pm l = Ok r -> r = PNone.
Proof.
  intros Hl H. destruct Hl as [|x l Hx _]; simpl in H.
  - by inversion H.
  - destruct x; discriminate.
Qed.

Lemma chars_strs s : Forall (fun x => is_str x = true) (chars s).
Proof. induction s; simpl; constructor; auto. Qed.

Lemma load_cache_world w : snd (load_cache w) = w.
Proof. unfold load_cache. by destruct (negb _). Qed.

Lemma load_cache_eq w : load_cache w = (fst (load_cache w), w).
Proof. rewrite <- (load_cache_world w) at 3. by destruct (load_cache w). Qed.

Section Resolution.

Variable strptime : string -> option datetime.
Variable strftime : datetime -> string.

Lemma resolve_fallback pm now w :
  match_policy_and_get_url pm = Ok PNone ->
  get_verifiable_mcp_endpoint strptime strftime pm now w =
  match fst (load_cache w) with
  | Ok cache =>
      (cached <- py_get cache "cached_mcp" (PList []) ;;
       entries <- py_iter cached ;;
       first_passing pm entries, w)
  | Raise e => (Raise e, w)
  end.
Proof.
  intros H. unfold get_verifiable_mcp_endpoint, iobind, lift. rewrite H. simpl.
  rewrite (load_cache_eq w). simpl. by destruct (fst (load_cache w)).
Qed.

Lemma wf_cache_entries cache :
  wf_cache cache = true ->
  py_get cache "cached_mcp" (PList []) = Ok (PList (entries_of cache)) /\
  forallb wf_entry (entries_of cache) = true.
Proof.
  unfold wf_cache. intros H.
  destruct (has_field _ _ _ H) as (x & Hf & Hx & _ & Hg).
  unfold entries_of. rewrite Hf, Hg. destruct x; try discriminate. auto.
Qed.

(** C1.  For every policy: when the live phase finds no match and the
    cache that is loaded has an entry whose [data_item] passes the four
    current qualifiers, [get_verifiable_mcp_endpoint] returns the
    [mcp_endpoint] of the first such entry in stored order (a URL, not
    [None]) and leaves the cache file as it was. *)
Theorem resolve_first_qualifying_cached pm now w cache i e :
  match_policy_and_get_url pm = Ok PNone ->
  load_cache w = (Ok cache, w) ->
  wf_cache cache = true ->
  entries_of cache !! i = Some e ->
  entry_qualifies (policy_metrics pm) e = true ->
  (forall j e', (j < i)%nat -> entries_of cache !! j = Some e' ->
                entry_qualifies (policy_metrics pm) e' = false) ->
  exists url,
    field "mcp_endpoint" e = Some (PStr url) /\
    get_verifiable_mcp_endpoint strptime strftime pm now w = (Ok (PStr url), w).
Proof.
  intros Hlive Hload Hc Hi Hq Hb.
  destruct (wf_cache_entries cache Hc) as [Hget Hw].
  assert (He : wf_entry e = true).
  { apply (forallb_elem_of _ (entries_of cache)); [done|].
    by apply list_elem_of_lookup_2 with i. }
  assert (Hvp : exists vp, policy_lookup pm = Ok vp).
  { unfold match_policy_and_get_url in Hlive.
    apply bind_Ok in Hlive as (vp & Hvp & _). eauto. }
  destruct Hvp as [vp Hvp].
  assert (Hm : testable (policy_metrics pm) = true).
  { destruct (wf_entry_item e He) as (item & Hf & Hwf).
    apply (qualifies_testable _ item); [by apply wf_item_comparable|].
    unfold entry_qualifies in Hq. by rewrite Hf in Hq. }
  unfold wf_entry in He. repeat (apply andb_prop in He as [He _]).
  destruct (has_field _ _ _ He) as (u & Hu & Hs & _).
  destruct u as [ | | | |url| | ]; try discriminate.
  exists url. split; [done|].
  rewrite (resolve_fallback pm now w Hlive), Hload. simpl.
  rewrite Hget. simpl. rewrite (first_passing_testable pm vp _ Hvp Hm Hw).
  rewrite (find_first _ _ i e Hi Hq Hb). simpl.
  unfold endpoint_of. by rewrite Hu.
Qed.

(** C3.  In the cache-fallback phase, an endpoint that is returned is the
    [mcp_endpoint] of an entry whose [data_item] passes each of the four
    current qualifiers: the entry is checked again, whatever its stored
    [met_protocol_criteria].  So when no entry of the cache passes the
    current policy, the answer is [None], also for entries stored with the
    flag set under an earlier policy. *)
Theorem fallback_revalidates pm now w :
  match_policy_and_get_url pm = Ok PNone ->
  (forall r w',
      get_verifiable_mcp_endpoint strptime strftime pm now w = (Ok r, w') ->
      r <> PNone ->
      exists cache i e item,
        load_cache w = (Ok cache, w) /\
        entries_of cache !! i = Some e /\
        field "mcp_endpoint" e = Some r /\
        field "data_item" e = Some item /\
        verified_holds (policy_metrics pm) item = true /\
        provider_holds (policy_metrics pm) item = true /\
        relevance_holds (policy_metrics pm) item = true /\
        uptime_holds (policy_metrics pm) item = true) /\
  (forall cache,
      wf_metrics (policy_metrics pm) = true ->
      load_cache w = (Ok cache, w) ->
      wf_cache cache = true ->
      (forall e, e ∈ entries_of cache ->
                 entry_qualifies (policy_metrics pm) e = false) ->
      get_verifiable_mcp_endpoint strptime strftime pm now w = (Ok PNone, w)).
Proof.
  intros Hlive. split.
  - intros r w' H Hr. rewrite (resolve_fallback pm now w Hlive) in H.
    destruct (fst (load_cache w)) as [cache|] eqn:Ec; [|discriminate].
    inversion H as [[H' Hw]]. clear H.
    apply bind_Ok in H' as (cached & Hcached & H).
    apply bind_Ok in H as (entries & Hentries & H).
    assert (Hl : entries = entries_of cache).
    { unfold py_get in Hcached. unfold entries_of, field.
      destruct cache as [ | | | | | |d]; try discriminate.
      destruct (dict_lookup "cached_mcp" d) as [x|];
        inversion Hcached; subst cached; clear Hcached.
      - destruct x; try discriminate; simpl in Hentries;
          inversion Hentries; subst entries; clear Hentries; try done.
        + contradict Hr. by apply (first_passing_strs pm _ r (chars_strs s)).
        + contradict Hr. refine (first_passing_strs pm _ r _ H).
          apply Forall_forall. intros x Hx. apply list_elem_of_In in Hx.
          apply in_map_iff in Hx as (kv & <- & _). done.
      - simpl in Hentries. by inversion Hentries. }
    subst entries.
    destruct (first_passing_inv pm _ r H Hr)
      as (i & e & item & Hi & Hf & Hp & He & _).
    apply item_passes_policy_sound in Hp. unfold qualifies in Hp.
    apply andb_prop in Hp as [Hp Hup]. apply andb_prop in Hp as [Hp Hrel].
    apply andb_prop in Hp as [Hver Hprov].
    exists cache, i, e, item. subst w'. rewrite (load_cache_eq w), Ec. auto 10.
  - intros cache Hm Hload Hc Hnone.
    destruct (wf_cache_entries cache Hc) as [Hget Hw].
    rewrite (resolve_fallback pm now w Hlive), Hload. simpl.
    rewrite Hget. simpl. rewrite (first_passing_wf pm _ Hm Hw).
    by rewrite find_nothing.
Qed.

End Resolution.

(** * The trust cache: locating an entry *)

Lemma wf_entry_id e :
  wf_entry e = true ->
  exists item s,
    field "data_item" e = Some item /\ wf_item item = true /\
    (forall default, py_get e "data_item" default = Ok item) /\
    field "id" item = Some (PStr s) /\
    (forall default, py_get item "id" default = Ok (PStr s)) /\
    entry_id e = Some s.
Proof.
  unfold wf_entry. intros H. apply andb_prop in H as [_ H].
  destruct (has_field _ _ _ H) as (item & Hf & Hwf & _ & Hget).
  destruct (wf_item_fields item Hwf) as (Hid & _).
  destruct (has_field _ _ _ Hid) as (x & Hx & Hs & _ & Hgx).
  destruct x as [ | | | |s| | ]; try discriminate.
  exists item, s. repeat split; auto.
  unfold entry_id, item_id. rewrite Hf. simpl. by rewrite Hx.
Qed.

Lemma has_id_wf i e s : entry_id e = Some s -> has_id i e = String.eqb s i.
Proof. unfold has_id. by intros ->. Qed.

Lemma item_id_getitem item i :
  item_id item = Some i -> py_getitem item "id" = Ok (PStr i).
Proof.
  unfold item_id. intros H. apply py_getitem_field.
  destruct (field "id" item) as [[ | | | |s| | ]|]; try discriminate.
  by inversion H.
Qed.

Lemma wf_entry_truthy e : wf_entry e = true -> truthy e = true.
Proof.
  unfold wf_entry. intros H. repeat (apply andb_prop in H as [H _]).
  unfold has, field in H. destruct e; try discriminate. by destruct d.
Qed.

Lemma find_existing_wf item i entries :
  item_id item = Some i ->
  forallb wf_entry entries = true ->
  find_existing item entries = Ok (snd <$> first_of_id i entries).
Proof.
  intros Hi. induction entries as [|e r IH]; intros Hw; [done|].
  simpl in Hw. apply andb_prop in Hw as [He Hr].
  destruct (wf_entry_id e He) as (it & s & _ & _ & Hget & _ & Hgid & Hid).
  simpl. rewrite Hget. simpl. rewrite Hgid. simpl.
  rewrite (item_id_getitem item i Hi). simpl.
  unfold py_eq. simpl. unfold first_of_id. simpl.
  rewrite (has_id_wf i e s Hid).
  destruct (String.eqb s i) eqn:E.
  - by rewrite decide_True.
  - rewrite decide_False by congruence. rewrite (IH Hr).
    unfold first_of_id. by destruct (list_find _ r) as [[??]|].
Qed.

Lemma bindings_match_lookup f db da : forall seen k v,
  bindings_match f db seen da = true ->
  dict_lookup k da = Some v ->
  mem_string k seen = false ->
  exists w, dict_lookup k db = Some w /\ f v w = true.
Proof.
  induction da as [|[k0 v0] r IH]; intros seen k v H Hl Hs; [done|].
  simpl in H, Hl. apply andb_prop in H as [H0 H].
  destruct (String.eqb k k0) eqn:E.
  - apply String.eqb_eq in E. subst k0. inversion Hl; subst v0.
    rewrite Hs in H0. destruct (dict_lookup k db) as [w|]; [|done]. eauto.
  - apply (IH (k0 :: seen) k v H Hl). unfold mem_string in *. simpl.
    by rewrite E, Hs.
Qed.

Lemma py_equiv_field a b k v :
  py_equiv a b = true -> field k a = Some v ->
  exists w, field k b = Some w /\ py_equiv v w = true.
Proof.
  destruct a as [ | | | | | |da]; try discriminate.
  destruct b as [ | | | | | |db]; try discriminate.
  simpl. intros H Hl. apply andb_prop in H as [_ H].
  by apply (bindings_match_lookup py_equiv db da [] k v).
Qed.

Lemma py_equiv_entry_id a b :
  wf_entry a = true -> wf_entry b = true ->
  py_equiv a b = true -> entry_id a = entry_id b.
Proof.
  intros Ha Hb H.
  destruct (wf_entry_id a Ha) as (ia & sa & Hfa & _ & _ & Hia & _ & ->).
  destruct (wf_entry_id b Hb) as (ib & sb & Hfb & _ & _ & Hib & _ & ->).
  destruct (py_equiv_field a b _ _ H Hfa) as (ib' & Hfb' & Hi).
  rewrite Hfb in Hfb'. inversion Hfb'; subst ib'.
  destruct (py_equiv_field ia ib _ _ Hi Hia) as (x & Hx & Hs).
  rewrite Hib in Hx. inversion Hx; subst x. simpl in Hs.
  apply String.eqb_eq in Hs. by subst.
Qed.

Lemma list_index_found i entries : forall p e,
  forallb wf_entry entries = true ->
  first_of_id i entries = Some (p, e) ->
  list_index e entries = Some p.
Proof.
  unfold first_of_id.
  induction entries as [|a r IH]; intros p e Hw H; [done|].
  simpl in Hw. apply andb_prop in Hw as [Ha Hr].
  simpl in H. case_decide as Hid.
  - inversion H; subst. simpl. by rewrite py_equiv_refl.
  - destruct (list_find _ r) as [[p' e']|] eqn:E; [|done].
    simpl in H. inversion H; subst. simpl.
    assert (He : wf_entry e = true).
    { apply list_find_Some in E as (E & _).
      apply (forallb_elem_of _ r); [done|].
      by apply list_elem_of_lookup_2 with p'. }
    destruct (py_equiv a e) eqn:Eq.
    + exfalso. apply Hid. apply list_find_Some in E as (_ & E & _).
      unfold has_id in *. by rewrite (py_equiv_entry_id a e Ha He Eq).
    + by rewrite (IH p' e Hr).
Qed.

(** * The trust cache: one upsert *)

(** The write of a file that could be loaded. *)
Lemma save_cache_outcome w cache data :
  load_cache w = (Ok cache, w) ->
  save_cache data w =
  if read_only w then (Raise PermissionError, w)
  else match dump_error w data with
       | Some e => (Raise e, truncated w)
       | None => (Ok tt, written w data)
       end.
Proof.
  unfold load_cache, save_cache, _save_json, iobind, open_for_writing,
    json_dump, written, truncated.
  destruct (cache_file w), (read_only w); simpl; try done; try discriminate;
    by destruct (dump_error w data).
Qed.

Lemma load_cache_writable w cache data :
  load_cache w = (Ok cache, w) ->
  takes_writes w ->
  save_cache data w = (Ok tt, written w data).
Proof.
  intros Hl [Hr Hd]. by rewrite (save_cache_outcome w cache data Hl), Hr, Hd.
Qed.

(** After the write the file system is what it was. *)
Lemma save_cache_takes_writes w data :
  takes_writes w -> takes_writes (snd (save_cache data w)).
Proof.
  unfold save_cache, _save_json, iobind, open_for_writing, json_dump.
  intros [Hr Hd].
  destruct (cache_file w); rewrite ?Hr; simpl; rewrite ?Hd; by split.
Qed.

Lemma wf_cache_dict cache :
  wf_cache cache = true ->
  exists d, cache = PDict d /\
            dict_lookup "cached_mcp" d = Some (PList (entries_of cache)).
Proof.
  unfold wf_cache, has, entries_of, field. destruct cache; try discriminate.
  destruct (dict_lookup "cached_mcp" d) as [[ | | | | |l| ]|] eqn:E;
    try discriminate.
  eauto.
Qed.

Section Upsert.

Variable strptime : string -> option datetime.
Variable strftime : datetime -> string.

Lemma update_cache_cases item criteria now w cache i :
  wf_item item = true ->
  item_id item = Some i ->
  load_cache w = (Ok cache, w) ->
  wf_cache cache = true ->
  let entry := new_entry strftime item criteria (url_of item) now in
  update_cache strptime strftime item criteria now w =
  match first_of_id i (entries_of cache) with
  | None =>
      save_cache (with_entries cache (entries_of cache ++ [entry])) w
  | Some (p, e) =>
      match strptime (last_cached_of e) with
      | None => (Raise ValueError, w)
      | Some last =>
          if last >? now - timedelta_hours 72 then (Ok tt, w)
          else save_cache
                 (with_entries cache (<[p:=entry]> (entries_of cache))) w
      end
  end.
Proof.
  intros Hitem Hid Hload Hc entry.
  destruct (wf_cache_entries cache Hc) as [Hget Hw].
  destruct (wf_cache_dict cache Hc) as (d & Hd & Hl).
  assert (Hurl : py_getitem item "url" = Ok (url_of item)).
  { destruct (wf_item_fields item Hitem) as (_ & _ & Hurl & _).
    destruct (has_field _ _ _ Hurl) as (u & Hu & _ & Hg & _).
    unfold url_of. by rewrite Hu. }
  unfold update_cache, iobind, lift. rewrite Hurl, Hload, Hget. simpl.
  rewrite (find_existing_wf item i _ Hid Hw).
  destruct (first_of_id i (entries_of cache)) as [[p e]|] eqn:E; simpl.
  - assert (He : wf_entry e = true).
    { unfold first_of_id in E. apply list_find_Some in E as (E & _).
      apply (forallb_elem_of _ (entries_of cache)); [done|].
      by apply list_elem_of_lookup_2 with p. }
    rewrite (wf_entry_truthy e He).
    assert (Hlc : py_getitem e "last_cached" = Ok (PStr (last_cached_of e))).
    { unfold wf_entry in He. apply andb_prop in He as [He _].
      apply andb_prop in He as [He _]. apply andb_prop in He as [_ He].
      destruct (has_field _ _ _ He) as (x & Hx & Hs & Hg & _).
      unfold last_cached_of. rewrite Hx. by destruct x. }
    rewrite Hlc. simpl. destruct (strptime (last_cached_of e)) as [last|]; [|done].
    simpl. destruct (last >? now - timedelta_hours 72); [done|].
    unfold replace_entry.
    assert (Hgi : py_getitem cache "cached_mcp" = Ok (PList (entries_of cache))).
    { rewrite Hd at 1. simpl. by rewrite Hl. }
    rewrite Hgi. simpl. rewrite (list_index_found i _ p e Hw E).
    rewrite Hd at 1. by rewrite Hd at 2.
  - unfold append_entry. rewrite Hd at 1. rewrite Hl.
    by rewrite Hd at 2.
Qed.

(** The same when the file takes the write. *)
Lemma update_cache_wf item criteria now w cache i :
  wf_item item = true ->
  item_id item = Some i ->
  load_cache w = (Ok cache, w) ->
  wf_cache cache = true ->
  takes_writes w ->
  let entry := new_entry strftime item criteria (url_of item) now in
  update_cache strptime strftime item criteria now w =
  match first_of_id i (entries_of cache) with
  | None =>
      (Ok tt, written w (with_entries cache (entries_of cache ++ [entry])))
  | Some (p, e) =>
      match strptime (last_cached_of e) with
      | None => (Raise ValueError, w)
      | Some last =>
          if last >? now - timedelta_hours 72 then (Ok tt, w)
          else (Ok tt,
                written w (with_entries cache (<[p:=entry]> (entries_of cache))))
      end
  end.
Proof.
  intros Hitem Hid Hload Hc Htakes entry.
  rewrite (update_cache_cases item criteria now w cache i Hitem Hid Hload Hc).
  fold entry.
  destruct (first_of_id i (entries_of cache)) as [[p e]|].
  - destruct (strptime (last_cached_of e)) as [last|]; [|done].
    destruct (last >? now - timedelta_hours 72); [done|].
    apply (load_cache_writable w cache _ Hload Htakes).
  - apply (load_cache_writable w cache _ Hload Htakes).
Qed.

End Upsert.

(** * The trust cache: the invariant *)

Lemma load_cache_truncated w :
  load_cache (truncated w) = (Ok empty_cache, truncated w).
Proof. done. Qed.

Lemma load_cache_written w cache :
  load_cache (written w cache) = (Ok cache, written w cache).
Proof. reflexivity. Qed.

Lemma entries_of_with_entries cache l :
  is_dict cache = true -> entries_of (with_entries cache l) = l.
Proof.
  destruct cache; try discriminate. intros _.
  unfold entries_of, with_entries, field. by rewrite dict_lookup_set_eq.
Qed.

Lemma wf_cache_with_entries cache l :
  is_dict cache = true -> forallb wf_entry l = true ->
  wf_cache (with_entries cache l) = true.
Proof.
  destruct cache; try discriminate. intros _ Hl.
  unfold wf_cache, has, with_entries, field. by rewrite dict_lookup_set_eq.
Qed.

Lemma wf_cache_is_dict cache : wf_cache cache = true -> is_dict cache = true.
Proof. by destruct cache. Qed.

Lemma wf_item_url item :
  wf_item item = true -> is_str (url_of item) = true.
Proof.
  intros H. destruct (wf_item_fields item H) as (_ & _ & Hurl & _).
  destruct (has_field _ _ _ Hurl) as (u & Hu & Hs & _).
  unfold url_of. by rewrite Hu.
Qed.

Lemma wf_item_id item : wf_item item = true -> exists i, item_id item = Some i.
Proof.
  intros H. destruct (wf_item_fields item H) as (Hid & _).
  destruct (has_field _ _ _ Hid) as (x & Hx & Hs & _).
  destruct x; try discriminate. unfold item_id. rewrite Hx. eauto.
Qed.

Lemma wf_new_entry strftime item criteria now :
  wf_item item = true -> is_dict criteria = true ->
  wf_entry (new_entry strftime item criteria (url_of item) now) = true.
Proof.
  intros Hi Hc. unfold wf_entry, new_entry, has. simpl.
  rewrite (wf_item_url item Hi), Hc, Hi. reflexivity.
Qed.

Lemma entry_id_new_entry strftime item criteria u now :
  entry_id (new_entry strftime item criteria u now) = item_id item.
Proof. reflexivity. Qed.

Lemma count_ids_ext i (l1 : list pyval) : forall l2,
  entry_id <$> l1 = entry_id <$> l2 ->
  length (List.filter (has_id i) l1) = length (List.filter (has_id i) l2).
Proof.
  induction l1 as [|a r IH]; intros [|b l2] H; try discriminate; [done|].
  simpl in H. inversion H as [[Hab Hr]]. simpl.
  assert (has_id i a = has_id i b) as -> by (unfold has_id; by rewrite Hab).
  destruct (has_id i b); simpl; by rewrite (IH l2 Hr).
Qed.

Lemma count_none i (l : list pyval) :
  (forall e, e ∈ l -> has_id i e = false) ->
  length (List.filter (has_id i) l) = 0%nat.
Proof.
  induction l as [|a r IH]; intros H; [done|]. simpl.
  rewrite (H a); [|by left]. apply IH. intros e He. apply H. by right.
Qed.

Lemma has_id_true i e : has_id i e = true <-> entry_id e = Some i.
Proof.
  unfold has_id. destruct (entry_id e) as [s|]; [|split; discriminate].
  rewrite String.eqb_eq. split; congruence.
Qed.

Lemma count_unique i (l : list pyval) :
  NoDup (entry_id <$> l) ->
  (exists e, e ∈ l /\ has_id i e = true) ->
  length (List.filter (has_id i) l) = 1%nat.
Proof.
  induction l as [|a r IH]; intros Hn (e & He & Hid).
  { by apply elem_of_nil in He. }
  simpl in Hn. apply NoDup_cons in Hn as [Ha Hr]. simpl.
  destruct (has_id i a) eqn:Ea.
  - simpl. f_equal. apply count_none. intros x Hx.
    destruct (has_id i x) eqn:Ex; [|done]. exfalso. apply Ha.
    apply has_id_true in Ea, Ex. rewrite Ea, <- Ex.
    by apply list_elem_of_fmap_2.
  - apply IH; [done|]. exists e. split; [|done].
    apply elem_of_cons in He as [->|He]; [congruence|done].
Qed.

Lemma first_of_id_None i l :
  first_of_id i l = None -> forall e, e ∈ l -> has_id i e = false.
Proof.
  unfold first_of_id. intros H e He.
  apply list_find_None in H. rewrite Forall_forall in H.
  specialize (H e He). by destruct (has_id i e).
Qed.

Lemma first_of_id_Some i l p e :
  first_of_id i l = Some (p, e) <->
  l !! p = Some e /\ has_id i e = true /\
  forall j e', (j < p)%nat -> l !! j = Some e' -> has_id i e' = false.
Proof.
  unfold first_of_id. rewrite list_find_Some. split.
  - intros (H1 & H2 & H3). repeat split; auto.
    intros j e' Hj He'. specialize (H3 j e' He' Hj). by destruct (has_id i e').
  - intros (H1 & H2 & H3). repeat split; auto.
    intros j e' He' Hj. by rewrite (H3 j e' Hj He').
Qed.

Lemma forallb_insert {A} (p : A -> bool) (l : list A) : forall i x,
  forallb p l = true -> p x = true -> forallb p (<[i:=x]> l) = true.
Proof.
  induction l as [|a r IH]; intros i x Hl Hx; [done|].
  simpl in Hl. apply andb_prop in Hl as [Ha Hr].
  destruct i as [|i]; simpl.
  - by rewrite Hx, Hr.
  - by rewrite Ha, (IH i x Hr Hx).
Qed.

Section Invariant.

Variable strptime : string -> option datetime.
Variable strftime : datetime -> string.

(** The file system is the same after a call. *)
Lemma update_cache_takes_writes item criteria now w cache i :
  wf_item item = true ->
  item_id item = Some i ->
  load_cache w = (Ok cache, w) ->
  wf_cache cache = true ->
  takes_writes w ->
  takes_writes (snd (update_cache strptime strftime item criteria now w)).
Proof.
  intros Hitem Hid Hload Hc Ht.
  rewrite (update_cache_cases strptime strftime item criteria now w cache i
             Hitem Hid Hload Hc).
  destruct (first_of_id i (entries_of cache)) as [[p e]|].
  - destruct (strptime (last_cached_of e)) as [last|]; [|done].
    destruct (last >? now - timedelta_hours 72); [done|].
    by apply save_cache_takes_writes.
  - by apply save_cache_takes_writes.
Qed.

(** The document that an upsert writes. *)
Lemma upserted_document item criteria now cache i :
  wf_item item = true -> is_dict criteria = true ->
  item_id item = Some i ->
  wf_cache cache = true -> unique_ids cache ->
  let entry := new_entry strftime item criteria (url_of item) now in
  let doc :=
    with_entries cache
      match first_of_id i (entries_of cache) with
      | Some (p, e) => <[p:=entry]> (entries_of cache)
      | None => entries_of cache ++ [entry]
      end in
  wf_cache doc = true /\ unique_ids doc /\
  count_id i doc = 1%nat /\
  forall k, count_id k cache = 1%nat -> count_id k doc = 1%nat.
Proof.
  intros Hitem Hcrit Hid Hc Hu entry doc. subst doc.
  pose proof (wf_cache_is_dict cache Hc) as Hdict.
  destruct (wf_cache_entries cache Hc) as [_ Hw].
  pose proof (wf_new_entry strftime item criteria now Hitem Hcrit) as Hnew.
  fold entry in Hnew.
  destruct (first_of_id i (entries_of cache)) as [[p e]|] eqn:E.
  - assert (Hkeep : count_id i cache = 1%nat).
    { apply first_of_id_Some in E as (E1 & E2 & _).
      apply count_unique; [done|]. exists e. split; [|done].
      by apply list_elem_of_lookup_2 with p. }
    assert (Hsame :
      entry_id <$> <[p:=entry]> (entries_of cache) = entry_id <$> entries_of cache).
    { apply first_of_id_Some in E as (E1 & E2 & _).
      rewrite list_fmap_insert. apply list_insert_id.
      rewrite list_lookup_fmap, E1. simpl. f_equal.
      apply has_id_true in E2. unfold entry.
      by rewrite entry_id_new_entry, Hid, E2. }
    assert (Hw' : forallb wf_entry (<[p:=entry]> (entries_of cache)) = true).
    { by apply forallb_insert. }
    split; [by apply wf_cache_with_entries|]. split; [|split].
    + unfold unique_ids. rewrite entries_of_with_entries by done.
      by rewrite Hsame.
    + unfold count_id. rewrite entries_of_with_entries by done.
      by rewrite (count_ids_ext i _ (entries_of cache)).
    + intros k Hk. unfold count_id. rewrite entries_of_with_entries by done.
      by rewrite (count_ids_ext k _ (entries_of cache)).
  - pose proof (first_of_id_None i _ E) as Hnone.
    assert (Hw' : forallb wf_entry (entries_of cache ++ [entry]) = true).
    { rewrite forallb_app, Hw. simpl. by rewrite Hnew. }
    assert (Hcount : forall k,
      length (List.filter (has_id k) (entries_of cache ++ [entry])) =
      (length (List.filter (has_id k) (entries_of cache)) +
       (if String.eqb i k then 1 else 0))%nat).
    { intros k. rewrite List.filter_app, length_app. f_equal. simpl.
      unfold has_id, entry. rewrite entry_id_new_entry, Hid.
      by destruct (String.eqb i k). }
    split; [by apply wf_cache_with_entries|]. split; [|split].
    + unfold unique_ids. rewrite entries_of_with_entries by done.
      rewrite fmap_app. simpl. apply NoDup_app. split; [done|]. split.
      * intros x Hx Hx'. apply list_elem_of_singleton in Hx'. subst x.
        apply list_elem_of_fmap in Hx as (e & He & Hin).
        unfold entry in He. rewrite entry_id_new_entry, Hid in He.
        specialize (Hnone e Hin). symmetry in He.
        apply has_id_true in He. congruence.
      * apply NoDup_singleton.
    + unfold count_id. rewrite entries_of_with_entries by done.
      rewrite Hcount, String.eqb_refl, (count_none i _ Hnone). reflexivity.
    + intros k Hk. unfold count_id in *. rewrite entries_of_with_entries by done.
      rewrite Hcount. destruct (String.eqb i k) eqn:Ek; [|lia].
      apply String.eqb_eq in Ek. subst k.
      by rewrite (count_none i _ Hnone) in Hk.
Qed.

(** One upsert.  Whatever becomes of the write, the file holds a
    well-formed cache with one entry per id afterwards: the one that was
    written, the one that was there, or the empty one of a file whose write
    failed.  When the file takes the write, the id of the item has its
    entry. *)
Lemma update_cache_step item criteria now w cache i :
  wf_item item = true -> is_dict criteria = true ->
  item_id item = Some i ->
  cache_ok w cache ->
  exists cache',
    cache_ok (snd (update_cache strptime strftime item criteria now w)) cache' /\
    (takes_writes w ->
     count_id i cache' = 1%nat /\
     forall k, count_id k cache = 1%nat -> count_id k cache' = 1%nat).
Proof.
  intros Hitem Hcrit Hid (Hload & Hc & Hu).
  destruct (upserted_document item criteria now cache i Hitem Hcrit Hid Hc Hu)
    as (Hdw & Hdu & Hdi & Hdk).
  assert (Hsame : first_of_id i (entries_of cache) <> None ->
    exists cache', cache_ok w cache' /\
      (takes_writes w ->
       count_id i cache' = 1%nat /\
       forall k, count_id k cache = 1%nat -> count_id k cache' = 1%nat)).
  { intros Hne. exists cache. split; [done|]. intros _. split; [|done].
    destruct (first_of_id i (entries_of cache)) as [[p e]|] eqn:E; [|done].
    apply first_of_id_Some in E as (E1 & E2 & _).
    apply count_unique; [done|]. exists e. split; [|done].
    by apply list_elem_of_lookup_2 with p. }
  assert (Hsave : forall doc,
    wf_cache doc = true -> unique_ids doc ->
    count_id i doc = 1%nat ->
    (forall k, count_id k cache = 1%nat -> count_id k doc = 1%nat) ->
    exists cache',
      cache_ok (snd (save_cache doc w)) cache' /\
      (takes_writes w ->
       count_id i cache' = 1%nat /\
       forall k, count_id k cache = 1%nat -> count_id k cache' = 1%nat)).
  { intros doc H1 H2 H3 H4. rewrite (save_cache_outcome w cache doc Hload).
    destruct (read_only w) eqn:Er; simpl.
    - exists cache. split; [done|]. intros [Hr _]. congruence.
    - destruct (dump_error w doc) as [e|] eqn:Ed; simpl.
      + exists empty_cache. split.
        * split; [apply load_cache_truncated|]. split; [done|].
          apply NoDup_nil_2.
        * intros [_ Hd]. rewrite Hd in Ed. discriminate.
      + exists doc. split; [|done].
        split; [apply load_cache_written|done]. }
  rewrite (update_cache_cases strptime strftime item criteria now w cache i
             Hitem Hid Hload Hc).
  destruct (first_of_id i (entries_of cache)) as [[p e]|] eqn:E.
  - destruct (strptime (last_cached_of e)) as [last|]; [|by apply Hsame].
    destruct (last >? now - timedelta_hours 72); [by apply Hsame|].
    by apply Hsave.
  - by apply Hsave.
Qed.

Lemma upserts_invariant calls : forall w cache,
  Forall wf_call calls ->
  cache_ok w cache ->
  exists cache',
    cache_ok (upserts strptime strftime calls w) cache' /\
    (takes_writes w ->
     forall i,
       count_id i cache = 1%nat \/ (exists c, c ∈ calls /\ call_id c = Some i) ->
       count_id i cache' = 1%nat).
Proof.
  induction calls as [|[[item criteria] now] r IH]; intros w cache Hcalls Hok.
  - exists cache. split; [done|]. intros _ i [H|(c & Hc & _)]; [done|].
    by apply elem_of_nil in Hc.
  - apply Forall_cons in Hcalls as [[Hitem Hcrit] Hr]. simpl in Hitem, Hcrit.
    destruct (wf_item_id item Hitem) as [j Hj].
    destruct (update_cache_step item criteria now w cache j Hitem Hcrit Hj Hok)
      as (cache1 & Hok1 & Hstep).
    destruct (IH _ cache1 Hr Hok1) as (cache' & Hok' & Hfinal).
    exists cache'. split; [done|]. intros Ht.
    destruct (Hstep Ht) as [Hcount Hpres].
    assert (Ht1 : takes_writes
                    (snd (update_cache strptime strftime item criteria now w))).
    { destruct Hok as (Hload & Hc & _).
      by apply (update_cache_takes_writes item criteria now w cache j). }
    specialize (Hfinal Ht1).
    intros i [H|(c & Hc & Hi)].
    + apply Hfinal. left. by apply Hpres.
    + apply elem_of_cons in Hc as [->|Hc].
      * apply Hfinal. left. unfold call_id in Hi. simpl in Hi. congruence.
      * apply Hfinal. right. eauto.
Qed.

End Invariant.

(** * The trust cache: the properties of an upsert *)

Section UpsertProperties.

Variable strptime : string -> option datetime.
Variable strftime : datetime -> string.

(** C4.  If the cache has an entry of the item's id whose [last_cached] is
    less than 72 hours before the call, [update_cache] returns and the world
    is the one before the call: the cache file, with every field of every
    entry, is unchanged and nothing has been written. *)
Theorem upsert_fresh_is_noop item criteria now w cache i p e last :
  wf_item item = true ->
  item_id item = Some i ->
  load_cache w = (Ok cache, w) ->
  wf_cache cache = true ->
  entries_of cache !! p = Some e ->
  has_id i e = true ->
  (forall j e', (j < p)%nat -> entries_of cache !! j = Some e' ->
                has_id i e' = false) ->
  strptime (last_cached_of e) = Some last ->
  now - last < timedelta_hours 72 ->
  update_cache strptime strftime item criteria now w = (Ok tt, w).
Proof.
  intros Hitem Hid Hload Hc Hp He Hb Hlast Hage.
  rewrite (update_cache_cases strptime strftime item criteria now w cache i
             Hitem Hid Hload Hc).
  assert (E : first_of_id i (entries_of cache) = Some (p, e)).
  { by apply first_of_id_Some. }
  rewrite E, Hlast.
  assert ((last >? now - timedelta_hours 72) = true) as ->; [|done].
  apply Z.gtb_lt. lia.
Qed.

(** C5.  From a cache with at most one entry per [data_item.id], any series
    of upserts at any times leaves a cache with the same invariant, whatever
    the file system does with the writes.  When the file takes the writes,
    that cache has exactly one entry for each id that was upserted, and one
    upsert appends its entry when no entry of the id existed; it puts the new
    entry at the position of the existing one when that one is stale;
    otherwise the list of entries is unchanged. *)
Theorem upsert_one_entry_per_id w cache :
  load_cache w = (Ok cache, w) ->
  wf_cache cache = true ->
  unique_ids cache ->
  (forall calls,
      Forall wf_call calls ->
      exists cache',
        load_cache (upserts strptime strftime calls w) =
          (Ok cache', upserts strptime strftime calls w) /\
        wf_cache cache' = true /\
        unique_ids cache' /\
        (takes_writes w ->
         forall c i, c ∈ calls -> call_id c = Some i ->
                     count_id i cache' = 1%nat)) /\
  (forall item criteria now i,
      wf_item item = true -> is_dict criteria = true ->
      item_id item = Some i ->
      takes_writes w ->
      let entry := new_entry strftime item criteria (url_of item) now in
      let w' := snd (update_cache strptime strftime item criteria now w) in
      exists cache',
        load_cache w' = (Ok cache', w') /\
        match first_of_id i (entries_of cache) with
        | None => entries_of cache' = entries_of cache ++ [entry]
        | Some (p, e) =>
            match strptime (last_cached_of e) with
            | Some last =>
                if last >? now - timedelta_hours 72
                then entries_of cache' = entries_of cache
                else entries_of cache' = <[p:=entry]> (entries_of cache)
            | None => entries_of cache' = entries_of cache
            end
        end).
Proof.
  intros Hload Hc Hu. split.
  - intros calls Hcalls.
    destruct (upserts_invariant strptime strftime calls w cache Hcalls)
      as (cache' & (Hl & Hw & Hn) & Hcount); [done|].
    exists cache'. repeat split; auto.
    intros Ht c i Hin Hi. apply (Hcount Ht). right. eauto.
  - intros item criteria now i Hitem Hcrit Hid Htakes entry w'. subst w'.
    rewrite (update_cache_wf strptime strftime item criteria now w cache i
               Hitem Hid Hload Hc Htakes).
    pose proof (wf_cache_is_dict cache Hc) as Hd.
    fold entry.
    destruct (first_of_id i (entries_of cache)) as [[p e]|].
    + destruct (strptime (last_cached_of e)) as [last|];
        [destruct (last >? now - timedelta_hours 72)|]; simpl;
        try (by exists cache).
      eexists. split; [apply load_cache_written|].
      by apply entries_of_with_entries.
    + simpl. eexists. split; [apply load_cache_written|].
      by apply entries_of_with_entries.
Qed.

End UpsertProperties.

(** C10.  There is a cache file that decodes and on which [update_cache]
    raises: whenever the entry of the item's id has a [last_cached] that
    [strptime] does not read in the format "%d.%m.%Y %H:%M:%S", the call
    raises [ValueError] and the cache file is not rewritten.  And when, on a
    cache with one entry per id, the call returns, the [last_cached] of
    every entry of that id was read by [strptime]. *)
Theorem upsert_raises_on_unreadable_timestamp :
  (exists w item criteria now cache,
      load_cache w = (Ok cache, w) /\ wf_cache cache = true /\
      update_cache Reference.strptime Reference.strftime item criteria now w =
        (Raise ValueError, w)) /\
  (forall strptime strftime item criteria now w cache i p e,
      wf_item item = true ->
      item_id item = Some i ->
      load_cache w = (Ok cache, w) ->
      wf_cache cache = true ->
      entries_of cache !! p = Some e ->
      has_id i e = true ->
      (forall j e', (j < p)%nat -> entries_of cache !! j = Some e' ->
                    has_id i e' = false) ->
      strptime (last_cached_of e) = None ->
      update_cache strptime strftime item criteria now w =
        (Raise ValueError, w)) /\
  (forall strptime strftime item criteria now w w' cache i,
      wf_item item = true ->
      item_id item = Some i ->
      load_cache w = (Ok cache, w) ->
      wf_cache cache = true ->
      unique_ids cache ->
      update_cache strptime strftime item criteria now w = (Ok tt, w') ->
      forall e, e ∈ entries_of cache -> has_id i e = true ->
                exists last, strptime (last_cached_of e) = Some last).
Proof.
  split; [|split].
  - exists (Example.holding [Example.entry Example.item_a "yesterday"]),
      Example.item_a, (PDict default_criteria), Example.now.
    eexists. split; [reflexivity|]. split; reflexivity.
  - intros strptime strftime item criteria now w cache i p e
      Hitem Hid Hload Hc Hp He Hb Hnone.
    rewrite (update_cache_cases strptime strftime item criteria now w cache i
               Hitem Hid Hload Hc).
    assert (E : first_of_id i (entries_of cache) = Some (p, e)).
    { by apply first_of_id_Some. }
    by rewrite E, Hnone.
  - intros strptime strftime item criteria now w w' cache i
      Hitem Hid Hload Hc Hu Hrun e He Hie.
    rewrite (update_cache_cases strptime strftime item criteria now w cache i
               Hitem Hid Hload Hc) in Hrun.
    destruct (first_of_id i (entries_of cache)) as [[p e0]|] eqn:E.
    + assert (e0 = e) as ->.
      { apply first_of_id_Some in E as (E1 & E2 & _).
        apply list_elem_of_lookup_1 in He as [q Hq].
        assert (p = q) as ->; [|congruence].
        apply (NoDup_lookup _ p q (Some i) Hu);
          rewrite list_lookup_fmap; [rewrite E1|rewrite Hq]; simpl; f_equal;
          by apply has_id_true. }
      destruct (strptime (last_cached_of e)) as [last|]; [eauto|discriminate].
    + by rewrite (first_of_id_None i _ E e He) in Hie.
Qed.

(** * The stored flag *)

Lemma first_flagged_wf entries :
  forallb wf_entry entries = true ->
  first_flagged entries =
  Ok (from_option endpoint_of PNone (List.find flagged entries)).
Proof.
  induction entries as [|e r IH]; intros Hw; [done|].
  simpl in Hw. apply andb_prop in Hw as [He Hr]. simpl.
  unfold wf_entry in He. do 3 (apply andb_prop in He as [He _]).
  apply andb_prop in He as [Hu Hflag].
  destruct (has_field _ _ _ Hflag) as (f & Hf & _ & _ & Hget).
  destruct (has_field _ _ _ Hu) as (u & Hfu & _ & Hgu & _).
  rewrite Hget. simpl. unfold flagged at 1. rewrite Hf.
  destruct (truthy f); [|by apply IH].
  rewrite Hgu. simpl. unfold endpoint_of. by rewrite Hfu.
Qed.

(** C9.  [load_cached_endpoint] returns the [mcp_endpoint] of the first
    entry in stored order whose [met_protocol_criteria] is true; the policy
    is not consulted.  There is a cache with an entry whose flag is true and
    whose [data_item] fails a current qualifier (the relevance score) for
    which it returns that entry's endpoint. *)
Theorem load_cached_endpoint_trusts_flag :
  (forall w cache p e,
      load_cache w = (Ok cache, w) ->
      wf_cache cache = true ->
      entries_of cache !! p = Some e ->
      flagged e = true ->
      (forall j e', (j < p)%nat -> entries_of cache !! j = Some e' ->
                    flagged e' = false) ->
      load_cached_endpoint w = (Ok (endpoint_of e), w)) /\
  (exists pm w cache e item,
      load_cache w = (Ok cache, w) /\
      entries_of cache = [e] /\
      flagged e = true /\
      field "data_item" e = Some item /\
      _item_passes_policy pm item = Ok false /\
      relevance_holds (policy_metrics pm) item = false /\
      endpoint_of e <> PNone /\
      load_cached_endpoint w = (Ok (endpoint_of e), w)).
Proof.
  split.
  - intros w cache p e Hload Hc Hp Hf Hb.
    destruct (wf_cache_entries cache Hc) as [Hget Hw].
    unfold load_cached_endpoint, iobind, lift. rewrite Hload, Hget. simpl.
    rewrite (first_flagged_wf _ Hw). by rewrite (find_first _ _ p e Hp Hf Hb).
  - exists Example.offline,
      (Example.holding [Example.entry Example.item_c "03.11.2026 09:00:00"]).
    eexists. eexists. exists Example.item_c.
    repeat split; try reflexivity. discriminate.
Qed.

(** * Failures of the registry and of the cache file *)

Lemma discovery_degrades_to_no_match py_str policy_doc net pm :
  PolicyManager_init py_str policy_doc net = Ok pm ->
  (forall url, degrading_reply (net url) = true) ->
  (exists vp, policy_lookup pm = Ok vp) ->
  match_policy_and_get_url pm = Ok PNone.
Proof.
  unfold PolicyManager_init. intros H Hnet [vp Hvp].
  apply bind_Ok in H as (? & _ & H). apply bind_Ok in H as ([data ms] & Hd & H).
  inversion H; subst pm; clear H. simpl in *.
  unfold match_policy_and_get_url. rewrite Hvp. simpl.
  unfold _discover_registry in Hd.
  apply bind_Ok in Hd as (ep & _ & Hd). apply bind_Ok in Hd as (link & _ & Hd).
  apply bind_Ok in Hd as (data' & Hdata & Hd).
  apply bind_Ok in Hd as (ms' & _ & Hd). inversion Hd; subst; clear Hd.
  specialize (Hnet link). unfold get_url_response in Hdata.
  destruct (net link) as [msg|[raw|v|raw|raw]]; simpl in Hdata;
    try discriminate.
  - by inversion Hdata.
  - by inversion Hdata.
  - inversion Hdata; subst. destruct data; try discriminate. simpl in *.
    by destruct (dict_lookup "data" d).
Qed.

(** A body that decodes to anything but an object stops the resolution. *)
Lemma body_not_an_object_raises strptime strftime py_str policy_doc v pm now w :
  PolicyManager_init py_str policy_doc (fun _ => Response (Json v)) = Ok pm ->
  is_dict v = false ->
  (exists vp, policy_lookup pm = Ok vp) ->
  get_verifiable_mcp_endpoint strptime strftime pm now w =
    (Raise AttributeError, w).
Proof.
  unfold PolicyManager_init. intros H Hv [vp Hvp].
  apply bind_Ok in H as (? & _ & H). apply bind_Ok in H as ([data ms] & Hd & H).
  inversion H; subst pm; clear H. simpl in *.
  unfold _discover_registry in Hd.
  apply bind_Ok in Hd as (ep & _ & Hd). apply bind_Ok in Hd as (link & _ & Hd).
  apply bind_Ok in Hd as (data' & Hdata & Hd).
  apply bind_Ok in Hd as (ms' & _ & Hd). inversion Hd; subst; clear Hd.
  simpl in Hdata. inversion Hdata; subst data; clear Hdata.
  unfold get_verifiable_mcp_endpoint, iobind, lift, match_policy_and_get_url.
  rewrite Hvp. simpl. by destruct v.
Qed.

(** C6.  A registry that answers with a JSON array gives a JSON body
    without a "data" key.  The manager is built, with the array as its
    response data, and the resolution then raises [AttributeError] instead
    of going on to the cache-fallback phase. *)
Theorem resolve_raises_on_array_body :
  (exists pm,
      PolicyManager_init Reference.py_str Example.policy_doc
        (Example.answering (PList [])) = Ok pm /\
      registry_response_data pm = PList []) /\
  forall strptime strftime now w,
    resolve strptime strftime Reference.py_str Example.policy_doc
      (Example.answering (PList [])) now w = (Raise AttributeError, w).
Proof.
  split.
  - eexists. split; reflexivity.
  - reflexivity.
Qed.

(** The scenarios of the specification. *)

Example scenario_first_item_matches :
  resolve Reference.strptime Reference.strftime Reference.py_str
    Example.policy_doc
    (Example.answering (PDict [("data", PList [Example.item_a; Example.item_b])]))
    Example.now Example.nothing_cached =
  (Ok (PStr "https://a.example/mcp"),
   {| cache_file :=
        Holds (PDict [("cached_mcp",
                       PList [Example.entry Example.item_a
                                "03.11.2026 10:01:00"])]);
      writes := 1;
      read_only := false;
      dump_error := fun _ => None |}).
Proof. reflexivity. Qed.

Example scenario_registry_down_entry_cached :
  resolve Reference.strptime Reference.strftime Reference.py_str
    Example.policy_doc Example.unreachable Example.now Example.one_cached =
  (Ok (PStr "https://a.example/mcp"), Example.one_cached).
Proof. reflexivity. Qed.

Example scenario_registry_down_nothing_cached :
  resolve Reference.strptime Reference.strftime Reference.py_str
    Example.policy_doc Example.unreachable Example.now Example.nothing_cached =
  (Ok PNone, Example.nothing_cached).
Proof. reflexivity. Qed.

(** C7.  What [load_cache] does in each state of the cache file.  A missing
    file and text that is not JSON give the empty cache.  When the file
    exists and its bytes are not text in the default encoding, or it cannot
    be opened, the exception reaches the caller: only
    [json.JSONDecodeError] is caught. *)
Theorem load_cache_by_file_state :
  forall w,
    load_cache w =
    (match cache_file w with
     | Absent | Malformed => Ok empty_cache
     | Holds v => Ok v
     | Undecodable => Raise UnicodeDecodeError
     | Directory => Raise IsADirectoryError
     | Denied => Raise PermissionError
     end, w).
Proof. intros w. unfold load_cache. by destruct (cache_file w). Qed.

(** * The request URL *)

Lemma append_cons c s t : String c s +:+ t = String c (s +:+ t).
Proof. reflexivity. Qed.

Lemma rstrip_marks s :
  exists n,
    s = rstrip "?" s +:+ marks n /\ ends_with "?" (rstrip "?" s) = false.
Proof.
  induction s as [|c r (n & Hn & He)].
  - by exists 0%nat.
  - simpl. destruct (rstrip "?" r) as [|a r'] eqn:E.
    + simpl in Hn. rewrite orb_false_r. destruct (Ascii.eqb c "?") eqn:Ec.
      * apply Ascii.eqb_eq in Ec. subst c. exists (S n). split; [|done].
        simpl. by rewrite Hn at 1.
      * exists n. split; [|by simpl; rewrite Ec].
        rewrite append_cons. simpl. by rewrite Hn at 1.
    + exists n. split.
      * rewrite append_cons. by rewrite Hn at 1.
      * done.
Qed.

Lemma count_char_app c s t :
  count_char c (s +:+ t) = (count_char c s + count_char c t)%nat.
Proof.
  induction s as [|a r IH]; [done|]. rewrite append_cons. simpl.
  rewrite IH. lia.
Qed.

(** What [build_url] does for every base: it takes the '?' characters off
    the end of the base, all of them and only those, then puts a '?' and the
    criteria as key=value pairs joined by '&'. *)
Lemma build_url_strips_trailing_marks (py_str : pyval -> string)
    (base : string) (criteria : list (string * pyval)) :
  exists stem n,
    base = stem +:+ marks n /\
    ends_with "?" stem = false /\
    build_url py_str base criteria = stem +:+ "?" +:+ query py_str criteria.
Proof.
  destruct (rstrip_marks base) as (n & Hn & He).
  exists (rstrip "?" base), n. by repeat split.
Qed.

(** C8.  [build_url] does not give a URL with a single '?' for every base.
    [rstrip] takes the '?' characters off the end of the base only, so a '?'
    that the base contains elsewhere stays, and the URL has one '?' more
    than the base without its trailing marks and the rendered criteria have
    together.  For the base "https://registry.example/discover?v=1" the URL
    has two, against the comment in the code ("Ensure single '?'"), its
    docstring ("may include '?'") and the claim, which has the contained '?'
    stripped. *)
Theorem build_url_keeps_inner_marks :
  (forall py_str base criteria,
      count_char "?" (build_url py_str base criteria) =
      S (count_char "?" (rstrip "?" base) +
         count_char "?" (query py_str criteria))) /\
  build_url Reference.py_str "https://registry.example/discover?v=1"
    default_criteria =
  "https://registry.example/discover?v=1?limit=3&q=recipe&tags=nutrition&type=tool&verified=true" /\
  count_char "?"
    (build_url Reference.py_str "https://registry.example/discover?v=1"
       default_criteria) = 2%nat /\
  build_url Reference.py_str "https://registry.example/discover?v=1"
    default_criteria <>
  url_any_mark_stripped Reference.py_str
    "https://registry.example/discover?v=1" default_criteria.
Proof.
  split; [|split; [|split]].
  - intros py_str base criteria. unfold build_url, query.
    rewrite !count_char_app. simpl. lia.
  - reflexivity.
  - reflexivity.
  - vm_compute. discriminate.
Qed.

(** * What reaches the cache file *)

Lemma save_cache_effect cache w :
  (exists e, save_cache cache w = (Raise e, w)) \/
  save_cache cache w = (Ok tt, written w cache) \/
  (exists e, dump_error w cache = Some e /\
             save_cache cache w = (Raise e, truncated w)).
Proof.
  unfold save_cache, _save_json, iobind, open_for_writing, json_dump, written,
    truncated.
  destruct (cache_file w), (read_only w); simpl; eauto;
    destruct (dump_error w cache) as [e|]; eauto.
Qed.

Lemma iobind_lift {A B} (c : result A) (k : A -> io B) w :
  iobind (lift c) k w =
  match c with
  | Ok a => k a w
  | Raise e => (Raise e, w)
  end.
Proof. unfold iobind, lift. by destruct c. Qed.

Lemma iobind_load_cache {B} (k : pyval -> io B) w :
  iobind load_cache k w =
  match fst (load_cache w) with
  | Ok cache => k cache w
  | Raise e => (Raise e, w)
  end.
Proof.
  unfold iobind. rewrite (load_cache_eq w). simpl.
  by destruct (fst (load_cache w)).
Qed.

Lemma written_changes w cache : written w cache <> w.
Proof.
  intros H. apply (f_equal writes) in H. simpl in H. lia.
Qed.

Lemma truncated_changes w : truncated w <> w.
Proof.
  intros H. apply (f_equal writes) in H. simpl in H. lia.
Qed.

Section Effects.

Variable strptime : string -> option datetime.
Variable strftime : datetime -> string.

(** The four ways in which a call of [update_cache] ends: it raises before
    the file is opened for writing; it finds the entry fresh; it writes the
    file; the write fails after the file has been opened. *)
Lemma update_cache_effect item criteria now w :
  (exists e, update_cache strptime strftime item criteria now w = (Raise e, w)) \/
  update_cache strptime strftime item criteria now w = (Ok tt, w) \/
  (exists doc,
      update_cache strptime strftime item criteria now w =
        (Ok tt, written w doc)) \/
  (exists doc e,
      dump_error w doc = Some e /\
      update_cache strptime strftime item criteria now w =
        (Raise e, truncated w)).
Proof.
  unfold update_cache. rewrite iobind_lift.
  destruct (py_getitem item "url") as [endpoint|e]; [|eauto].
  rewrite iobind_load_cache.
  destruct (fst (load_cache w)) as [cache|e]; [|eauto].
  rewrite iobind_lift.
  destruct (cached <- py_get cache "cached_mcp" (PList []);; py_iter cached)
    as [entries|e]; [|eauto].
  rewrite iobind_lift.
  destruct (find_existing item entries) as [existing|e]; [|eauto].
  rewrite iobind_lift.
  match goal with |- context [match ?c with Ok _ => _ | Raise _ => _ end] =>
    destruct c as [fresh|e]; [|eauto] end.
  destruct fresh; [right; left; reflexivity|].
  rewrite iobind_lift.
  match goal with |- context [match ?c with Ok _ => _ | Raise _ => _ end] =>
    destruct c as [cache'|e]; [|eauto] end.
  destruct (save_cache_effect cache' w) as [[e ->] | [-> | (e & He & ->)]];
    eauto 8.
Qed.


(** The steps of the live phase after the match. *)
Lemma resolve_live pm now w item :
  match_policy_and_get_url pm = Ok item ->
  truthy item = true ->
  get_verifiable_mcp_endpoint strptime strftime pm now w =
  match (_ <- py_getitem item "name" ;;
         _ <- py_getitem item "url" ;;
         _ <- py_getitem item "relevance_score" ;;
         py_getitem item "uptime") with
  | Raise e => (Raise e, w)
  | Ok _ =>
      match py_get (policies pm) "cache_mcp_servers_policy" PNone with
      | Raise e => (Raise e, w)
      | Ok enabled =>
          if truthy enabled then
            match update_cache strptime strftime item (PDict default_criteria)
                    now w with
            | (Ok _, w') => (py_getitem item "url", w')
            | (Raise e, w') => (Raise e, w')
            end
          else (py_getitem item "url", w)
      end
  end.
Proof.
  intros Hm Ht. unfold get_verifiable_mcp_endpoint.
  rewrite iobind_lift, Hm, Ht, iobind_lift.
  match goal with |- context [match ?c with Ok _ => _ | Raise _ => _ end] =>
    destruct c as [?|e]; [|done] end.
  rewrite iobind_lift.
  destruct (py_get (policies pm) "cache_mcp_servers_policy" PNone)
    as [enabled|e]; [|done].
  destruct (truthy enabled).
  - unfold iobind at 1.
    destruct (update_cache strptime strftime item (PDict default_criteria) now w)
      as [[[]|e] w']; [|done].
    unfold lift. done.
  - unfold iobind at 1, ioret, lift. done.
Qed.

Lemma resolve_fallback_world pm now w item :
  match_policy_and_get_url pm = Ok item ->
  truthy item = false ->
  snd (get_verifiable_mcp_endpoint strptime strftime pm now w) = w.
Proof.
  intros Hm Ht. unfold get_verifiable_mcp_endpoint.
  rewrite iobind_lift, Hm, Ht, iobind_load_cache.
  destruct (fst (load_cache w)); [|done].
  unfold lift. done.
Qed.

(** X2. The resolution touches the cache file only after a live match, and
    only when the policy enables caching.  If the file differs after
    [get_verifiable_mcp_endpoint], then the registry response had a matching
    item and the policy's [cache_mcp_servers_policy] is true (truthy); and
    either the file was written once and the call returned the item's URL,
    or [json.dump] raised after the file had been opened, the call raised
    that exception and the file holds no document.  So the cache-fallback phase, a resolution
    that fails before the write and a resolution under a policy that
    disables caching leave the file alone. *)
Theorem resolve_writes_only_after_live_match pm now w :
  let r := get_verifiable_mcp_endpoint strptime strftime pm now w in
  snd r <> w ->
  exists item enabled url,
    match_policy_and_get_url pm = Ok item /\ truthy item = true /\
    py_get (policies pm) "cache_mcp_servers_policy" PNone = Ok enabled /\
    truthy enabled = true /\
    field "url" item = Some url /\
    ((exists doc, r = (Ok url, written w doc)) \/
     (exists doc e,
         dump_error w doc = Some e /\ r = (Raise e, truncated w))).
Proof.
  intros r. subst r.
  destruct (match_policy_and_get_url pm) as [item|e] eqn:Hm.
  2:{ unfold get_verifiable_mcp_endpoint. rewrite iobind_lift, Hm. done. }
  destruct (truthy item) eqn:Ht.
  2:{ rewrite (resolve_fallback_world pm now w item Hm Ht). done. }
  rewrite (resolve_live pm now w item Hm Ht).
  match goal with |- context [match ?c with Ok _ => _ | Raise _ => _ end] =>
    destruct c as [?|e] eqn:Hp; [|done] end.
  destruct (py_get (policies pm) "cache_mcp_servers_policy" PNone)
    as [enabled|e] eqn:He; [|done].
  destruct (truthy enabled) eqn:Hen; [|done].
  apply bind_Ok in Hp as (? & _ & Hp).
  apply bind_Ok in Hp as (url & Hu & _).
  destruct (update_cache_effect item (PDict default_criteria) now w)
    as [[e ->] | [-> | [[doc ->] | (doc & e & Hd & ->)]]]; [done| | |].
  - rewrite Hu. done.
  - intros _. exists item, enabled, url.
    rewrite Hu. apply py_getitem_field in Hu. do 5 (split; [done|]).
    left. by exists doc.
  - intros _. exists item, enabled, url.
    apply py_getitem_field in Hu. do 5 (split; [done|]).
    right. by exists doc, e.
Qed.

End Effects.

(** * The resolution as a whole *)

Lemma first_match_inv vp items r :
  first_match vp items = Ok r ->
  r = PNone \/ (r ∈ items /\ meets_qualifiers vp r = Ok true).
Proof.
  induction items as [|item items IH]; simpl; intros H.
  - left. by inversion H.
  - apply bind_Ok in H as ([] & Hc & H).
    + inversion H. subst r. right. split; [constructor|done].
    + destruct (IH H) as [->|[Hin Hm]]; [by left|right].
      split; [by constructor|done].
Qed.

Lemma match_policy_inv pm r :
  match_policy_and_get_url pm = Ok r ->
  r = PNone \/
  exists data items,
    py_get (registry_response_data pm) "data" (PList []) = Ok data /\
    py_iter data = Ok items /\ r ∈ items /\
    _item_passes_policy pm r = Ok true.
Proof.
  unfold match_policy_and_get_url, _item_passes_policy. intros H.
  apply bind_Ok in H as (vp & Hvp & H).
  apply bind_Ok in H as (data & Hd & H).
  apply bind_Ok in H as (items & Hi & H).
  destruct (first_match_inv vp items r H) as [->|[Hin Hm]]; [by left|right].
  exists data, items. rewrite Hvp. done.
Qed.

(** An item that passed the four tests has the four fields. *)
Lemma passes_policy_fields pm item :
  _item_passes_policy pm item = Ok true ->
  is_some (field "verified" item) = true /\
  is_some (field "provider" item) = true /\
  is_some (field "relevance_score" item) = true /\
  is_some (field "uptime" item) = true.
Proof.
  unfold _item_passes_policy. intros H.
  apply bind_Ok in H as (vp & _ & H).
  unfold meets_qualifiers in H.
  apply py_and_Ok in H as [[_ ?]|[H1 H]]; [done|].
  apply py_and_Ok in H as [[_ ?]|[H2 H]]; [done|].
  apply py_and_Ok in H as [[_ ?]|[H3 H4]]; [done|].
  apply bind_Ok in H1 as (? & H1 & _). apply py_getitem_field in H1.
  apply bind_Ok in H2 as (? & H2 & _). apply py_getitem_field in H2.
  apply bind_Ok in H3 as (? & H3 & _). apply py_getitem_field in H3.
  apply bind_Ok in H4 as (? & H4 & _). apply py_getitem_field in H4.
  by rewrite H1, H2, H3, H4.
Qed.

Lemma field_truthy k v x : field k v = Some x -> truthy v = true.
Proof.
  intros H. destruct (truthy v) eqn:E; [done|].
  by rewrite (falsy_no_field k v E) in H.
Qed.

Lemma field_getitem k v x : field k v = Some x -> py_getitem v k = Ok x.
Proof. apply py_getitem_field. Qed.

Lemma no_field_getitem k v :
  is_dict v = true -> field k v = None ->
  py_getitem v k = Raise (KeyError k).
Proof.
  destruct v; try done. simpl. intros _ ->. done.
Qed.

Lemma passes_policy_dict pm item :
  _item_passes_policy pm item = Ok true ->
  is_dict item = true /\ truthy item = true.
Proof.
  intros H. destruct (passes_policy_fields pm item H) as (Hv & _).
  destruct (field "verified" item) as [x|] eqn:E; [|done].
  split; [|by apply (field_truthy "verified" item x)].
  by destruct item.
Qed.

(** The entries that the fallback iterates over, when one of them is
    returned. *)
Lemma cached_entries_inv pm cache r :
  (cached <- py_get cache "cached_mcp" (PList []) ;;
   entries <- py_iter cached ;;
   first_passing pm entries) = Ok r ->
  r <> PNone ->
  first_passing pm (entries_of cache) = Ok r.
Proof.
  intros H Hr.
  apply bind_Ok in H as (cached & Hcached & H).
  apply bind_Ok in H as (entries & Hentries & H).
  assert (Hl : entries = entries_of cache); [|by subst entries].
  unfold py_get in Hcached. unfold entries_of, field.
  destruct cache as [ | | | | | |d]; try discriminate.
  destruct (dict_lookup "cached_mcp" d) as [x|];
    inversion Hcached; subst cached; clear Hcached.
  - destruct x; try discriminate; simpl in Hentries;
      inversion Hentries; subst entries; clear Hentries; try done.
    + contradict Hr. by apply (first_passing_strs pm _ r (chars_strs s)).
    + contradict Hr. refine (first_passing_strs pm _ r _ H).
      apply Forall_forall. intros x Hx. apply list_elem_of_In in Hx.
      apply in_map_iff in Hx as (kv & <- & _). done.
  - simpl in Hentries. by inversion Hentries.
Qed.

Section Resolved.

Variable strptime : string -> option datetime.
Variable strftime : datetime -> string.

(** An endpoint returned by the live phase. *)
Lemma live_endpoint_inv pm now w item r w' :
  match_policy_and_get_url pm = Ok item ->
  truthy item = true ->
  get_verifiable_mcp_endpoint strptime strftime pm now w = (Ok r, w') ->
  qualifies (policy_metrics pm) item = true /\
  field "url" item = Some r /\
  exists data items,
    py_get (registry_response_data pm) "data" (PList []) = Ok data /\
    py_iter data = Ok items /\ item ∈ items.
Proof.
  intros Hm Ht H.
  destruct (match_policy_inv pm item Hm)
    as [->|(data & items & Hd & Hi & Hin & Hp)]; [done|].
  split; [by apply item_passes_policy_sound|].
  split; [|by exists data, items].
  rewrite (resolve_live strptime strftime pm now w item Hm Ht) in H.
  destruct (_ <- py_getitem item "name";; _) as [?|?]; [|done].
  destruct (py_get (policies pm) "cache_mcp_servers_policy" PNone)
    as [enabled|?]; [|done].
  destruct (truthy enabled).
  - destruct (update_cache _ _ _ _ _ _) as [[[]|?] ?]; [|done].
    inversion H as [[Hu Hw]]. by apply py_getitem_field.
  - inversion H as [[Hu Hw]]. by apply py_getitem_field.
Qed.

(** An endpoint returned by the cache fallback. *)
Lemma cached_endpoint_inv pm now w live r w' :
  match_policy_and_get_url pm = Ok live ->
  truthy live = false ->
  get_verifiable_mcp_endpoint strptime strftime pm now w = (Ok r, w') ->
  r <> PNone ->
  exists item cache e,
    qualifies (policy_metrics pm) item = true /\
    w' = w /\ load_cache w = (Ok cache, w) /\
    e ∈ entries_of cache /\
    field "data_item" e = Some item /\
    field "mcp_endpoint" e = Some r.
Proof.
  intros Hm Ht H Hr. unfold get_verifiable_mcp_endpoint in H.
  rewrite iobind_lift, Hm, Ht, iobind_load_cache in H.
  destruct (fst (load_cache w)) as [cache|] eqn:Ec; [|done].
  unfold lift in H. injection H as H' Hw. subst w'.
  apply cached_entries_inv in H'; [|done].
  destruct (first_passing_inv pm _ r H' Hr)
    as (i & e & it & Hi & Hf & Hp & He & _).
  exists it, cache, e. split; [by apply item_passes_policy_sound|].
  rewrite (load_cache_eq w), Ec.
  split; [done|]. split; [done|].
  split; [by apply (list_elem_of_lookup_2 _ i)|done].
Qed.

(** X3. Whatever the registry answered and whatever the cache file holds,
    an endpoint that [get_verifiable_mcp_endpoint] returns belongs to an item
    that passes all four tests of the current policy: either an item of the
    registry response, whose URL is returned, or the item stored in an entry
    of the cache file, whose stored endpoint is returned with the file left
    as it was. *)
Theorem resolved_endpoint_is_qualified pm now w r w' :
  get_verifiable_mcp_endpoint strptime strftime pm now w = (Ok r, w') ->
  r <> PNone ->
  exists item,
    qualifies (policy_metrics pm) item = true /\
    ((exists data items,
         py_get (registry_response_data pm) "data" (PList []) = Ok data /\
         py_iter data = Ok items /\ item ∈ items /\
         field "url" item = Some r) \/
     (exists cache e,
         w' = w /\ load_cache w = (Ok cache, w) /\
         e ∈ entries_of cache /\
         field "data_item" e = Some item /\
         field "mcp_endpoint" e = Some r)).
Proof.
  intros H Hr.
  destruct (match_policy_and_get_url pm) as [live|e] eqn:Hm.
  2:{ unfold get_verifiable_mcp_endpoint in H.
      rewrite iobind_lift, Hm in H. done. }
  destruct (truthy live) eqn:Ht.
  - destruct (live_endpoint_inv pm now w live r w' Hm Ht H)
      as (Hq & Hu & data & items & Hd & Hi & Hin).
    exists live. split; [done|]. left. by exists data, items.
  - destruct (cached_endpoint_inv pm now w live r w' Hm Ht H Hr)
      as (item & cache & e & Hq & Hw & Hl & Hin & Hf & He).
    exists item. split; [done|]. right. by exists cache, e.
Qed.

(** X4. With caching disabled by the policy, a live match is returned
    without looking at the cache file: if the matching item has a name and a
    URL and [cache_mcp_servers_policy] is false (falsy), the resolution
    returns the item's URL in every state of the file, unreadable ones
    included, and leaves the file as it is. *)
Theorem live_match_ignores_cache_when_disabled pm now item name url enabled :
  match_policy_and_get_url pm = Ok item ->
  field "name" item = Some name ->
  field "url" item = Some url ->
  py_get (policies pm) "cache_mcp_servers_policy" PNone = Ok enabled ->
  truthy enabled = false ->
  forall w,
    get_verifiable_mcp_endpoint strptime strftime pm now w = (Ok url, w).
Proof.
  intros Hm Hn Hu He Hen w.
  pose proof (field_truthy _ _ _ Hu) as Ht.
  destruct (match_policy_inv pm item Hm)
    as [->|(data & items & _ & _ & _ & Hp)]; [done|].
  destruct (passes_policy_fields pm item Hp) as (_ & _ & Hr & Hup).
  destruct (field "relevance_score" item) as [x|] eqn:Ex; [|done].
  destruct (field "uptime" item) as [y|] eqn:Ey; [|done].
  rewrite (resolve_live strptime strftime pm now w item Hm Ht).
  rewrite (field_getitem _ _ _ Hn), (field_getitem _ _ _ Hu),
    (field_getitem _ _ _ Ex), (field_getitem _ _ _ Ey). simpl.
  by rewrite He, Hen.
Qed.

(** X5. A cache file that cannot be read fails the resolution even when
    the registry has a match.  If [load_cache] raises on the file (it is a
    directory, it may not be read, it is not UTF-8), then
    [get_verifiable_mcp_endpoint] raises the same exception both when there
    is no live match and when there is one and the policy enables caching;
    the URL of the live match is not returned. *)
Theorem unreadable_cache_fails_resolution pm now w err :
  load_cache w = (Raise err, w) ->
  (match_policy_and_get_url pm = Ok PNone ->
   get_verifiable_mcp_endpoint strptime strftime pm now w = (Raise err, w)) /\
  (forall item name url enabled,
      match_policy_and_get_url pm = Ok item ->
      field "name" item = Some name ->
      field "url" item = Some url ->
      py_get (policies pm) "cache_mcp_servers_policy" PNone = Ok enabled ->
      truthy enabled = true ->
      get_verifiable_mcp_endpoint strptime strftime pm now w = (Raise err, w)).
Proof.
  intros Hl. split.
  - intros Hm. by rewrite (resolve_fallback strptime strftime pm now w Hm), Hl.
  - intros item name url enabled Hm Hn Hu He Hen.
    pose proof (field_truthy _ _ _ Hu) as Ht.
    destruct (match_policy_inv pm item Hm)
      as [->|(data & items & _ & _ & _ & Hp)]; [done|].
    destruct (passes_policy_fields pm item Hp) as (_ & _ & Hr & Hup).
    destruct (field "relevance_score" item) as [x|] eqn:Ex; [|done].
    destruct (field "uptime" item) as [y|] eqn:Ey; [|done].
    rewrite (resolve_live strptime strftime pm now w item Hm Ht).
    rewrite (field_getitem _ _ _ Hn), (field_getitem _ _ _ Hu),
      (field_getitem _ _ _ Ex), (field_getitem _ _ _ Ey). simpl.
    rewrite He, Hen. unfold update_cache.
    by rewrite iobind_lift, (field_getitem _ _ _ Hu), iobind_load_cache, Hl.
Qed.

(** X6. The fields that are only printed are required.  A matching item of
    the registry response without a "name" makes the resolution raise
    [KeyError] on that key, and one with a name and without a "url" raises
    it on "url"; in both cases nothing is returned and the cache file is not
    touched, whatever the policy says about caching. *)
Theorem live_match_needs_name_and_url pm now w item :
  match_policy_and_get_url pm = Ok item ->
  item <> PNone ->
  (field "name" item = None ->
   get_verifiable_mcp_endpoint strptime strftime pm now w =
     (Raise (KeyError "name"), w)) /\
  (is_some (field "name" item) = true -> field "url" item = None ->
   get_verifiable_mcp_endpoint strptime strftime pm now w =
     (Raise (KeyError "url"), w)).
Proof.
  intros Hm Hne.
  destruct (match_policy_inv pm item Hm)
    as [->|(data & items & _ & _ & _ & Hp)]; [done|].
  destruct (passes_policy_dict pm item Hp) as [Hd Ht].
  rewrite (resolve_live strptime strftime pm now w item Hm Ht).
  split.
  - intros Hn. by rewrite (no_field_getitem _ _ Hd Hn).
  - intros Hn Hu. destruct (field "name" item) as [n|] eqn:En; [|done].
    rewrite (field_getitem _ _ _ En). simpl.
    by rewrite (no_field_getitem _ _ Hd Hu).
Qed.

End Resolved.

(** * The trust cache across calls *)

Lemma field_with_entries cache l k :
  k <> "cached_mcp" -> field k (with_entries cache l) = field k cache.
Proof.
  intros Hk. destruct cache; try done. simpl.
  by apply dict_lookup_set_ne.
Qed.

Lemma first_of_id_app_new i l entry :
  first_of_id i l = None -> has_id i entry = true ->
  first_of_id i (l ++ [entry]) = Some (length l, entry).
Proof.
  intros Hn He. apply first_of_id_Some. split; [|split; [done|]].
  - by rewrite lookup_app_r, Nat.sub_diag.
  - intros j e' Hj He'. rewrite lookup_app_l in He' by done.
    apply (first_of_id_None i l Hn). by apply (list_elem_of_lookup_2 _ j).
Qed.

Lemma first_of_id_insert i l p e entry :
  first_of_id i l = Some (p, e) -> has_id i entry = true ->
  first_of_id i (<[p:=entry]> l) = Some (p, entry).
Proof.
  intros Hs He. apply first_of_id_Some in Hs as (Hp & _ & Hb).
  apply first_of_id_Some. split; [|split; [done|]].
  - apply list_lookup_insert_eq. by apply lookup_lt_Some in Hp.
  - intros j e' Hj He'. rewrite list_lookup_insert_ne in He' by lia.
    by apply (Hb j).
Qed.

Lemma forallb_app_one {A} (p : A -> bool) l x :
  forallb p l = true -> p x = true -> forallb p (l ++ [x]) = true.
Proof. intros Hl Hx. rewrite forallb_app. simpl. by rewrite Hl, Hx. Qed.

Section Calls.

Variable strptime : string -> option datetime.
Variable strftime : datetime -> string.

(** The list of entries that an upsert writes. *)
Lemma upserted_entries item criteria now cache i :
  wf_item item = true -> is_dict criteria = true ->
  item_id item = Some i ->
  wf_cache cache = true ->
  let entry := new_entry strftime item criteria (url_of item) now in
  let l :=
    match first_of_id i (entries_of cache) with
    | Some (p, e) => <[p:=entry]> (entries_of cache)
    | None => entries_of cache ++ [entry]
    end in
  forallb wf_entry l = true /\
  exists p,
    first_of_id i l = Some (p, entry) /\
    ((first_of_id i (entries_of cache) = None /\
      l = entries_of cache ++ [entry]) \/
     (exists e, first_of_id i (entries_of cache) = Some (p, e) /\
                l = <[p:=entry]> (entries_of cache))).
Proof.
  intros Hi Hc Hid Hw entry l. subst l.
  destruct (wf_cache_entries cache Hw) as [_ Hes].
  assert (He : wf_entry entry = true) by by apply wf_new_entry.
  assert (Hh : has_id i entry = true).
  { apply has_id_true. unfold entry. by rewrite entry_id_new_entry. }
  destruct (first_of_id i (entries_of cache)) as [[p e]|] eqn:Ef.
  - split; [by apply forallb_insert|]. exists p.
    split; [by apply (first_of_id_insert i _ p e)|]. right. by exists e.
  - split; [by apply forallb_app_one|]. exists (length (entries_of cache)).
    split; [by apply first_of_id_app_new|]. by left.
Qed.

(** What the file holds after any upsert: what it held, what the upsert
    wrote, or no document. *)
Lemma update_cache_after item criteria now w cache i :
  wf_item item = true -> is_dict criteria = true ->
  item_id item = Some i ->
  load_cache w = (Ok cache, w) ->
  wf_cache cache = true ->
  snd (update_cache strptime strftime item criteria now w) = w \/
  (exists p l,
     update_cache strptime strftime item criteria now w =
       (Ok tt, written w (with_entries cache l)) /\
     forallb wf_entry l = true /\
     first_of_id i l =
       Some (p, new_entry strftime item criteria (url_of item) now) /\
     ((first_of_id i (entries_of cache) = None /\
       l = entries_of cache ++
             [new_entry strftime item criteria (url_of item) now]) \/
      (exists e, first_of_id i (entries_of cache) = Some (p, e) /\
                 l = <[p:=new_entry strftime item criteria (url_of item) now]>
                       (entries_of cache)))) \/
  (exists doc e,
     dump_error w doc = Some e /\
     update_cache strptime strftime item criteria now w =
       (Raise e, truncated w)).
Proof.
  intros Hi Hc Hid Hl Hw.
  destruct (upserted_entries item criteria now cache i Hi Hc Hid Hw)
    as (Hwf & p & Hf & Hcase).
  assert (Hsave : forall l,
    forallb wf_entry l = true ->
    first_of_id i l =
      Some (p, new_entry strftime item criteria (url_of item) now) ->
    ((first_of_id i (entries_of cache) = None /\
      l = entries_of cache ++
            [new_entry strftime item criteria (url_of item) now]) \/
     (exists e, first_of_id i (entries_of cache) = Some (p, e) /\
                l = <[p:=new_entry strftime item criteria (url_of item) now]>
                      (entries_of cache))) ->
    snd (save_cache (with_entries cache l) w) = w \/
    (exists p l0,
       save_cache (with_entries cache l) w =
         (Ok tt, written w (with_entries cache l0)) /\
       forallb wf_entry l0 = true /\
       first_of_id i l0 =
         Some (p, new_entry strftime item criteria (url_of item) now) /\
       ((first_of_id i (entries_of cache) = None /\
         l0 = entries_of cache ++
               [new_entry strftime item criteria (url_of item) now]) \/
        (exists e, first_of_id i (entries_of cache) = Some (p, e) /\
                   l0 = <[p:=new_entry strftime item criteria (url_of item) now]>
                          (entries_of cache)))) \/
    (exists doc e,
       dump_error w doc = Some e /\
       save_cache (with_entries cache l) w = (Raise e, truncated w))).
  { intros l H1 H2 H3. rewrite (save_cache_outcome w cache _ Hl).
    destruct (read_only w); [by left|].
    destruct (dump_error w (with_entries cache l)) as [e|] eqn:Ed.
    - right. right. by exists (with_entries cache l), e.
    - right. left. by exists p, l. }
  rewrite (update_cache_cases strptime strftime item criteria now w cache i
             Hi Hid Hl Hw).
  destruct (first_of_id i (entries_of cache)) as [[q e]|] eqn:Ef.
  - destruct (strptime (last_cached_of e)) as [last|]; [|by left].
    destruct (last >? now - timedelta_hours 72); [by left|].
    by apply Hsave.
  - by apply Hsave.
Qed.

(** What the file holds after an upsert that wrote it. *)
Lemma update_cache_wrote item criteria now w cache i :
  wf_item item = true -> is_dict criteria = true ->
  item_id item = Some i ->
  load_cache w = (Ok cache, w) ->
  wf_cache cache = true ->
  takes_writes w ->
  snd (update_cache strptime strftime item criteria now w) <> w ->
  let entry := new_entry strftime item criteria (url_of item) now in
  exists p l,
    update_cache strptime strftime item criteria now w =
      (Ok tt, written w (with_entries cache l)) /\
    forallb wf_entry l = true /\
    first_of_id i l = Some (p, entry) /\
    ((first_of_id i (entries_of cache) = None /\
      l = entries_of cache ++ [entry]) \/
     (exists e, first_of_id i (entries_of cache) = Some (p, e) /\
                l = <[p:=entry]> (entries_of cache))).
Proof.
  intros Hi Hc Hid Hl Hw [_ Hd] Hne entry.
  destruct (update_cache_after item criteria now w cache i Hi Hc Hid Hl Hw)
    as [H | [H | (doc & e & He & _)]]; [done|done|].
  by rewrite Hd in He.
Qed.

(** X7. Upsert twice.  After an upsert of a well-formed item that wrote the
    cache file at time [now], on a file that takes the writes, a second
    upsert of an item of the same id, at a time less than 72 hours after the
    stamp that was written, returns without writing: the file is written
    once, not twice.  The stamp is the formatted time read back,
    [strptime (strftime now)]. *)
Theorem upsert_twice_writes_once
    item criteria now w cache i item' criteria' now' stamp :
  wf_item item = true -> is_dict criteria = true ->
  item_id item = Some i ->
  load_cache w = (Ok cache, w) ->
  wf_cache cache = true ->
  takes_writes w ->
  snd (update_cache strptime strftime item criteria now w) <> w ->
  wf_item item' = true ->
  item_id item' = Some i ->
  strptime (strftime now) = Some stamp ->
  now' - stamp < timedelta_hours 72 ->
  exists w1,
    update_cache strptime strftime item criteria now w = (Ok tt, w1) /\
    writes w1 = S (writes w) /\
    update_cache strptime strftime item' criteria' now' w1 = (Ok tt, w1).
Proof.
  intros Hi Hc Hid Hl Hw Htakes Hne Hi' Hid' Hs Hlt.
  destruct (update_cache_wrote item criteria now w cache i Hi Hc Hid Hl Hw
              Htakes Hne) as (p & l & Hu & Hwf & Hf & _).
  exists (written w (with_entries cache l)). split; [done|]. split; [done|].
  pose proof (wf_cache_is_dict cache Hw) as Hd.
  rewrite (update_cache_cases strptime strftime item' criteria' now' _
             (with_entries cache l) i Hi' Hid'
             (load_cache_written w _) (wf_cache_with_entries cache l Hd Hwf)).
  rewrite (entries_of_with_entries cache l Hd), Hf.
  change (last_cached_of (new_entry strftime item criteria (url_of item) now))
    with (strftime now).
  rewrite Hs.
  assert ((stamp >? now' - timedelta_hours 72) = true) as -> by lia.
  done.
Qed.

(** X8. An upsert keeps the rest of the cache.  For a well-formed item and
    cache, unless [json.dump] raises, after [update_cache] (whether it
    wrote, found the entry fresh or raised) the file still loads; every key
    of the cache document other than "cached_mcp" has the value it had;
    every entry is at the position it had, except that the first entry of
    the item's id may have been replaced; and the list of entries is as long
    as before or one longer. *)
Theorem upsert_keeps_the_rest item criteria now w cache i :
  wf_item item = true -> is_dict criteria = true ->
  item_id item = Some i ->
  load_cache w = (Ok cache, w) ->
  wf_cache cache = true ->
  dumps w ->
  let w1 := snd (update_cache strptime strftime item criteria now w) in
  exists cache1,
    load_cache w1 = (Ok cache1, w1) /\
    (forall k, k <> "cached_mcp" -> field k cache1 = field k cache) /\
    (forall j e, entries_of cache !! j = Some e ->
                 entries_of cache1 !! j = Some e \/
                 first_of_id i (entries_of cache) = Some (j, e)) /\
    (length (entries_of cache) <= length (entries_of cache1)
       <= S (length (entries_of cache)))%nat.
Proof.
  intros Hi Hc Hid Hl Hw Htakes w1. subst w1.
  destruct (update_cache_after item criteria now w cache i Hi Hc Hid Hl Hw)
    as [-> | [(p & l & -> & Hwf & Hf & Hcase) | (doc & e & He & _)]];
    [| |by rewrite Htakes in He].
  { exists cache. split; [done|]. split; [done|]. split; [by left|lia]. }
  pose proof (wf_cache_is_dict cache Hw) as Hd.
  exists (with_entries cache l). simpl.
  split; [apply load_cache_written|].
  split; [intros k Hk; by apply field_with_entries|].
  rewrite (entries_of_with_entries cache l Hd).
  destruct Hcase as [[Hn ->] | (e0 & He0 & ->)].
  - split; [|rewrite length_app; simpl; lia].
    intros j e Hj. left. by apply lookup_app_l_Some.
  - split; [|rewrite length_insert; lia].
    intros j e Hj. destruct (decide (j = p)) as [->|Hjp].
    + right. apply first_of_id_Some in He0 as (Hp & ?).
      rewrite Hp in Hj. inversion Hj. subst e0.
      by apply first_of_id_Some.
    + left. by rewrite list_lookup_insert_ne.
Qed.

(** X9. Live, then offline.  When a resolution finds a live match (a
    well-formed item), the policy enables caching and the upsert writes the
    cache file, which takes the write, a later resolution under the same qualifiers that finds no
    live match does not come back empty: it returns the endpoint of a cached
    entry and leaves the file alone.  If no cached entry of another id
    passes the policy, that endpoint is the URL that the live resolution
    returned. *)
Theorem live_then_offline pm pm' now now' w cache item i enabled :
  match_policy_and_get_url pm = Ok item ->
  wf_item item = true ->
  item_id item = Some i ->
  py_get (policies pm) "cache_mcp_servers_policy" PNone = Ok enabled ->
  truthy enabled = true ->
  load_cache w = (Ok cache, w) ->
  wf_cache cache = true ->
  takes_writes w ->
  snd (update_cache strptime strftime item (PDict default_criteria) now w)
    <> w ->
  policy_metrics pm' = policy_metrics pm ->
  match_policy_and_get_url pm' = Ok PNone ->
  exists w1 url,
    get_verifiable_mcp_endpoint strptime strftime pm now w =
      (Ok (url_of item), w1) /\
    get_verifiable_mcp_endpoint strptime strftime pm' now' w1 =
      (Ok (PStr url), w1) /\
    ((forall e, e ∈ entries_of cache -> has_id i e = false ->
                entry_qualifies (policy_metrics pm) e = false) ->
     url_of item = PStr url).
Proof.
  intros Hm Hi Hid He Hen Hl Hw Htakes Hne Hpm Hm'.
  destruct (update_cache_wrote item (PDict default_criteria) now w cache i
              Hi eq_refl Hid Hl Hw Htakes Hne)
    as (p & l & Hu & Hwf & Hf & Hcase).
  set (entry := new_entry strftime item (PDict default_criteria)
                  (url_of item) now) in *.
  set (w1 := written w (with_entries cache l)) in *.
  pose proof (wf_cache_is_dict cache Hw) as Hd.
  pose proof (wf_item_truthy item Hi) as Ht.
  destruct (wf_item_fields item Hi) as (_ & Hn & Hurl & Hcmp).
  destruct (comparable_item_fields item Hcmp) as (_ & _ & Hr & Hup).
  apply has_field in Hn as (n & _ & _ & Hn & _).
  apply has_field in Hurl as (u & Hfu & Hsu & Hgu & _).
  apply has_field in Hr as (r & _ & _ & Hr & _).
  apply has_field in Hup as (up & _ & _ & Hup & _).
  destruct (match_policy_inv pm item Hm)
    as [->|(data & items & _ & _ & _ & Hp)]; [done|].
  pose proof (item_passes_policy_sound pm item true Hp) as Hq.
  pose proof (qualifies_testable _ item Hcmp Hq) as Htest.
  assert (Hvp : exists vp, policy_lookup pm' = Ok vp).
  { unfold match_policy_and_get_url in Hm'.
    apply bind_Ok in Hm' as (vp & Hvp & _). by exists vp. }
  destruct Hvp as (vp & Hvp).
  assert (Hqe : entry_qualifies (policy_metrics pm) entry = true) by done.
  assert (Hpe : l !! p = Some entry).
  { by apply first_of_id_Some in Hf as (? & _). }
  assert (Hfind : exists e, List.find (entry_qualifies (policy_metrics pm)) l
                            = Some e).
  { destruct (List.find (entry_qualifies (policy_metrics pm)) l) as [e|] eqn:E;
      [by exists e|].
    rewrite (find_none _ _ E entry) in Hqe; [done|].
    apply list_elem_of_In. by apply (list_elem_of_lookup_2 _ p). }
  destruct Hfind as (e & Hfind).
  assert (Hwe : wf_entry e = true).
  { apply find_some in Hfind as [Hin _]. apply list_elem_of_In in Hin.
    by apply (forallb_elem_of _ l). }
  assert (Hend : exists url, endpoint_of e = PStr url).
  { unfold wf_entry in Hwe. do 4 (apply andb_prop in Hwe as [Hwe _]).
    apply has_field in Hwe as (x & Hx & Hs & _). unfold endpoint_of.
    rewrite Hx. simpl. destruct x; try done. by eexists. }
  destruct Hend as (url & Hend).
  exists w1, url. split; [|split].
  - rewrite (resolve_live strptime strftime pm now w item Hm Ht).
    rewrite Hn, Hgu, Hr, Hup. simpl. rewrite He, Hen, Hu.
    unfold url_of. by rewrite Hfu.
  - rewrite (resolve_fallback strptime strftime pm' now' w1 Hm').
    unfold w1 at 1. rewrite load_cache_written. simpl.
    destruct (wf_cache_entries _ (wf_cache_with_entries cache l Hd Hwf))
      as [Hget _].
    rewrite Hget. simpl. rewrite (entries_of_with_entries cache l Hd).
    rewrite (first_passing_testable pm' vp l Hvp); [|by rewrite Hpm|done].
    by rewrite Hpm, Hfind, <- Hend.
  - intros Hother.
    assert (Hfirst : List.find (entry_qualifies (policy_metrics pm)) l
                     = Some entry).
    { apply (find_first _ l p entry Hpe Hqe).
      intros j y Hj Hy.
      apply first_of_id_Some in Hf as (_ & Hhas & Hb).
      pose proof (Hb j y Hj Hy) as Hidy.
      apply Hother; [|done].
      destruct Hcase as [[_ ->] | (e0 & He0 & ->)].
      - apply lookup_app_Some in Hy as [Hy|[Hlen Hy]].
        + by apply (list_elem_of_lookup_2 _ j).
        + apply list_lookup_singleton_Some in Hy as [_ <-].
          by rewrite Hhas in Hidy.
      - rewrite list_lookup_insert_ne in Hy by lia.
        by apply (list_elem_of_lookup_2 _ j). }
    rewrite Hfirst in Hfind. inversion Hfind. subst e.
    rewrite <- Hend. unfold endpoint_of, entry. simpl. done.
Qed.

(** X10. An item without an "id" is cached once and then blocks the
    upsert.  With a cache that has no entries, in a file that takes the
    write, [update_cache] stores an item that has a URL and no id (the id is
    only read when there is an entry to compare with).  From then on every
    upsert of an item without an id raises [KeyError] on "id" and leaves the
    file as it is. *)
Theorem item_without_id_is_cached_once
    item url criteria now w cache item' criteria' now' :
  field "url" item = Some url ->
  field "id" item = None ->
  load_cache w = (Ok cache, w) ->
  wf_cache cache = true ->
  entries_of cache = [] ->
  takes_writes w ->
  is_dict item' = true ->
  field "url" item' <> None ->
  field "id" item' = None ->
  let w1 := written w (with_entries cache
                         [new_entry strftime item criteria url now]) in
  update_cache strptime strftime item criteria now w = (Ok tt, w1) /\
  update_cache strptime strftime item' criteria' now' w1 =
    (Raise (KeyError "id"), w1).
Proof.
  intros Hu Hid Hl Hw He Htakes Hd' Hu' Hid' w1.
  destruct (wf_cache_dict cache Hw) as (d & -> & Hd).
  rewrite He in Hd.
  assert (Hi : is_dict item = true) by by destruct item.
  split.
  - unfold update_cache.
    rewrite iobind_lift, (field_getitem _ _ _ Hu), iobind_load_cache, Hl.
    simpl fst. cbv iota. rewrite iobind_lift. simpl py_get. rewrite Hd. simpl.
    rewrite iobind_lift. simpl. rewrite iobind_lift. simpl.
    rewrite iobind_lift. simpl. rewrite Hd.
    by rewrite (load_cache_writable w _ _ Hl Htakes).
  - destruct (field "url" item') as [u'|] eqn:Eu; [|done].
    unfold update_cache.
    rewrite iobind_lift, (field_getitem _ _ _ Eu), iobind_load_cache.
    unfold w1 at 1. rewrite load_cache_written. simpl fst. cbv iota.
    rewrite iobind_lift. simpl py_get. rewrite dict_lookup_set_eq.
    simpl. rewrite iobind_lift.
    destruct item as [ | | | | | |di]; try done.
    destruct item' as [ | | | | | |di']; try done.
    simpl in Hid, Hid'. simpl. rewrite Hid, Hid'. done.
Qed.

End Calls.

(** * Policy matching on incomplete data *)

Lemma first_match_skip vp pre l :
  (forall y, y ∈ pre -> meets_qualifiers vp y = Ok false) ->
  first_match vp (pre ++ l) = first_match vp l.
Proof.
  induction pre as [|y pre IH]; intros H; [done|]. simpl.
  rewrite (H y) by constructor. simpl. apply IH.
  intros z Hz. apply H. by constructor.
Qed.

(** The first test decides when it fails: the other fields of the item and
    the other qualifiers are not read. *)
Lemma meets_qualifiers_not_verified pm vp item a q :
  policy_lookup pm = Ok vp ->
  field "verified" item = Some a ->
  qualifier (policy_metrics pm) "verified" = Some q ->
  py_eq a q = false ->
  meets_qualifiers vp item = Ok false.
Proof.
  intros Hvp Ha Hq He. unfold meets_qualifiers.
  rewrite (field_getitem _ _ _ Ha). simpl.
  apply (qualifier_value_spec pm vp "verified" q Hvp) in Hq.
  rewrite Hq. simpl. by rewrite He.
Qed.

Lemma test_true_clause op name pm vp item :
  policy_lookup pm = Ok vp ->
  test op name (policy_metrics pm) item = true ->
  clause op name vp item = Ok true.
Proof.
  intros Hvp. unfold test, clause.
  destruct (field name item) as [a|] eqn:Ea; [|done].
  destruct (qualifier (policy_metrics pm) name) as [q|] eqn:Eq; [|done].
  rewrite (field_getitem _ _ _ Ea). simpl.
  apply (qualifier_value_spec pm vp name q Hvp) in Eq. rewrite Eq. simpl.
  destruct (op a q) as [[]|]; done.
Qed.

Lemma no_metric_named pm vp ms name :
  policy_lookup pm = Ok vp ->
  policy_metrics pm = PList ms ->
  (forall m, m ∈ ms -> named name m = false) ->
  qualifier_value vp name = Raise (KeyError name).
Proof.
  intros Hvp Hms Hno. unfold policy_lookup in Hvp. rewrite Hms in Hvp.
  simpl in Hvp. unfold qualifier_value. simpl.
  rewrite (metrics_by_name_lookup ms [] vp name Hvp).
  assert (List.filter (named name) ms = []) as ->; [|done].
  clear Hvp Hms. induction ms as [|m ms IH]; [done|]. simpl.
  rewrite (Hno m) by constructor. apply IH.
  intros z Hz. apply Hno. by constructor.
Qed.

Section Incomplete.

Variable strptime : string -> option datetime.
Variable strftime : datetime -> string.

(** X11. One registry item without a "verified" field fails the whole
    resolution.  Items whose "verified" differs from the policy's value are
    skipped, whatever other fields they lack; the first item (a JSON object)
    that has no "verified" raises [KeyError] on that key.  The items after
    it are not examined, even if one of them qualifies, and the cache
    fallback is not tried: [get_verifiable_mcp_endpoint] raises and the file
    is as it was. *)
Theorem item_without_verified_fails_resolution pm now w pre x rest q :
  py_get (registry_response_data pm) "data" (PList []) =
    Ok (PList (pre ++ x :: rest)) ->
  (exists vp, policy_lookup pm = Ok vp) ->
  qualifier (policy_metrics pm) "verified" = Some q ->
  (forall y, y ∈ pre ->
             exists a, field "verified" y = Some a /\ py_eq a q = false) ->
  is_dict x = true ->
  field "verified" x = None ->
  match_policy_and_get_url pm = Raise (KeyError "verified") /\
  get_verifiable_mcp_endpoint strptime strftime pm now w =
    (Raise (KeyError "verified"), w).
Proof.
  intros Hd (vp & Hvp) Hq Hpre Hx Hv.
  assert (Hm : match_policy_and_get_url pm = Raise (KeyError "verified")).
  { unfold match_policy_and_get_url. rewrite Hvp, Hd. simpl.
    rewrite first_match_skip.
    - simpl. unfold meets_qualifiers.
      by rewrite (no_field_getitem _ _ Hx Hv).
    - intros y Hy. destruct (Hpre y Hy) as (a & Ha & He).
      by apply (meets_qualifiers_not_verified pm vp y a q). }
  split; [done|].
  unfold get_verifiable_mcp_endpoint. by rewrite iobind_lift, Hm.
Qed.

End Incomplete.

(** X12. A policy that lacks a qualifier is noticed only when an item gets
    as far as its test.  Let the policy have no metric named "uptime".  If
    every item of the registry response fails the "verified" test, the
    match is [None] as with a complete policy.  If the first item passes
    the tests of "verified", "provider" and "relevance_score" and has an
    "uptime", the match raises [KeyError] on "uptime". *)
Theorem missing_qualifier_is_noticed_late pm ms items q :
  policy_metrics pm = PList ms ->
  (exists vp, policy_lookup pm = Ok vp) ->
  (forall m, m ∈ ms -> named "uptime" m = false) ->
  py_get (registry_response_data pm) "data" (PList []) = Ok (PList items) ->
  qualifier (policy_metrics pm) "verified" = Some q ->
  ((forall y, y ∈ items ->
              exists a, field "verified" y = Some a /\ py_eq a q = false) ->
   match_policy_and_get_url pm = Ok PNone) /\
  (forall x rest,
      items = x :: rest ->
      verified_holds (policy_metrics pm) x = true ->
      provider_holds (policy_metrics pm) x = true ->
      relevance_holds (policy_metrics pm) x = true ->
      is_some (field "uptime" x) = true ->
      match_policy_and_get_url pm = Raise (KeyError "uptime")).
Proof.
  intros Hms (vp & Hvp) Hno Hd Hq. split.
  - intros Hall. unfold match_policy_and_get_url. rewrite Hvp, Hd. simpl.
    rewrite <- (app_nil_r items). rewrite first_match_skip; [done|].
    intros y Hy. destruct (Hall y Hy) as (a & Ha & He).
    by apply (meets_qualifiers_not_verified pm vp y a q).
  - intros x rest -> Hv Hp Hr Hu.
    unfold match_policy_and_get_url. rewrite Hvp, Hd. simpl.
    rewrite meets_qualifiers_clauses.
    rewrite (test_true_clause _ "verified" pm vp x Hvp Hv). simpl.
    rewrite (test_true_clause _ "provider" pm vp x Hvp Hp). simpl.
    rewrite (test_true_clause _ "relevance_score" pm vp x Hvp Hr). simpl.
    unfold clause. destruct (field "uptime" x) as [u|] eqn:Eu; [|done].
    rewrite (field_getitem _ _ _ Eu). simpl.
    by rewrite (no_metric_named pm vp ms "uptime" Hvp Hms Hno).
Qed.

(** * Metrics of the same name *)

Lemma metrics_by_name_app ms1 ms2 : forall acc,
  metrics_by_name (ms1 ++ ms2) acc =
  (vp <- metrics_by_name ms1 acc ;; metrics_by_name ms2 vp).
Proof.
  induction ms1 as [|m ms1 IH]; intros acc; [done|]. simpl.
  destruct (py_getitem m "name") as [[]|]; simpl; auto.
Qed.

(** Whether the lookup table can be built, and the exception if not, does
    not depend on the bindings made so far. *)
Lemma metrics_by_name_shape ms : forall acc acc',
  match metrics_by_name ms acc, metrics_by_name ms acc' with
  | Ok _, Ok _ => True
  | Raise e, Raise e' => e = e'
  | _, _ => False
  end.
Proof.
  induction ms as [|m ms IH]; intros acc acc'; [done|]. simpl.
  destruct (py_getitem m "name") as [[]|]; simpl; try done; apply IH.
Qed.

Lemma filter_named_shadowed name k ms1 m ms2 :
  field "name" m = Some (PStr name) ->
  (exists m', m' ∈ ms2 /\ named name m' = true) ->
  last (List.filter (named k) (ms1 ++ m :: ms2)) =
  last (List.filter (named k) (ms1 ++ ms2)).
Proof.
  intros Hn (m' & Hin & Hm').
  rewrite !List.filter_app. simpl. unfold named at 2. rewrite Hn.
  destruct (String.eqb name k) eqn:E; [|done].
  apply String.eqb_eq in E. subst k.
  assert (Hne : List.filter (named name) ms2 <> []).
  { intros Hnil. apply list_elem_of_In in Hin.
    assert (Hf : In m' (List.filter (named name) ms2))
      by (apply filter_In; done).
    by rewrite Hnil in Hf. }
  rewrite !last_app. rewrite last_cons.
  destruct (last (List.filter (named name) ms2)) eqn:El; [done|].
  by apply last_None in El.
Qed.

Lemma meets_qualifiers_ext vp vp' item :
  (forall k, dict_lookup k vp = dict_lookup k vp') ->
  meets_qualifiers vp item = meets_qualifiers vp' item.
Proof.
  intros H. unfold meets_qualifiers, qualifier_value. simpl.
  by rewrite !H.
Qed.

Lemma first_match_ext vp vp' items :
  (forall k, dict_lookup k vp = dict_lookup k vp') ->
  first_match vp items = first_match vp' items.
Proof.
  intros H. induction items as [|x items IH]; [done|]. simpl.
  by rewrite (meets_qualifiers_ext vp vp' x H), IH.
Qed.

Lemma first_passing_ext pm pm' entries :
  (forall item, _item_passes_policy pm item = _item_passes_policy pm' item) ->
  first_passing pm entries = first_passing pm' entries.
Proof.
  intros H. induction entries as [|e entries IH]; [done|]. simpl.
  destruct (py_get e "data_item" PNone) as [item|]; [|done]. simpl.
  by rewrite H, IH.
Qed.

Lemma policy_lookup_shadowed pm pm' ms1 m ms2 name :
  policy_metrics pm = PList (ms1 ++ m :: ms2) ->
  policy_metrics pm' = PList (ms1 ++ ms2) ->
  field "name" m = Some (PStr name) ->
  (exists m', m' ∈ ms2 /\ named name m' = true) ->
  match policy_lookup pm, policy_lookup pm' with
  | Ok vp, Ok vp' => forall k, dict_lookup k vp = dict_lookup k vp'
  | Raise e, Raise e' => e = e'
  | _, _ => False
  end.
Proof.
  intros Hpm Hpm' Hn Hs. unfold policy_lookup. rewrite Hpm, Hpm'. simpl.
  destruct (metrics_by_name (ms1 ++ m :: ms2) []) as [vp|e] eqn:E;
    destruct (metrics_by_name (ms1 ++ ms2) []) as [vp'|e'] eqn:E'.
  - intros k.
    rewrite (metrics_by_name_lookup _ [] vp k E).
    rewrite (metrics_by_name_lookup _ [] vp' k E').
    by rewrite (filter_named_shadowed name k ms1 m ms2 Hn Hs).
  - rewrite metrics_by_name_app in E, E'.
    destruct (metrics_by_name ms1 []) as [vp1|]; [|done]. simpl in E, E'.
    rewrite (field_getitem _ _ _ Hn) in E. simpl in E.
    pose proof (metrics_by_name_shape ms2 (dict_set name m vp1) vp1) as H.
    by rewrite E, E' in H.
  - rewrite metrics_by_name_app in E, E'.
    destruct (metrics_by_name ms1 []) as [vp1|]; [|done]. simpl in E, E'.
    rewrite (field_getitem _ _ _ Hn) in E. simpl in E.
    pose proof (metrics_by_name_shape ms2 (dict_set name m vp1) vp1) as H.
    by rewrite E, E' in H.
  - rewrite metrics_by_name_app in E, E'.
    destruct (metrics_by_name ms1 []) as [vp1|]; simpl in E, E';
      [|congruence].
    rewrite (field_getitem _ _ _ Hn) in E. simpl in E.
    pose proof (metrics_by_name_shape ms2 (dict_set name m vp1) vp1) as H.
    by rewrite E, E' in H.
Qed.

(** X13. A metric that a later metric of the same name shadows has no
    effect.  If the policy lists a metric named [name] and, after it,
    another metric of that name, then removing the earlier one changes no
    decision: [_item_passes_policy] gives the same answer (or raises the
    same exception) on every item, and with the same registry response
    [match_policy_and_get_url] returns the same item.  Only the last metric
    of a name counts. *)
Theorem shadowed_metric_has_no_effect pm pm' ms1 m ms2 name :
  policy_metrics pm = PList (ms1 ++ m :: ms2) ->
  policy_metrics pm' = PList (ms1 ++ ms2) ->
  field "name" m = Some (PStr name) ->
  (exists m', m' ∈ ms2 /\ named name m' = true) ->
  (forall item, _item_passes_policy pm item = _item_passes_policy pm' item) /\
  (registry_response_data pm = registry_response_data pm' ->
   match_policy_and_get_url pm = match_policy_and_get_url pm').
Proof.
  intros Hpm Hpm' Hn Hs.
  pose proof (policy_lookup_shadowed pm pm' ms1 m ms2 name Hpm Hpm' Hn Hs)
    as H.
  unfold _item_passes_policy, match_policy_and_get_url.
  destruct (policy_lookup pm) as [vp|e], (policy_lookup pm') as [vp'|e'];
    try done.
  - split.
    + intros item. simpl. by apply meets_qualifiers_ext.
    + intros ->. simpl.
      destruct (py_get (registry_response_data pm') "data" (PList []))
        as [data|]; [|done]. simpl.
      destruct (py_iter data) as [items|]; [|done]. simpl.
      by apply first_match_ext.
  - subst e'. done.
Qed.

(** * The registry and the constructor *)

Section Registry.

Variable strptime : string -> option datetime.
Variable strftime : datetime -> string.
Variable py_str : pyval -> string.

(** The constructor, by the parts of its result. *)
Lemma PolicyManager_init_inv policy_doc net pm :
  PolicyManager_init py_str policy_doc net = Ok pm ->
  exists base metrics,
    _show_protocol_directory policy_doc = Ok tt /\
    field "registry_discovery_end_point" policy_doc = Some (PStr base) /\
    field "qualifiers_metrics" policy_doc = Some metrics /\
    policies pm = policy_doc /\
    policy_metrics pm = metrics /\
    except_JSONDecodeError
      (json_loads (get_url_response net (build_url py_str base default_criteria)))
      (Ok (PDict [])) = Ok (registry_response_data pm).
Proof.
  unfold PolicyManager_init, _discover_registry. intros H.
  apply bind_Ok in H as ([] & Hs & H).
  apply bind_Ok in H as ([data metrics] & Hd & H).
  inversion H. subst pm. clear H. simpl.
  apply bind_Ok in Hd as (endpoint & He & Hd).
  apply bind_Ok in Hd as (link & Hl & Hd).
  apply bind_Ok in Hd as (data' & Hdata & Hd).
  apply bind_Ok in Hd as (metrics' & Hm & Hd).
  inversion Hd. subst data' metrics'. clear Hd.
  destruct endpoint as [ | | | |base| | ]; try done.
  inversion Hl. subst link. clear Hl.
  exists base, metrics.
  apply py_getitem_field in He. apply py_getitem_field in Hm. done.
Qed.

Lemma degrading_decodes r :
  degrading_reply r = true -> decoder_gives_up r = false.
Proof. by destruct r as [?|[?|?|?|?]]. Qed.

(** What the [try] around [json.loads] gives for a reply that the decoder
    does not give up on. *)
Lemma decoded_reply net url :
  decoder_gives_up (net url) = false ->
  exists d,
    except_JSONDecodeError (json_loads (get_url_response net url))
      (Ok (PDict [])) = Ok d.
Proof.
  unfold get_url_response. destruct (net url) as [?|[?|v|?|?]]; simpl;
    try done; eauto.
Qed.

Lemma discover_registry_data policies net :
  (forall url, decoder_gives_up (net url) = false) ->
  match _discover_registry py_str policies net with
  | Ok (data, metrics) =>
      field "qualifiers_metrics" policies = Some metrics /\
      forall net',
        (forall url, decoder_gives_up (net' url) = false) ->
        exists data',
          _discover_registry py_str policies net' = Ok (data', metrics)
  | Raise e =>
      forall net',
        (forall url, decoder_gives_up (net' url) = false) ->
        _discover_registry py_str policies net' = Raise e
  end.
Proof.
  intros Hnet. unfold _discover_registry.
  destruct (py_getitem policies "registry_discovery_end_point")
    as [endpoint|e]; [|done]. simpl.
  destruct endpoint as [ | | | |base| | ]; try done. simpl.
  destruct (decoded_reply net _ (Hnet (build_url py_str base default_criteria)))
    as (d & ->). simpl.
  destruct (py_getitem policies "qualifiers_metrics") as [metrics|e] eqn:Em;
    simpl.
  - split; [by apply py_getitem_field|].
    intros net' Hnet'.
    destruct (decoded_reply net' _
                (Hnet' (build_url py_str base default_criteria))) as (d' & ->).
    simpl. by exists d'.
  - intros net' Hnet'.
    by destruct (decoded_reply net' _
                   (Hnet' (build_url py_str base default_criteria)))
      as (d' & ->).
Qed.

Lemma PolicyManager_init_nets policy_doc net net' :
  (forall url, decoder_gives_up (net url) = false) ->
  (forall url, decoder_gives_up (net' url) = false) ->
  match PolicyManager_init py_str policy_doc net,
        PolicyManager_init py_str policy_doc net' with
  | Ok pm, Ok pm' =>
      policies pm = policy_doc /\ policies pm' = policy_doc /\
      policy_metrics pm = policy_metrics pm' /\
      field "qualifiers_metrics" policy_doc = Some (policy_metrics pm)
  | Raise e, Raise e' => e = e'
  | _, _ => False
  end.
Proof.
  intros Hnet Hnet'. unfold PolicyManager_init.
  destruct (_show_protocol_directory policy_doc) as [[]|e]; [|done]. simpl.
  pose proof (discover_registry_data policy_doc net Hnet) as H.
  destruct (_discover_registry py_str policy_doc net) as [[d m]|e].
  - destruct H as [Hf H]. destruct (H net' Hnet') as (d' & ->). simpl. done.
  - by rewrite (H net' Hnet').
Qed.

(** A reply that the decoder gives up on stops the constructor of a policy
    document that is in order. *)
Lemma PolicyManager_init_gives_up policy_doc net pm net' t e :
  PolicyManager_init py_str policy_doc net = Ok pm ->
  (forall url, net' url = Response t) ->
  json_loads t = Raise e ->
  e <> JSONDecodeError ->
  PolicyManager_init py_str policy_doc net' = Raise e.
Proof.
  intros Hinit Hnet' Ht He.
  destruct (PolicyManager_init_inv policy_doc net pm Hinit)
    as (base & metrics & Hs & Hb & _).
  unfold PolicyManager_init, _discover_registry. rewrite Hs. simpl.
  rewrite (field_getitem _ _ _ Hb). simpl.
  unfold get_url_response. rewrite Hnet', Ht. simpl.
  by destruct e.
Qed.

(** X14. What the constructor owes to the registry.  As long as the body of
    the reply is something that [json.loads] decodes or rejects as not being
    JSON (and also when the request fails), whether [PolicyManager()] can be
    constructed from the decoded policy document depends on the document
    alone: it raises the same exception, or it succeeds with the same
    policy document and the qualifier metrics of the document, whatever such
    a registry does.  But a body on which the decoder gives up stops the
    constructor of a policy document that is in order: an integer of more
    than 4300 digits raises [ValueError], which the handler for
    [JSONDecodeError] does not catch, and too deep a nesting raises
    [RecursionError]. *)
Theorem constructor_depends_on_reply_decoding policy_doc net :
  (forall url, decoder_gives_up (net url) = false) ->
  (forall e,
      PolicyManager_init py_str policy_doc net = Raise e ->
      forall net',
        (forall url, decoder_gives_up (net' url) = false) ->
        PolicyManager_init py_str policy_doc net' = Raise e) /\
  (forall pm,
      PolicyManager_init py_str policy_doc net = Ok pm ->
      policies pm = policy_doc /\
      field "qualifiers_metrics" policy_doc = Some (policy_metrics pm) /\
      (forall net',
          (forall url, decoder_gives_up (net' url) = false) ->
          exists pm',
            PolicyManager_init py_str policy_doc net' = Ok pm' /\
            policies pm' = policies pm /\
            policy_metrics pm' = policy_metrics pm) /\
      (forall net' raw,
          (forall url, net' url = Response (Overlong raw)) ->
          PolicyManager_init py_str policy_doc net' = Raise ValueError) /\
      (forall net' raw,
          (forall url, net' url = Response (TooDeep raw)) ->
          PolicyManager_init py_str policy_doc net' = Raise RecursionError)).
Proof.
  intros Hnet. split.
  - intros e He net' Hnet'.
    pose proof (PolicyManager_init_nets policy_doc net net' Hnet Hnet') as H.
    rewrite He in H.
    destruct (PolicyManager_init py_str policy_doc net'); [done|by subst].
  - intros pm Hpm.
    pose proof (PolicyManager_init_nets policy_doc net net Hnet Hnet) as H0.
    rewrite Hpm in H0. destruct H0 as (Hp & _ & _ & Hf).
    split; [done|]. split; [done|]. split; [|split].
    + intros net' Hnet'.
      pose proof (PolicyManager_init_nets policy_doc net net' Hnet Hnet') as H.
      rewrite Hpm in H.
      destruct (PolicyManager_init py_str policy_doc net') as [pm'|]; [|done].
      destruct H as (_ & Hp' & Hm & _). exists pm'.
      by rewrite Hp, Hp', Hm.
    + intros net' raw Hnet'.
      by apply (PolicyManager_init_gives_up policy_doc net pm net'
                  (Overlong raw)).
    + intros net' raw Hnet'.
      by apply (PolicyManager_init_gives_up policy_doc net pm net'
                  (TooDeep raw)).
Qed.

(** After a degrading reply the stored response has no "data". *)
Lemma degraded_response policy_doc net pm :
  PolicyManager_init py_str policy_doc net = Ok pm ->
  (forall url, degrading_reply (net url) = true) ->
  py_get (registry_response_data pm) "data" (PList []) = Ok (PList []).
Proof.
  intros Hinit Hnet.
  destruct (PolicyManager_init_inv policy_doc net pm Hinit)
    as (base & metrics & _ & _ & _ & _ & _ & Hd).
  unfold get_url_response in Hd.
  specialize (Hnet (build_url py_str base default_criteria)).
  destruct (net _) as [?|[?|v|?|?]]; simpl in Hd, Hnet; try done.
  - inversion Hd. done.
  - inversion Hd. done.
  - injection Hd as <-. destruct v as [ | | | | | |d]; try done. simpl.
    by destruct (dict_lookup "data" d).
Qed.

Lemma item_passes_policy_metrics pm pm' item :
  policy_metrics pm = policy_metrics pm' ->
  _item_passes_policy pm item = _item_passes_policy pm' item.
Proof.
  intros H. unfold _item_passes_policy, policy_lookup. by rewrite H.
Qed.

(** The resolution of a manager whose response has no items. *)
Lemma resolve_without_items pm now w :
  py_get (registry_response_data pm) "data" (PList []) = Ok (PList []) ->
  get_verifiable_mcp_endpoint strptime strftime pm now w =
  match policy_lookup pm with
  | Raise e => (Raise e, w)
  | Ok _ =>
      match fst (load_cache w) with
      | Ok cache =>
          (cached <- py_get cache "cached_mcp" (PList []) ;;
           entries <- py_iter cached ;;
           first_passing pm entries, w)
      | Raise e => (Raise e, w)
      end
  end.
Proof.
  intros Hd.
  destruct (policy_lookup pm) as [vp|e] eqn:Evp.
  - apply resolve_fallback. unfold match_policy_and_get_url.
    by rewrite Evp, Hd.
  - unfold get_verifiable_mcp_endpoint, match_policy_and_get_url.
    by rewrite iobind_lift, Evp.
Qed.

(** X15. Every failure of the registry is the same to the resolution.  A
    transport failure, a body that is not JSON and a JSON object without
    "data" cannot be told apart: with any two such behaviours of the
    network, [PolicyManager()] followed by [get_verifiable_mcp_endpoint()]
    gives the same result, and the cache file is left as it was; the result
    depends only on the policy document and the file.  When there is no
    cache file, a result that is returned is [None]. *)
Theorem registry_failures_are_alike policy_doc net net' now w :
  (forall url, degrading_reply (net url) = true) ->
  (forall url, degrading_reply (net' url) = true) ->
  resolve strptime strftime py_str policy_doc net now w =
    resolve strptime strftime py_str policy_doc net' now w /\
  snd (resolve strptime strftime py_str policy_doc net now w) = w /\
  (cache_file w = Absent ->
   forall r, fst (resolve strptime strftime py_str policy_doc net now w) = Ok r ->
             r = PNone).
Proof.
  intros Hnet Hnet'. unfold resolve. rewrite !iobind_lift.
  pose proof (PolicyManager_init_nets policy_doc net net'
                (fun url => degrading_decodes _ (Hnet url))
                (fun url => degrading_decodes _ (Hnet' url))) as H.
  destruct (PolicyManager_init py_str policy_doc net) as [pm|e] eqn:E;
    destruct (PolicyManager_init py_str policy_doc net') as [pm'|e'] eqn:E';
    try done.
  2:{ subst e'. done. }
  pose proof (degraded_response policy_doc net pm E Hnet) as Hd.
  pose proof (degraded_response policy_doc net' pm' E' Hnet') as Hd'.
  rewrite (resolve_without_items pm now w Hd).
  rewrite (resolve_without_items pm' now w Hd').
  destruct H as (_ & _ & Hm & _).
  unfold policy_lookup. rewrite <- Hm.
  destruct (ms <- py_iter (policy_metrics pm);; metrics_by_name ms [])
    as [vp|e]; [|done].
  split; [|split].
  - destruct (fst (load_cache w)) as [cache|e]; [|done].
    f_equal. destruct (py_get cache "cached_mcp" (PList [])); [|done]. simpl.
    destruct (py_iter _); [|done]. simpl.
    apply first_passing_ext. intros item.
    by apply item_passes_policy_metrics.
  - by destruct (fst (load_cache w)).
  - intros Ha r. unfold load_cache. rewrite Ha. simpl. by intros [= <-].
Qed.

End Registry.

(** * Trailing characters of a URL *)

Lemma rstrip_only_run c n : rstrip (String c "") (run c n) = "".
Proof.
  induction n as [|n IH]; [done|]. simpl. rewrite IH. simpl.
  by rewrite Ascii.eqb_refl.
Qed.

Lemma rstrip_run c stem n :
  ends_with c stem = false ->
  rstrip (String c "") (stem +:+ run c n) = stem.
Proof.
  induction stem as [|a r IH]; intros He.
  - apply rstrip_only_run.
  - rewrite append_cons. simpl. destruct r as [|b r'].
    + simpl in He. change ("" +:+ run c n) with (run c n).
      rewrite rstrip_only_run. simpl. by rewrite He.
    + rewrite IH by done. done.
Qed.

Lemma rstrip_stem c s :
  exists n,
    s = rstrip (String c "") s +:+ run c n /\
    ends_with c (rstrip (String c "") s) = false.
Proof.
  induction s as [|a r (n & Hn & He)].
  - by exists 0%nat.
  - simpl. destruct (rstrip (String c "") r) as [|b r'] eqn:E.
    + simpl in Hn. rewrite orb_false_r. destruct (Ascii.eqb a c) eqn:Ea.
      * apply Ascii.eqb_eq in Ea. subst a. exists (S n). split; [|done].
        simpl. by rewrite Hn at 1.
      * exists n. split; [|by simpl; rewrite Ea].
        rewrite append_cons. simpl. by rewrite Hn at 1.
    + exists n. split.
      * rewrite append_cons. by rewrite Hn at 1.
      * done.
Qed.

Lemma marks_run n : marks n = run "?" n.
Proof. induction n as [|n IH]; [done|]. simpl. by rewrite IH. Qed.

Lemma count_none_ends c s : count_char c s = 0%nat -> ends_with c s = false.
Proof.
  induction s as [|a r IH]; [done|]. simpl.
  destruct (Ascii.eqb a c) eqn:E; [done|]. simpl. intros H.
  destruct r; [done|]. by apply IH.
Qed.

(** X16. The single '?' of the request URL.  When the only '?' characters
    of the base are at its end and the rendered criteria contain none,
    [build_url] returns the base without them, one '?', and the pairs: the
    URL has exactly one '?'. *)
Theorem build_url_single_mark (py_str : pyval -> string)
    (stem : string) (n : nat) (criteria : list (string * pyval)) :
  count_char "?" stem = 0%nat ->
  count_char "?" (query py_str criteria) = 0%nat ->
  build_url py_str (stem +:+ marks n) criteria =
    stem +:+ "?" +:+ query py_str criteria /\
  count_char "?" (build_url py_str (stem +:+ marks n) criteria) = 1%nat.
Proof.
  intros Hs Hq.
  assert (H : build_url py_str (stem +:+ marks n) criteria =
              stem +:+ "?" +:+ query py_str criteria).
  { unfold build_url. rewrite marks_run, rstrip_run; [done|].
    by apply count_none_ends. }
  split; [done|]. rewrite H, !count_char_app, Hs, Hq. done.
Qed.

(** * The SSE endpoint *)

Lemma lower_app s t : lower (s +:+ t) = lower s +:+ lower t.
Proof.
  induction s as [|a r IH]; [done|]. rewrite append_cons. simpl.
  by rewrite IH.
Qed.

Lemma lower_char_slash c : lower_char c = "/"%char -> c = "/"%char.
Proof.
  destruct c as [[] [] [] [] [] [] [] []]; vm_compute; congruence.
Qed.

Lemma ends_with_lower s : ends_with "/" (lower s) = ends_with "/" s.
Proof.
  induction s as [|a r IH]; [done|]. simpl. destruct r as [|b r'].
  - simpl. destruct (Ascii.eqb (lower_char a) "/") eqn:E.
    + apply Ascii.eqb_eq, lower_char_slash in E. by subst a.
    + destruct (Ascii.eqb a "/") eqn:E'; [|done].
      apply Ascii.eqb_eq in E'. subst a. done.
  - exact IH.
Qed.

(** A prefix of [s +:+ t] is a prefix of [s], or it runs over the end of
    [s]. *)
Lemma is_prefix_app p : forall s t,
  is_prefix p (s +:+ t) = true ->
  is_prefix p s = true \/
  exists p1 p2, p = p1 +:+ p2 /\ s = p1 /\ p2 <> "" /\ is_prefix p2 t = true.
Proof.
  induction p as [|a p IH]; intros s t H; [by left|].
  destruct s as [|b s].
  - right. exists "", (String a p). done.
  - rewrite append_cons in H. simpl in H. apply andb_prop in H as [Hab H].
    destruct (IH s t H) as [Hp | (p1 & p2 & -> & -> & Hne & Hp)].
    + left. simpl. by rewrite Hab.
    + right. apply Ascii.eqb_eq in Hab. subst b.
      exists (String a p1), p2. done.
Qed.

Lemma scheme_of_stem scheme stem :
  scheme = "http://" \/ scheme = "https://" ->
  ends_with "/" stem = false ->
  is_prefix scheme (lower (stem +:+ "/sse")) = true ->
  is_prefix scheme (lower stem) = true.
Proof.
  intros Hs He H. rewrite lower_app in H.
  apply is_prefix_app in H as [H | (p1 & p2 & Hp & Hl & Hne & H)]; [done|].
  exfalso. rewrite <- ends_with_lower, Hl in He. clear Hl stem.
  change (lower "/sse") with "/sse" in H.
  destruct p2 as [|c p2]; [done|]. simpl in H.
  apply andb_prop in H as [Hc H]. apply Ascii.eqb_eq in Hc. subst c.
  destruct Hs as [-> | ->];
    repeat (destruct p1 as [|? p1];
            [ try discriminate Hp; injection Hp as <-; try done
            | try discriminate Hp; injection Hp as <- Hp ]).
Qed.

Lemma run_app c m n : run c m +:+ run c n = run c (m + n).
Proof.
  induction m as [|m IH]; [done|]. simpl. by rewrite append_cons, IH.
Qed.

Lemma string_app_assoc (s t u : string) : (s +:+ t) +:+ u = s +:+ (t +:+ u).
Proof.
  induction s as [|a r IH]; [done|]. rewrite !append_cons. by rewrite IH.
Qed.

Lemma is_prefix_app_l p : forall s t,
  is_prefix p s = true -> is_prefix p (s +:+ t) = true.
Proof.
  induction p as [|a p IH]; intros s t H; [done|].
  destruct s as [|b s]; [done|]. rewrite append_cons. simpl in *.
  apply andb_prop in H as [-> H]. simpl. by apply IH.
Qed.

Lemma nonempty_truthy s : s <> "" -> truthy (PStr s) = true.
Proof. intros H. simpl. by destruct s. Qed.

Lemma startswith_schemes s :
  startswith s ["http://"; "https://"] =
  is_prefix "http://" s || is_prefix "https://" s.
Proof. unfold startswith, existsb. by rewrite orb_false_r. Qed.

Lemma startswith_app_l s t :
  startswith s ["http://"; "https://"] = true ->
  startswith (s +:+ t) ["http://"; "https://"] = true.
Proof.
  rewrite !startswith_schemes. intros H. apply orb_prop in H as [H|H].
  - by rewrite (is_prefix_app_l _ _ _ H).
  - rewrite (is_prefix_app_l _ _ _ H). by rewrite orb_true_r.
Qed.

(** The test of the scheme, made on the URL, is a test of the endpoint
    without its trailing slashes. *)
Lemma scheme_of_url s :
  startswith (lower (rstrip "/" s +:+ "/sse")) ["http://"; "https://"] =
  startswith (lower (rstrip "/" s)) ["http://"; "https://"].
Proof.
  destruct (rstrip_stem "/" s) as (n & _ & He).
  destruct (startswith (lower (rstrip "/" s)) _) eqn:E.
  - rewrite lower_app. by apply startswith_app_l.
  - destruct (startswith (lower (rstrip "/" s +:+ "/sse")) _) eqn:E';
      [|done].
    rewrite startswith_schemes in E, E'.
    apply orb_prop in E' as [E'|E'].
    + apply (scheme_of_stem "http://") in E'; [|by left|done].
      by rewrite E' in E.
    + apply (scheme_of_stem "https://") in E'; [|by right|done].
      rewrite E' in E. by rewrite orb_true_r in E.
Qed.

(** The URL at which the stream is opened. *)
Lemma sse_target_connect endpoint u :
  sse_target endpoint = Ok (Connect u) ->
  exists s,
    endpoint = PStr s /\
    u = rstrip "/" s +:+ "/sse" /\
    ends_with "/" (rstrip "/" s) = false /\
    startswith (lower (rstrip "/" s)) ["http://"; "https://"] = true /\
    startswith (lower s) ["http://"; "https://"] = true.
Proof.
  unfold sse_target. destruct (truthy endpoint); [|done].
  destruct endpoint as [ | | | |s| | ]; try done.
  destruct (startswith _ _) eqn:E; [|done]. cbn [negb]. intros [= <-].
  exists s. split; [done|]. split; [done|].
  destruct (rstrip_stem "/" s) as (n & Hs & He). split; [done|].
  rewrite scheme_of_url in E. split; [done|].
  rewrite Hs at 1. rewrite lower_app. by apply startswith_app_l.
Qed.

(** X17. When the stream is opened.  [connect_to_sse_server] gets as far as
    opening the SSE stream exactly when the resolved endpoint is a string
    that, without its trailing slashes, starts with "http://" or "https://"
    in any letter case; the stream is then opened at that string followed by
    "/sse", which has a single slash before "sse", and the endpoint itself
    starts with the scheme.  In every other case no stream is opened: the
    method returns (the endpoint is [None] or empty, or the URL is rejected,
    as for "ftp://x" and for "http://" alone) or raises (a truthy endpoint
    that is not a string). *)
Theorem stream_only_at_http_endpoint endpoint :
  (forall u,
      sse_target endpoint = Ok (Connect u) <->
      exists s,
        endpoint = PStr s /\
        u = rstrip "/" s +:+ "/sse" /\
        startswith (lower (rstrip "/" s)) ["http://"; "https://"] = true) /\
  (forall u,
      sse_target endpoint = Ok (Connect u) ->
      exists s,
        endpoint = PStr s /\
        startswith (lower s) ["http://"; "https://"] = true /\
        ends_with "/" (rstrip "/" s) = false) /\
  sse_target (PStr "ftp://x") = Ok (InvalidURL "ftp://x/sse") /\
  sse_target (PStr "http://") = Ok (InvalidURL "http:/sse") /\
  sse_target PNone = Ok NoEndpoint /\
  sse_target (PInt 1) = Raise AttributeError.
Proof.
  split; [|split; [|by repeat split]].
  - intros u. split.
    + intros H. destruct (sse_target_connect endpoint u H)
        as (s & Hs & Hu & _ & Hp & _).
      by exists s.
    + intros (s & -> & -> & Hp). unfold sse_target.
      assert (Hs : s <> "").
      { intros ->. by rewrite startswith_schemes in Hp. }
      rewrite (nonempty_truthy s Hs).
      by rewrite scheme_of_url, Hp.
  - intros u H. destruct (sse_target_connect endpoint u H)
      as (s & Hs & Hu & He & _ & Hp).
    by exists s.
Qed.

(** X18. Trailing slashes of the endpoint do not matter: an endpoint that
    is not empty and the same endpoint with any number of slashes added at
    its end are connected to, or rejected, with the same URL. *)
Theorem trailing_slashes_do_not_matter s n :
  s <> "" ->
  sse_target (PStr (s +:+ run "/" n)) = sse_target (PStr s).
Proof.
  intros Hs.
  assert (Hs' : s +:+ run "/" n <> "").
  { destruct s; [done|]. by rewrite append_cons. }
  unfold sse_target.
  rewrite (nonempty_truthy _ Hs), (nonempty_truthy _ Hs').
  destruct (rstrip_stem "/" s) as (m & Hm & He).
  assert (rstrip "/" (s +:+ run "/" n) = rstrip "/" s) as ->; [|done].
  rewrite Hm at 1. rewrite string_app_assoc, run_app.
  by apply rstrip_run.
Qed.

Section Client.

Variable strptime : string -> option datetime.
Variable strftime : datetime -> string.
Variable py_str : pyval -> string.

(** X19. The client connects only to an endpoint that passes the policy.
    If [connect_to_sse_server] opens the stream at a URL, then the policy
    manager could be constructed, and the URL is "/sse" appended to an
    http(s) endpoint (without its trailing slashes) that belongs to an item
    passing all four tests of the qualifiers of the policy document: the URL
    of an item of the registry response, or the endpoint stored with the item
    in an entry of the cache file, which is then left as it was. *)
Theorem client_connects_only_to_qualified_endpoint
    policy_doc net now w u w' :
  connect_to_sse_server strptime strftime py_str policy_doc net now w =
    (Ok (Connect u), w') ->
  exists pm item s,
    PolicyManager_init py_str policy_doc net = Ok pm /\
    field "qualifiers_metrics" policy_doc = Some (policy_metrics pm) /\
    qualifies (policy_metrics pm) item = true /\
    startswith (lower s) ["http://"; "https://"] = true /\
    u = rstrip "/" s +:+ "/sse" /\
    ((exists data items,
         py_get (registry_response_data pm) "data" (PList []) = Ok data /\
         py_iter data = Ok items /\ item ∈ items /\
         field "url" item = Some (PStr s)) \/
     (exists cache e,
         w' = w /\ load_cache w = (Ok cache, w) /\
         e ∈ entries_of cache /\
         field "data_item" e = Some item /\
         field "mcp_endpoint" e = Some (PStr s))).
Proof.
  unfold connect_to_sse_server, resolve. intros H.
  unfold iobind at 1 in H. rewrite iobind_lift in H.
  destruct (PolicyManager_init py_str policy_doc net) as [pm|] eqn:Einit;
    [|done].
  destruct (get_verifiable_mcp_endpoint strptime strftime pm now w)
    as [[r|] w1] eqn:Er; [|done].
  unfold lift in H. injection H as H Hw. subst w1.
  destruct (sse_target_connect r u H) as (s & -> & Hu & _ & _ & Hp).
  destruct (PolicyManager_init_inv py_str policy_doc net pm Einit)
    as (base & metrics & _ & _ & Hf & _ & Hpm & _).
  subst metrics. exists pm.
  destruct (match_policy_and_get_url pm) as [live|e] eqn:Hm.
  2:{ unfold get_verifiable_mcp_endpoint in Er.
      rewrite iobind_lift, Hm in Er. done. }
  destruct (truthy live) eqn:Ht.
  - destruct (live_endpoint_inv strptime strftime pm now w live _ w' Hm Ht Er)
      as (Hq & Hurl & data & items & Hd & Hi & Hin).
    exists live, s. do 5 (split; [done|]).
    left. by exists data, items.
  - destruct (cached_endpoint_inv strptime strftime pm now w live _ w' Hm Ht Er)
      as (item & cache & e & Hq & Hw & Hl & Hin & Hfi & He); [done|].
    exists item, s. do 5 (split; [done|]).
    right. by exists cache, e.
Qed.

End Client.

(** * Well-formed inputs *)

Section WellFormed.

Variable strptime : string -> option datetime.
Variable strftime : datetime -> string.




End WellFormed.

(** * What the constructor and the upsert require and ensure *)

Lemma show_metrics_inv ms :
  show_metrics ms = Ok tt -> forallb shown_metric ms = true.
Proof.
  induction ms as [|m ms IH]; [done|]. simpl. intros H.
  apply bind_Ok in H as (n & Hn & H).
  apply bind_Ok in H as (v & Hv & H).
  apply bind_Ok in H as (d & Hd & H).
  apply py_getitem_field in Hn, Hv, Hd.
  unfold shown_metric. rewrite Hn, Hv, Hd. simpl. by apply IH.
Qed.




Section Built.

Variable strptime : string -> option datetime.
Variable strftime : datetime -> string.
Variable py_str : pyval -> string.

(** X21. What the constructor requires of the policy document.  If
    [PolicyManager()] can be constructed from the decoded document, then the
    document is a JSON object with all eight keys that the constructor
    reads, the discovery endpoint is a string, the policy tags can be joined
    (an iterable of strings), and every qualifier metric has a "name", a
    "value" and a "need". *)
Theorem constructor_requires_schema policy_doc net pm :
  PolicyManager_init py_str policy_doc net = Ok pm ->
  is_dict policy_doc = true /\
  forallb (fun k => is_some (field k policy_doc)) policy_keys = true /\
  has "registry_discovery_end_point" is_str policy_doc = true /\
  (exists tags, field "policy_tags" policy_doc = Some tags /\
                joinable tags = Ok tt) /\
  (exists ms, py_iter (policy_metrics pm) = Ok ms /\
              forallb shown_metric ms = true).
Proof.
  intros H.
  destruct (PolicyManager_init_inv py_str policy_doc net pm H)
    as (base & metrics & Hs & He & Hm & _ & Hpm & _).
  unfold _show_protocol_directory in Hs.
  apply bind_Ok in Hs as (v1 & H1 & Hs).
  apply bind_Ok in Hs as (v2 & H2 & Hs).
  apply bind_Ok in Hs as (v3 & H3 & Hs).
  apply bind_Ok in Hs as (v4 & H4 & Hs).
  apply bind_Ok in Hs as (v5 & H5 & Hs).
  apply bind_Ok in Hs as (v6 & H6 & Hs).
  apply bind_Ok in Hs as (tags & H7 & Hs).
  apply bind_Ok in Hs as ([] & Hj & Hs).
  apply bind_Ok in Hs as (metrics' & H8 & Hs).
  apply bind_Ok in Hs as (ms & Hi & Hs).
  apply py_getitem_field in H1, H2, H3, H4, H5, H6, H7, H8.
  rewrite Hm in H8. injection H8 as <-.
  split; [by destruct policy_doc|].
  split; [simpl; by rewrite H1, H2, H3, H4, H5, H6, H7, Hm|].
  split; [unfold has; by rewrite He|].
  split; [by exists tags|].
  exists ms. rewrite Hpm. split; [done|]. by apply show_metrics_inv.
Qed.



End Built.

(** * The theorems at the example data *)

Lemma no_position_below_zero {A} (l : list A) (p : A -> bool) :
  forall j y, (j < 0)%nat -> l !! j = Some y -> p y = false.
Proof. intros j y Hj. inversion Hj. Defined.

Lemma only_position_below_one {A} (l : list A) (p : A -> bool) x :
  l !! 0%nat = Some x -> p x = false ->
  forall j y, (j < 1)%nat -> l !! j = Some y -> p y = false.
Proof.
  intros Hx Hp [|j] y Hj Hy.
  - rewrite Hx in Hy. inversion Hy. subst y. exact Hp.
  - inversion Hj as [|m Hm]. inversion Hm.
Defined.

(** The registry lists [b] before [a]; [b] has a provider that is not
    allowed, so [a] is the match. *)
Lemma match_policy_first_qualifying_witness :
  wf_metrics (policy_metrics Example.live) = true /\
  qualifies (policy_metrics Example.live) Example.item_b = false /\
  match_policy_and_get_url Example.live = Ok Example.item_a.
Proof.
  split; [reflexivity|]. split; [reflexivity|].
  apply (proj1 (match_policy_first_qualifying Example.live
                  [Example.item_b; Example.item_a] eq_refl eq_refl eq_refl)
           1%nat Example.item_a eq_refl eq_refl).
  apply (only_position_below_one _ _ Example.item_b); reflexivity.
Defined.

(** The registry gives nothing; the cache holds [c], below the relevance
    threshold, and then [a]. *)
Lemma resolve_first_qualifying_cached_witness :
  match_policy_and_get_url Example.offline = Ok PNone /\
  exists url,
    field "mcp_endpoint" (Example.entry Example.item_a "03.11.2026 09:00:00")
      = Some (PStr url) /\
    get_verifiable_mcp_endpoint Reference.strptime Reference.strftime
      Example.offline Example.now Example.two_cached
      = (Ok (PStr url), Example.two_cached).
Proof.
  split; [reflexivity|].
  apply (resolve_first_qualifying_cached Reference.strptime Reference.strftime
           Example.offline Example.now Example.two_cached _ 1%nat _
           eq_refl eq_refl eq_refl eq_refl eq_refl).
  apply (only_position_below_one _ _
           (Example.entry Example.item_c "02.11.2026 08:00:00")); reflexivity.
Defined.

(** The only cached entry has its flag set and fails the current policy. *)
Lemma fallback_revalidates_witness :
  flagged (Example.entry Example.item_c "02.11.2026 08:00:00") = true /\
  get_verifiable_mcp_endpoint Reference.strptime Reference.strftime
    Example.offline Example.now Example.stale_trust
    = (Ok PNone, Example.stale_trust).
Proof.
  split; [reflexivity|].
  apply (proj2 (fallback_revalidates Reference.strptime Reference.strftime
                  Example.offline Example.now Example.stale_trust eq_refl)
           _ eq_refl eq_refl eq_refl).
  intros e He. apply list_elem_of_singleton in He. rewrite He. reflexivity.
Defined.

(** An entry cached an hour before the call. *)
Lemma upsert_fresh_is_noop_witness :
  Reference.strptime "03.11.2026 09:00:00" = Some 1793696400000000 /\
  Example.now - 1793696400000000 < timedelta_hours 72 /\
  update_cache Reference.strptime Reference.strftime Example.item_a
    (PDict default_criteria) Example.now Example.one_cached
    = (Ok tt, Example.one_cached).
Proof.
  split; [reflexivity|]. split; [reflexivity|].
  apply (upsert_fresh_is_noop Reference.strptime Reference.strftime
           Example.item_a (PDict default_criteria) Example.now
           Example.one_cached _ "a" 0%nat _ 1793696400000000
           eq_refl eq_refl eq_refl eq_refl eq_refl eq_refl).
  - apply no_position_below_zero.
  - reflexivity.
  - reflexivity.
Defined.

(** Three upserts of [a], from no cache file: at once, an hour later, a
    hundred hours later. *)
Lemma upsert_one_entry_per_id_witness :
  let w :=
    upserts Reference.strptime Reference.strftime Example.three_calls
      Example.nothing_cached in
  exists cache', load_cache w = (Ok cache', w) /\ count_id "a" cache' = 1%nat.
Proof.
  destruct (proj1 (upsert_one_entry_per_id
                     Reference.strptime Reference.strftime
                     Example.nothing_cached empty_cache
                     eq_refl eq_refl NoDup_nil_2)
              Example.three_calls)
    as (cache' & Hload & _ & _ & Hcount).
  - repeat constructor.
  - exists cache'. split; [exact Hload|].
    apply (Hcount (conj eq_refl (fun _ => eq_refl))
             (Example.item_a, PDict default_criteria, Example.now) "a").
    + apply list_elem_of_here.
    + reflexivity.
Defined.

Lemma load_cached_endpoint_trusts_flag_witness :
  load_cached_endpoint Example.stale_trust =
    (Ok (PStr "https://c.example/mcp"), Example.stale_trust).
Proof.
  apply (proj1 load_cached_endpoint_trusts_flag Example.stale_trust _ 0%nat
           (Example.entry Example.item_c "02.11.2026 08:00:00")
           eq_refl eq_refl eq_refl eq_refl).
  apply no_position_below_zero.
Defined.

Lemma upsert_raises_on_unreadable_timestamp_witness :
  Reference.strptime "yesterday" = None /\
  update_cache Reference.strptime Reference.strftime Example.item_a
    (PDict default_criteria) Example.now Example.unreadable_stamp
    = (Raise ValueError, Example.unreadable_stamp).
Proof.
  split; [reflexivity|].
  apply (proj1 (proj2 upsert_raises_on_unreadable_timestamp)
           Reference.strptime Reference.strftime Example.item_a
           (PDict default_criteria) Example.now Example.unreadable_stamp
           _ "a" 0%nat _ eq_refl eq_refl eq_refl eq_refl eq_refl eq_refl).
  - apply no_position_below_zero.
  - reflexivity.
Defined.

(** * The further properties at the example data *)

(** The registry lists [b] and [a], nothing is cached: [a] is returned and
    written. *)
Lemma resolve_writes_only_after_live_match_witness :
  exists item enabled url,
    match_policy_and_get_url Example.live = Ok item /\ truthy item = true /\
    py_get (policies Example.live) "cache_mcp_servers_policy" PNone
      = Ok enabled /\
    truthy enabled = true /\
    field "url" item = Some url /\
    ((exists doc,
         get_verifiable_mcp_endpoint Reference.strptime Reference.strftime
           Example.live Example.now Example.nothing_cached
         = (Ok url, written Example.nothing_cached doc)) \/
     (exists doc e,
         dump_error Example.nothing_cached doc = Some e /\
         get_verifiable_mcp_endpoint Reference.strptime Reference.strftime
           Example.live Example.now Example.nothing_cached
         = (Raise e, truncated Example.nothing_cached))).
Proof.
  apply (resolve_writes_only_after_live_match Reference.strptime
           Reference.strftime Example.live Example.now Example.nothing_cached).
  vm_compute. discriminate.
Defined.

Lemma resolved_endpoint_is_qualified_witness :
  exists item,
    qualifies (policy_metrics Example.offline) item = true /\
    ((exists data items,
         py_get (registry_response_data Example.offline) "data" (PList [])
           = Ok data /\
         py_iter data = Ok items /\ item ∈ items /\
         field "url" item = Some (PStr "https://a.example/mcp")) \/
     (exists cache e,
         Example.two_cached = Example.two_cached /\
         load_cache Example.two_cached = (Ok cache, Example.two_cached) /\
         e ∈ entries_of cache /\
         field "data_item" e = Some item /\
         field "mcp_endpoint" e = Some (PStr "https://a.example/mcp"))).
Proof.
  apply (resolved_endpoint_is_qualified Reference.strptime Reference.strftime
           Example.offline Example.now Example.two_cached
           (PStr "https://a.example/mcp") Example.two_cached).
  - vm_compute. reflexivity.
  - discriminate.
Defined.

Lemma live_match_ignores_cache_when_disabled_witness :
  get_verifiable_mcp_endpoint Reference.strptime Reference.strftime
    Cases.no_caching Example.now Cases.unreadable
  = (Ok (PStr "https://a.example/mcp"), Cases.unreadable).
Proof.
  apply (live_match_ignores_cache_when_disabled Reference.strptime
           Reference.strftime Cases.no_caching Example.now Example.item_a
           (PStr "a") (PStr "https://a.example/mcp") (PBool false));
    reflexivity.
Defined.

Lemma unreadable_cache_fails_resolution_witness :
  get_verifiable_mcp_endpoint Reference.strptime Reference.strftime
    Example.offline Example.now Cases.unreadable
    = (Raise UnicodeDecodeError, Cases.unreadable) /\
  get_verifiable_mcp_endpoint Reference.strptime Reference.strftime
    Example.live Example.now Cases.unreadable
    = (Raise UnicodeDecodeError, Cases.unreadable).
Proof.
  split.
  - apply (proj1 (unreadable_cache_fails_resolution Reference.strptime
                    Reference.strftime Example.offline Example.now
                    Cases.unreadable UnicodeDecodeError eq_refl)).
    reflexivity.
  - apply (proj2 (unreadable_cache_fails_resolution Reference.strptime
                    Reference.strftime Example.live Example.now
                    Cases.unreadable UnicodeDecodeError eq_refl)
             Example.item_a (PStr "a") (PStr "https://a.example/mcp")
             (PBool true)); reflexivity.
Defined.

Lemma live_match_needs_name_and_url_witness :
  get_verifiable_mcp_endpoint Reference.strptime Reference.strftime
    (Example.manager (PDict [("data", PList [Cases.nameless])]))
    Example.now Example.nothing_cached
  = (Raise (KeyError "name"), Example.nothing_cached).
Proof.
  apply (proj1 (live_match_needs_name_and_url Reference.strptime
                  Reference.strftime
                  (Example.manager (PDict [("data", PList [Cases.nameless])]))
                  Example.now Example.nothing_cached Cases.nameless
                  eq_refl ltac:(discriminate))).
  reflexivity.
Defined.

(** [a] is cached at 10:01:00 and offered again an hour later. *)
Lemma upsert_twice_writes_once_witness :
  exists w1,
    update_cache Reference.strptime Reference.strftime Example.item_a
      (PDict default_criteria) Example.now Example.nothing_cached
      = (Ok tt, w1) /\
    writes w1 = S (writes Example.nothing_cached) /\
    update_cache Reference.strptime Reference.strftime Example.item_a
      (PDict default_criteria) (Example.now + timedelta_hours 1) w1
      = (Ok tt, w1).
Proof.
  apply (upsert_twice_writes_once Reference.strptime Reference.strftime
           Example.item_a (PDict default_criteria) Example.now
           Example.nothing_cached empty_cache "a"
           Example.item_a (PDict default_criteria)
           (Example.now + timedelta_hours 1) 1793700060000000);
    try reflexivity.
  - split; [reflexivity|intros data; reflexivity].
  - vm_compute. discriminate.
Defined.

(** The cache holds [c] and [a], both stale a hundred hours later; [a] is
    upserted. *)
Lemma upsert_keeps_the_rest_witness :
  exists cache1,
    load_cache
      (snd (update_cache Reference.strptime Reference.strftime Example.item_a
              (PDict default_criteria) (Example.now + timedelta_hours 100)
              Example.two_cached))
    = (Ok cache1,
       snd (update_cache Reference.strptime Reference.strftime Example.item_a
              (PDict default_criteria) (Example.now + timedelta_hours 100)
              Example.two_cached)) /\
    (forall k, k <> "cached_mcp" ->
               field k cache1 = field k Cases.two_entries) /\
    (forall j e,
        entries_of Cases.two_entries !! j = Some e ->
        entries_of cache1 !! j = Some e \/
        first_of_id "a" (entries_of Cases.two_entries) = Some (j, e)) /\
    (length (entries_of Cases.two_entries) <= length (entries_of cache1)
       <= S (length (entries_of Cases.two_entries)))%nat.
Proof.
  apply (upsert_keeps_the_rest Reference.strptime Reference.strftime
           Example.item_a (PDict default_criteria)
           (Example.now + timedelta_hours 100) Example.two_cached
           Cases.two_entries "a");
    try reflexivity.
  intros data. reflexivity.
Defined.

(** [a] is found live and cached; then the registry gives nothing. *)
Lemma live_then_offline_witness :
  exists w1 url,
    get_verifiable_mcp_endpoint Reference.strptime Reference.strftime
      Example.live Example.now Example.nothing_cached
      = (Ok (url_of Example.item_a), w1) /\
    get_verifiable_mcp_endpoint Reference.strptime Reference.strftime
      Example.offline (Example.now + timedelta_hours 100) w1
      = (Ok (PStr url), w1) /\
    ((forall e, e ∈ entries_of empty_cache -> has_id "a" e = false ->
                entry_qualifies (policy_metrics Example.live) e = false) ->
     url_of Example.item_a = PStr url).
Proof.
  apply (live_then_offline Reference.strptime Reference.strftime
           Example.live Example.offline Example.now
           (Example.now + timedelta_hours 100) Example.nothing_cached
           empty_cache Example.item_a "a" (PBool true));
    try reflexivity.
  - split; [reflexivity|intros data; reflexivity].
  - vm_compute. discriminate.
Defined.

Lemma item_without_id_is_cached_once_witness :
  update_cache Reference.strptime Reference.strftime Cases.without_id
    (PDict default_criteria) Example.now Example.nothing_cached
  = (Ok tt,
     written Example.nothing_cached
       (with_entries empty_cache
          [new_entry Reference.strftime Cases.without_id
             (PDict default_criteria) (PStr "https://x.example/mcp")
             Example.now])) /\
  update_cache Reference.strptime Reference.strftime Cases.without_id
    (PDict default_criteria) (Example.now + timedelta_hours 1)
    (written Example.nothing_cached
       (with_entries empty_cache
          [new_entry Reference.strftime Cases.without_id
             (PDict default_criteria) (PStr "https://x.example/mcp")
             Example.now]))
  = (Raise (KeyError "id"),
     written Example.nothing_cached
       (with_entries empty_cache
          [new_entry Reference.strftime Cases.without_id
             (PDict default_criteria) (PStr "https://x.example/mcp")
             Example.now])).
Proof.
  apply (item_without_id_is_cached_once Reference.strptime Reference.strftime
           Cases.without_id (PStr "https://x.example/mcp")
           (PDict default_criteria) Example.now Example.nothing_cached
           empty_cache Cases.without_id (PDict default_criteria)
           (Example.now + timedelta_hours 1));
    try reflexivity.
  - split; [reflexivity|intros data; reflexivity].
  - discriminate.
Defined.

(** The registry lists an unverified item, an item without the flag, and
    [a], which qualifies. *)
Lemma item_without_verified_fails_resolution_witness :
  qualifies Example.metrics Example.item_a = true /\
  match_policy_and_get_url
    (Example.manager
       (PDict [("data", PList ([Cases.unverified] ++
                               Cases.without_verified :: [Example.item_a]))]))
  = Raise (KeyError "verified") /\
  get_verifiable_mcp_endpoint Reference.strptime Reference.strftime
    (Example.manager
       (PDict [("data", PList ([Cases.unverified] ++
                               Cases.without_verified :: [Example.item_a]))]))
    Example.now Example.one_cached
  = (Raise (KeyError "verified"), Example.one_cached).
Proof.
  split; [reflexivity|].
  apply (item_without_verified_fails_resolution Reference.strptime
           Reference.strftime
           (Example.manager
              (PDict [("data", PList ([Cases.unverified] ++
                                      Cases.without_verified ::
                                      [Example.item_a]))]))
           Example.now Example.one_cached [Cases.unverified]
           Cases.without_verified [Example.item_a] (PBool true) eq_refl).
  - eexists. reflexivity.
  - reflexivity.
  - intros y Hy. apply list_elem_of_singleton in Hy. subst y.
    exists (PBool false). split; reflexivity.
  - reflexivity.
  - reflexivity.
Defined.

(** Without the "uptime" metric: [b] fails on its provider, [a] gets as far
    as the missing metric. *)
Lemma missing_qualifier_is_noticed_late_witness :
  match_policy_and_get_url (Cases.no_uptime [Cases.unverified]) = Ok PNone /\
  match_policy_and_get_url (Cases.no_uptime [Example.item_a])
    = Raise (KeyError "uptime").
Proof.
  split.
  - apply (proj1 (missing_qualifier_is_noticed_late
                    (Cases.no_uptime [Cases.unverified]) Cases.three_metrics
                    [Cases.unverified] (PBool true) eq_refl
                    (ex_intro _ _ eq_refl)
                    ltac:(intros m Hm; unfold Cases.three_metrics in Hm;
                          repeat (apply elem_of_cons in Hm as [->|Hm];
                                  [reflexivity|]);
                          by apply elem_of_nil in Hm)
                    eq_refl eq_refl)).
    intros y Hy. apply list_elem_of_singleton in Hy. subst y.
    exists (PBool false). split; reflexivity.
  - apply (proj2 (missing_qualifier_is_noticed_late
                    (Cases.no_uptime [Example.item_a]) Cases.three_metrics
                    [Example.item_a] (PBool true) eq_refl
                    (ex_intro _ _ eq_refl)
                    ltac:(intros m Hm; unfold Cases.three_metrics in Hm;
                          repeat (apply elem_of_cons in Hm as [->|Hm];
                                  [reflexivity|]);
                          by apply elem_of_nil in Hm)
                    eq_refl eq_refl)
             Example.item_a [] eq_refl); reflexivity.
Defined.

(** The relevance threshold is given as 1/4 and later as 3/4: [c], with
    1/2, does not pass. *)
Lemma shadowed_metric_has_no_effect_witness :
  _item_passes_policy Cases.relevance_twice Example.item_c = Ok false /\
  (forall item,
      _item_passes_policy Cases.relevance_twice item =
      _item_passes_policy Cases.relevance_once item) /\
  match_policy_and_get_url Cases.relevance_twice =
    match_policy_and_get_url Cases.relevance_once.
Proof.
  split; [reflexivity|].
  assert (H := shadowed_metric_has_no_effect Cases.relevance_twice
                 Cases.relevance_once
                 [Example.metric "verified" (PBool true)]
                 (Example.metric "relevance_score" (PFloat (FFin (1 # 4))))
                 [Example.metric "provider" (PList [PStr "acme"]);
                  Example.metric "relevance_score" (PFloat (FFin (3 # 4)));
                  Example.metric "uptime" (PFloat (FFin (7 # 8)))]
                 "relevance_score" eq_refl eq_refl eq_refl).
  destruct H as [H1 H2].
  - exists (Example.metric "relevance_score" (PFloat (FFin (3 # 4)))).
    split; [|reflexivity].
    apply elem_of_cons. right. apply elem_of_cons. by left.
  - split; [exact H1|]. apply H2. reflexivity.
Defined.

(** A refused connection and a page that is not JSON, with [a] cached. *)
Lemma registry_failures_are_alike_witness :
  resolve Reference.strptime Reference.strftime Reference.py_str
    Example.policy_doc Example.unreachable Example.now Example.one_cached =
  resolve Reference.strptime Reference.strftime Reference.py_str
    Example.policy_doc Cases.garbled Example.now Example.one_cached /\
  fst (resolve Reference.strptime Reference.strftime Reference.py_str
         Example.policy_doc Cases.garbled Example.now Example.one_cached)
    = Ok (PStr "https://a.example/mcp").
Proof.
  split; [|reflexivity].
  apply (registry_failures_are_alike Reference.strptime Reference.strftime
           Reference.py_str Example.policy_doc Example.unreachable
           Cases.garbled Example.now Example.one_cached);
    intros url; reflexivity.
Defined.

Lemma build_url_single_mark_witness :
  build_url Reference.py_str
    ("https://registry.example/discover" +:+ marks 2) default_criteria
  = "https://registry.example/discover?limit=3&q=recipe&tags=nutrition&type=tool&verified=true" /\
  count_char "?"
    (build_url Reference.py_str
       ("https://registry.example/discover" +:+ marks 2) default_criteria)
  = 1%nat.
Proof.
  apply (build_url_single_mark Reference.py_str
           "https://registry.example/discover" 2 default_criteria);
    reflexivity.
Defined.

Lemma trailing_slashes_do_not_matter_witness :
  sse_target (PStr ("HTTPS://a.example/mcp" +:+ run "/" 3)) =
    sse_target (PStr "HTTPS://a.example/mcp") /\
  sse_target (PStr "HTTPS://a.example/mcp") =
    Ok (Connect "HTTPS://a.example/mcp/sse").
Proof.
  split; [|reflexivity].
  apply (trailing_slashes_do_not_matter "HTTPS://a.example/mcp" 3).
  discriminate.
Defined.

(** The registry is down and [a] is cached. *)
Lemma client_connects_only_to_qualified_endpoint_witness :
  exists pm item s,
    PolicyManager_init Reference.py_str Example.policy_doc Example.unreachable
      = Ok pm /\
    field "qualifiers_metrics" Example.policy_doc = Some (policy_metrics pm) /\
    qualifies (policy_metrics pm) item = true /\
    startswith (lower s) ["http://"; "https://"] = true /\
    "https://a.example/mcp/sse" = rstrip "/" s +:+ "/sse" /\
    ((exists data items,
         py_get (registry_response_data pm) "data" (PList []) = Ok data /\
         py_iter data = Ok items /\ item ∈ items /\
         field "url" item = Some (PStr s)) \/
     (exists cache e,
         Example.one_cached = Example.one_cached /\
         load_cache Example.one_cached = (Ok cache, Example.one_cached) /\
         e ∈ entries_of cache /\
         field "data_item" e = Some item /\
         field "mcp_endpoint" e = Some (PStr s))).
Proof.
  apply (client_connects_only_to_qualified_endpoint Reference.strptime
           Reference.strftime Reference.py_str Example.policy_doc
           Example.unreachable Example.now Example.one_cached
           "https://a.example/mcp/sse" Example.one_cached).
  vm_compute. reflexivity.
Defined.


Lemma constructor_requires_schema_witness :
  is_dict Example.policy_doc = true /\
  forallb (fun k => is_some (field k Example.policy_doc)) policy_keys = true /\
  has "registry_discovery_end_point" is_str Example.policy_doc = true /\
  (exists tags, field "policy_tags" Example.policy_doc = Some tags /\
                joinable tags = Ok tt) /\
  (exists ms,
      py_iter (policy_metrics
                 {| policies := Example.policy_doc;
                    registry_response_data := PDict [];
                    policy_metrics := Example.metrics |}) = Ok ms /\
      forallb shown_metric ms = true).
Proof.
  apply (constructor_requires_schema Reference.py_str Example.policy_doc
           Example.unreachable).
  reflexivity.
Defined.


(** The document of the example, a registry that is down, and one that
    answers with an integer of five thousand digits. *)
Lemma constructor_depends_on_reply_decoding_witness :
  (exists pm,
      PolicyManager_init Reference.py_str Example.policy_doc
        Example.unreachable = Ok pm) /\
  PolicyManager_init Reference.py_str Example.policy_doc Cases.overlong
    = Raise ValueError.
Proof.
  split; [eexists; reflexivity|].
  destruct (proj2 (constructor_depends_on_reply_decoding Reference.py_str
                     Example.policy_doc Example.unreachable
                     (fun _ => eq_refl))
              _ eq_refl) as (_ & _ & _ & H & _).
  apply (H Cases.overlong
           (String.string_of_list_ascii (repeat "7"%char 5000))).
  intros url. reflexivity.
Defined.
